(** * GameObjects: the entity store, the resource model and arrival resolution

    A shallow embedding of [src/Backend/GameLogic/GameObjects.ts] (which
    also carries the text of [ArrivalUtils.ts]) and the properties the
    specification states about it.

    Conventions of the embedding.
    - A JavaScript [number] is an exact rational ([Q]).  The rounding of
      IEEE doubles, the infinities and NaN are outside the model, so the
      statements below are about the arithmetic the code writes down, not
      about its rounding error.  Comparisons are the boolean ones of the
      source ([>], [<], [>=], [===]); [Math.floor] is [Qfloor].
    - [Math.exp] and the helpers the file imports and does not define
      ([isActivated], [getBytesFromHex], [bonusFromHex]) are fields of
      the class [Externals]: every definition and theorem is parametric
      in them.
    - Numeric TypeScript enums that the code does arithmetic on
      ([PlanetLevel], [SpaceType], [PlanetType], [Biome]) are their
      run-time numbers, with the members as named constants.
    - An object mutated in place is a value threaded through the
      function; every assignment [o.f = e] is one setter [set_f e o].
    - The store ([GameObjects]) is a record of finite maps; the ambient
      clock and timer table are explicit. *)

From Stdlib Require Import QArith Qround Qminmax Lqa ZArith List String Ascii Bool Lia Sorted.
From stdpp Require Import gmap strings list fin_maps.
Import ListNotations.

Local Open Scope Q_scope.

(** ** JavaScript numbers *)

Definition Math_floor (x : Q) : Q := inject_Z (Qfloor x).
Definition Math_min (x y : Q) : Q := Qmin x y.

(** [x < y], [x > y], [x >= y] and [x === y] on numbers. *)
Definition Qltb (x y : Q) : bool := negb (Qle_bool y x).
Definition Qgtb (x y : Q) : bool := Qltb y x.
Definition Qgeb (x y : Q) : bool := Qle_bool y x.

Infix "<?" := Qltb (at level 70, no associativity) : Q_scope.
Infix ">?" := Qgtb (at level 70, no associativity) : Q_scope.
Infix ">=?" := Qgeb (at level 70, no associativity) : Q_scope.
Infix "===" := Qeq_bool (at level 70, no associativity) : Q_scope.

(** A function that either returns or throws. *)
Inductive Result (A : Type) : Type :=
| Ok (a : A)
| Throw (msg : string).
Arguments Ok {A} a.
Arguments Throw {A} msg.

(** ** Identifiers, enums and constants *)

Definition EthAddress : Type := string.
Definition LocationId : Type := string.
Definition ArtifactId : Type := string.
Definition VoyageId : Type := string.

(** The constants imported from [@darkforest_eth/constants]: the
    empty-address sentinel, the fixed-point precision (1000 in the
    scenarios of the specification) and the range of planet levels. *)
Definition EMPTY_ADDRESS : EthAddress := "0x0000000000000000000000000000000000000000"%string.
Definition CONTRACT_PRECISION : Q := 1000.

(** The numeric enums of [@darkforest_eth/types], by their run-time
    numbers. *)
Definition PlanetLevel : Type := nat.
Definition MIN_PLANET_LEVEL : PlanetLevel := 0%nat.
Definition MAX_PLANET_LEVEL : PlanetLevel := 9%nat.
Definition PlanetLevel_FOUR : PlanetLevel := 4%nat.
Definition PlanetLevel_FIVE : PlanetLevel := 5%nat.

Definition SpaceType : Type := nat.
Definition NEBULA : SpaceType := 0%nat.
Definition SPACE : SpaceType := 1%nat.
Definition DEEP_SPACE : SpaceType := 2%nat.
Definition DEAD_SPACE : SpaceType := 3%nat.

Definition PlanetType : Type := nat.
Definition PLANET : PlanetType := 0%nat.
Definition SILVER_MINE : PlanetType := 1%nat.
Definition RUINS : PlanetType := 2%nat.
Definition TRADING_POST : PlanetType := 3%nat.
Definition SILVER_BANK : PlanetType := 4%nat.

Definition Biome : Type := nat.
Definition CORRUPTED : Biome := 10%nat.

Module ArtifactType.
Inductive t : Type :=
| Unknown | Monolith | Colossus | Spaceship | Pyramid | Wormhole
| PlanetaryShield | PhotoidCannon | BloomFilter | BlackDomain.

(** [a === b] on artifact types. *)
Definition eqb (a b : t) : bool :=
  match a, b with
  | Unknown, Unknown | Monolith, Monolith | Colossus, Colossus
  | Spaceship, Spaceship | Pyramid, Pyramid | Wormhole, Wormhole
  | PlanetaryShield, PlanetaryShield | PhotoidCannon, PhotoidCannon
  | BloomFilter, BloomFilter | BlackDomain, BlackDomain => true
  | _, _ => false
  end.
End ArtifactType.

(** JavaScript truthiness of an optional string: defined and not empty. *)
Definition truthy (o : option string) : option string :=
  match o with
  | Some s => if String.eqb s "" then None else Some s
  | None => None
  end.

(** ** Records of [@darkforest_eth/types] *)

(** A pending transaction intent; the store only reads its action id. *)
Record TxIntent : Type := { actionId : string }.

(** A value the store passes along without looking inside (animations,
    planet messages). *)
Inductive Opaque : Type := opaque (tag : nat).

Record Upgrade : Type := {
  energyCapMultiplier : Q;
  energyGroMultiplier : Q;
  rangeMultiplier : Q;
  speedMultiplier : Q;
  defMultiplier : Q
}.

(** World coordinates are integers. *)
Record WorldCoords : Type := { x : Z; y : Z }.

Module WorldLocation.
Record t : Type := {
  coords : WorldCoords;
  hash : LocationId;
  perlin : Q;
  biomebase : Q
}.
End WorldLocation.

Module RevealedLocation.
Record t : Type := {
  location : WorldLocation.t;
  revealer : EthAddress
}.
End RevealedLocation.

Module Artifact.
Record t : Type := {
  id : ArtifactId;
  artifactType : ArtifactType.t;
  currentOwner : EthAddress;
  onPlanetId : option LocationId;
  onVoyageId : option VoyageId;
  wormholeTo : option LocationId;
  lastActivated : Q;
  lastDeactivated : Q;
  timeDelayedUpgrade : Upgrade;
  unconfirmedDepositArtifact : option TxIntent;
  unconfirmedWithdrawArtifact : option TxIntent;
  unconfirmedActivateArtifact : option TxIntent;
  unconfirmedDeactivateArtifact : option TxIntent;
  unconfirmedMove : option TxIntent
}.
End Artifact.

Module QueuedArrival.
Record t : Type := {
  eventId : VoyageId;
  player : EthAddress;
  fromPlanet : LocationId;
  toPlanet : LocationId;
  energyArriving : Q;
  silverMoved : Q;
  artifactId : option ArtifactId;
  departureTime : Q;
  arrivalTime : Q
}.
End QueuedArrival.

Record Planet : Type := mkPlanet {
  locationId : LocationId;
  perlin : Q;
  spaceType : SpaceType;
  owner : EthAddress;
  hatLevel : Q;
  bonus : list bool;
  planetLevel : PlanetLevel;
  planetType : PlanetType;
  isHomePlanet : bool;
  energyCap : Q;
  energyGrowth : Q;
  silverCap : Q;
  silverGrowth : Q;
  range : Q;
  speed : Q;
  defense : Q;
  energy : Q;
  silver : Q;
  lastUpdated : Q;
  upgradeState : list Q;
  unconfirmedReveal : option TxIntent;
  unconfirmedDepartures : list TxIntent;
  unconfirmedUpgrades : list TxIntent;
  unconfirmedBuyHats : list TxIntent;
  unconfirmedPlanetTransfers : list TxIntent;
  unconfirmedFindArtifact : option TxIntent;
  unconfirmedDepositArtifact : option TxIntent;
  unconfirmedWithdrawArtifact : option TxIntent;
  unconfirmedActivateArtifact : option TxIntent;
  unconfirmedDeactivateArtifact : option TxIntent;
  unconfirmedWithdrawSilver : option TxIntent;
  unconfirmedProspectPlanet : option TxIntent;
  unconfirmedClearEmoji : bool;
  unconfirmedAddEmoji : bool;
  loadingServerState : bool;
  needsServerRefresh : bool;
  lastLoadedServerState : option Q;
  emojiBobAnimation : option Opaque;
  emojiZoopAnimation : option Opaque;
  emojiZoopOutAnimation : option Opaque;
  messages : option (list Opaque);
  silverSpent : Q;
  prospectedBlockNumber : option Q;
  heldArtifactIds : list ArtifactId;
  destroyed : bool;
  isInContract : bool;
  syncedWithContract : bool;
  coordsRevealed : bool;
  revealer : option EthAddress;
  claimer : option EthAddress;
  location : option WorldLocation.t;
  biome : option Biome;
  hasTriedFindingArtifact : bool;
  localPhotoidUpgrade : option Upgrade
}.

(** *** Assignment to one field

    [planet_eta p] spells [p] out field by field; [update_field f v p]
    builds from it the record that is [p] with [f] replaced by [v]. *)
Definition planet_eta (p : Planet) : Planet :=
  mkPlanet (locationId p) (perlin p) (spaceType p) (owner p) (hatLevel p) (bonus p)
    (planetLevel p) (planetType p) (isHomePlanet p) (energyCap p) (energyGrowth p)
    (silverCap p) (silverGrowth p) (range p) (speed p) (defense p) (energy p) (silver p)
    (lastUpdated p) (upgradeState p) (unconfirmedReveal p) (unconfirmedDepartures p)
    (unconfirmedUpgrades p) (unconfirmedBuyHats p) (unconfirmedPlanetTransfers p)
    (unconfirmedFindArtifact p) (unconfirmedDepositArtifact p)
    (unconfirmedWithdrawArtifact p) (unconfirmedActivateArtifact p)
    (unconfirmedDeactivateArtifact p) (unconfirmedWithdrawSilver p)
    (unconfirmedProspectPlanet p) (unconfirmedClearEmoji p) (unconfirmedAddEmoji p)
    (loadingServerState p) (needsServerRefresh p) (lastLoadedServerState p)
    (emojiBobAnimation p) (emojiZoopAnimation p) (emojiZoopOutAnimation p) (messages p)
    (silverSpent p) (prospectedBlockNumber p) (heldArtifactIds p) (destroyed p)
    (isInContract p) (syncedWithContract p) (coordsRevealed p) (revealer p) (claimer p)
    (location p) (biome p) (hasTriedFindingArtifact p) (localPhotoidUpgrade p).

Ltac update_field proj v p :=
  let e := eval cbv delta [planet_eta] beta in (planet_eta p) in
  let e' := eval pattern (proj p) in e in
  lazymatch e' with
  | ?f _ => let r := eval cbv beta in (f v) in exact r
  end.

Definition set_owner (v : EthAddress) (p : Planet) : Planet := ltac:(update_field owner v p).
Definition set_energyGrowth (v : Q) (p : Planet) : Planet := ltac:(update_field energyGrowth v p).
Definition set_range (v : Q) (p : Planet) : Planet := ltac:(update_field range v p).
Definition set_speed (v : Q) (p : Planet) : Planet := ltac:(update_field speed v p).
Definition set_defense (v : Q) (p : Planet) : Planet := ltac:(update_field defense v p).
Definition set_energy (v : Q) (p : Planet) : Planet := ltac:(update_field energy v p).
Definition set_silver (v : Q) (p : Planet) : Planet := ltac:(update_field silver v p).
Definition set_lastUpdated (v : Q) (p : Planet) : Planet := ltac:(update_field lastUpdated v p).
Definition set_destroyed (v : bool) (p : Planet) : Planet := ltac:(update_field destroyed v p).
Definition set_heldArtifactIds (v : list ArtifactId) (p : Planet) : Planet :=
  ltac:(update_field heldArtifactIds v p).
Definition set_localPhotoidUpgrade (v : option Upgrade) (p : Planet) : Planet :=
  ltac:(update_field localPhotoidUpgrade v p).
Definition set_isInContract (v : bool) (p : Planet) : Planet :=
  ltac:(update_field isInContract v p).
Definition set_unconfirmedAddEmoji (v : bool) (p : Planet) : Planet :=
  ltac:(update_field unconfirmedAddEmoji v p).
Definition set_silverSpent (v : Q) (p : Planet) : Planet := ltac:(update_field silverSpent v p).
Definition set_coordsRevealed (v : bool) (p : Planet) : Planet :=
  ltac:(update_field coordsRevealed v p).
Definition set_revealer (v : option EthAddress) (p : Planet) : Planet :=
  ltac:(update_field revealer v p).
Definition set_claimer (v : option EthAddress) (p : Planet) : Planet :=
  ltac:(update_field claimer v p).
Definition set_location (v : option WorldLocation.t) (p : Planet) : Planet :=
  ltac:(update_field location v p).
Definition set_biome (v : option Biome) (p : Planet) : Planet := ltac:(update_field biome v p).
Definition set_unconfirmedReveal (v : option TxIntent) (p : Planet) : Planet :=
  ltac:(update_field unconfirmedReveal v p).
Definition set_unconfirmedDepartures (v : list TxIntent) (p : Planet) : Planet :=
  ltac:(update_field unconfirmedDepartures v p).
Definition set_unconfirmedUpgrades (v : list TxIntent) (p : Planet) : Planet :=
  ltac:(update_field unconfirmedUpgrades v p).
Definition set_unconfirmedBuyHats (v : list TxIntent) (p : Planet) : Planet :=
  ltac:(update_field unconfirmedBuyHats v p).
Definition set_unconfirmedPlanetTransfers (v : list TxIntent) (p : Planet) : Planet :=
  ltac:(update_field unconfirmedPlanetTransfers v p).
Definition set_unconfirmedFindArtifact (v : option TxIntent) (p : Planet) : Planet :=
  ltac:(update_field unconfirmedFindArtifact v p).
Definition set_unconfirmedDepositArtifact (v : option TxIntent) (p : Planet) : Planet :=
  ltac:(update_field unconfirmedDepositArtifact v p).
Definition set_unconfirmedWithdrawArtifact (v : option TxIntent) (p : Planet) : Planet :=
  ltac:(update_field unconfirmedWithdrawArtifact v p).
Definition set_unconfirmedActivateArtifact (v : option TxIntent) (p : Planet) : Planet :=
  ltac:(update_field unconfirmedActivateArtifact v p).
Definition set_unconfirmedDeactivateArtifact (v : option TxIntent) (p : Planet) : Planet :=
  ltac:(update_field unconfirmedDeactivateArtifact v p).
Definition set_unconfirmedWithdrawSilver (v : option TxIntent) (p : Planet) : Planet :=
  ltac:(update_field unconfirmedWithdrawSilver v p).
Definition set_unconfirmedProspectPlanet (v : option TxIntent) (p : Planet) : Planet :=
  ltac:(update_field unconfirmedProspectPlanet v p).
Definition set_loadingServerState (v : bool) (p : Planet) : Planet :=
  ltac:(update_field loadingServerState v p).
Definition set_needsServerRefresh (v : bool) (p : Planet) : Planet :=
  ltac:(update_field needsServerRefresh v p).
Definition set_lastLoadedServerState (v : option Q) (p : Planet) : Planet :=
  ltac:(update_field lastLoadedServerState v p).
Definition set_emojiBobAnimation (v : option Opaque) (p : Planet) : Planet :=
  ltac:(update_field emojiBobAnimation v p).
Definition set_emojiZoopAnimation (v : option Opaque) (p : Planet) : Planet :=
  ltac:(update_field emojiZoopAnimation v p).
Definition set_emojiZoopOutAnimation (v : option Opaque) (p : Planet) : Planet :=
  ltac:(update_field emojiZoopOutAnimation v p).
Definition set_messages (v : option (list Opaque)) (p : Planet) : Planet :=
  ltac:(update_field messages v p).

(** ** The ruleset and the imported helpers *)

(** [ContractConstants]: the fields this file reads.  A table indexed by
    planet level (or by space type and planet level) is a total function:
    the ruleset has an entry for every level. *)
Record ContractConstants : Type := {
  DESTROY_THRESHOLD : Q;
  PHOTOID_ACTIVATION_DELAY : Q;
  TIME_FACTOR_HUNDREDTHS : Q;
  MAX_NATURAL_PLANET_LEVEL : PlanetLevel;
  PERLIN_THRESHOLD_1 : Q;
  PERLIN_THRESHOLD_2 : Q;
  PERLIN_THRESHOLD_3 : Q;
  BIOME_THRESHOLD_1 : Q;
  BIOME_THRESHOLD_2 : Q;
  planetLevelThresholds : PlanetLevel -> Z;
  PLANET_TYPE_WEIGHTS : SpaceType -> PlanetLevel -> list Q;
  defaultPopulationCap : PlanetLevel -> Q;
  defaultPopulationGrowth : PlanetLevel -> Q;
  defaultRange : PlanetLevel -> Q;
  defaultSpeed : PlanetLevel -> Q;
  defaultDefense : PlanetLevel -> Q;
  defaultSilverCap : PlanetLevel -> Q;
  defaultSilverGrowth : PlanetLevel -> Q;
  defaultBarbarianPercentage : PlanetLevel -> Q
}.

(** What the file calls and does not define: the platform's [Math.exp],
    [isActivated] of [ArtifactUtils], and [getBytesFromHex] and
    [bonusFromHex] of [@darkforest_eth/hexgen]. *)
Class Externals : Type := {
  Math_exp : Q -> Q;
  isActivated : Artifact.t -> bool;
  getBytesFromHex : LocationId -> nat -> nat -> Z;
  bonusFromHex : LocationId -> list bool
}.

(** Modelled from the spec: [hasOwner] of [Backend/Utils/Utils.ts], which
    is not in this file.  A territory is unowned when its owner is the
    empty-address sentinel. *)
Definition hasOwner (planet : Planet) : bool :=
  negb (String.eqb (owner planet) EMPTY_ADDRESS).

(** ** ArrivalUtils *)

Section ArrivalUtils.
Context {ext : Externals}.

Definition getSilverOverTime (planet : Planet) (startTimeMillis endTimeMillis : Q) : Q :=
  if negb (hasOwner planet) then silver planet
  else if silver planet >? silverCap planet then silverCap planet
  else
    let timeElapsed := endTimeMillis / 1000 - startTimeMillis / 1000 in
    Math_min (timeElapsed * silverGrowth planet + silver planet) (silverCap planet).

Definition getEnergyAtTime (planet : Planet) (atTimeMillis : Q) : Q :=
  if energy planet === 0 then 0
  else if negb (hasOwner planet) then energy planet
  else if Nat.eqb (planetType planet) SILVER_BANK && (energy planet >? energyCap planet)
  then energyCap planet
  else
    let timeElapsed := atTimeMillis / 1000 - lastUpdated planet in
    let denominator :=
      Math_exp ((-4 * energyGrowth planet * timeElapsed) / energyCap planet)
        * (energyCap planet / energy planet - 1)
      + 1 in
    energyCap planet / denominator.

Definition applyUpgrade (planet : Planet) (upgrade : Upgrade) (unApply : bool) : Planet :=
  if unApply then
    let planet := set_speed (speed planet / (energyCapMultiplier upgrade / 100)) planet in
    let planet :=
      set_energyGrowth (energyGrowth planet / (energyGroMultiplier upgrade / 100)) planet in
    let planet := set_range (range planet / (rangeMultiplier upgrade / 100)) planet in
    let planet := set_speed (speed planet / (speedMultiplier upgrade / 100)) planet in
    set_defense (defense planet / (defMultiplier upgrade / 100)) planet
  else
    let planet := set_speed (speed planet * (energyCapMultiplier upgrade / 100)) planet in
    let planet :=
      set_energyGrowth (energyGrowth planet * (energyGroMultiplier upgrade / 100)) planet in
    let planet := set_range (range planet * (rangeMultiplier upgrade / 100)) planet in
    let planet := set_speed (speed planet * (speedMultiplier upgrade / 100)) planet in
    set_defense (defense planet * (defMultiplier upgrade / 100)) planet.

(** The artifact [updatePlanetToTime] looks for: an activated photoid
    cannon whose activation delay has passed at [atTimeMillis]. *)
Definition isActivePhotoid (cc : ContractConstants) (atTimeMillis : Q) (a : Artifact.t) : bool :=
  let photoidActivationTime := PHOTOID_ACTIVATION_DELAY cc * 1000 in
  ArtifactType.eqb (Artifact.artifactType a) ArtifactType.PhotoidCannon
  && isActivated a
  && (atTimeMillis - Artifact.lastActivated a * 1000 >=? photoidActivationTime).

(** The planet object after [updatePlanetToTime]; the optional [setPlanet]
    callback is [updatePlanetToTime_commits]. *)
Definition updatePlanetToTime (planet : Planet) (planetArtifacts : list Artifact.t)
    (atTimeMillis : Q) (contractConstants : ContractConstants) : Planet :=
  if atTimeMillis <? lastUpdated planet * 1000 then planet
  else
    let planet :=
      set_silver (getSilverOverTime planet (lastUpdated planet * 1000) atTimeMillis) planet in
    let planet := set_energy (getEnergyAtTime planet atTimeMillis) planet in
    let planet := set_lastUpdated (atTimeMillis / 1000) planet in
    let activePhotoid :=
      List.find (isActivePhotoid contractConstants atTimeMillis) planetArtifacts in
    match activePhotoid, localPhotoidUpgrade planet with
    | Some activePhotoid, None =>
        let planet :=
          set_localPhotoidUpgrade (Some (Artifact.timeDelayedUpgrade activePhotoid)) planet in
        applyUpgrade planet (Artifact.timeDelayedUpgrade activePhotoid) false
    | _, _ => planet
    end.

(** Whether [updatePlanetToTime] reaches its final [setPlanet(planet)]. *)
Definition updatePlanetToTime_commits (planet : Planet) (atTimeMillis : Q) : bool :=
  negb (atTimeMillis <? lastUpdated planet * 1000).

Record PlanetDiff : Type := {
  previous : Planet;
  current : Planet;
  arrival : QueuedArrival.t
}.

(** The fixed-point quotient [Math.floor((e * CONTRACT_PRECISION * 100) /
    defense) / CONTRACT_PRECISION] that [arrive] writes three times.
    Numbers are exact rationals here.  Where the products under
    [Math.floor] are whole numbers below 2^53 the doubles of the source
    hold them exactly and give the same quotient; elsewhere a double
    product can round across a whole number (the double nearest 50.013,
    times 1000, rounds to 50013), and the quotient of the source differ
    from this one by one unit of [1 / CONTRACT_PRECISION]. *)
Definition effectiveDamage (energyArriving defense : Q) : Q :=
  Math_floor ((energyArriving * CONTRACT_PRECISION * 100) / defense) / CONTRACT_PRECISION.

Definition arrive (toPlanet : Planet) (artifactsOnPlanet : list Artifact.t)
    (arrival : QueuedArrival.t) (contractConstants : ContractConstants) : Result PlanetDiff :=
  if negb (String.eqb (locationId toPlanet) (QueuedArrival.toPlanet arrival)) then
    Throw ("attempted to apply arrival for wrong toPlanet " ++ locationId toPlanet)
  else
    (* update toPlanet energy and silver right before arrival *)
    let toPlanet :=
      updatePlanetToTime toPlanet artifactsOnPlanet
        (QueuedArrival.arrivalTime arrival * 1000) contractConstants in
    let prevPlanet := toPlanet in
    if destroyed toPlanet then
      Ok {| arrival := arrival; previous := toPlanet; current := toPlanet |}
    else
      (* apply energy *)
      let energyArriving := QueuedArrival.energyArriving arrival in
      let toPlanet :=
        if negb (String.eqb (QueuedArrival.player arrival) (owner toPlanet)) then
          (* attacking enemy - includes emptyAddress *)
          if energy toPlanet >? effectiveDamage energyArriving (defense toPlanet) then
            (* attack reduces target planet's garrison but doesn't conquer it *)
            set_energy
              (energy toPlanet - effectiveDamage energyArriving (defense toPlanet)) toPlanet
          else
            (* conquers planet *)
            let DESTROY_THRESHOLD := DESTROY_THRESHOLD contractConstants in
            let toPlanet :=
              if negb (String.eqb (owner prevPlanet) EMPTY_ADDRESS)
                 && (DESTROY_THRESHOLD >? 0)
              then
                let preciseEnergyArriving :=
                  effectiveDamage energyArriving (defense toPlanet) in
                if preciseEnergyArriving >? energy toPlanet * DESTROY_THRESHOLD
                then set_destroyed true toPlanet
                else toPlanet
              else toPlanet in
            let toPlanet := set_owner (QueuedArrival.player arrival) toPlanet in
            set_energy
              (energyArriving
               - Math_floor ((energy toPlanet * CONTRACT_PRECISION * defense toPlanet) / 100)
                 / CONTRACT_PRECISION)
              toPlanet
        else
          (* moving between my own planets *)
          set_energy (energy toPlanet + energyArriving) toPlanet in
      let toPlanet :=
        if Nat.eqb (planetType toPlanet) SILVER_BANK
           && (energy toPlanet >? energyCap toPlanet)
        then set_energy (energyCap toPlanet) toPlanet
        else toPlanet in
      (* apply silver *)
      let toPlanet :=
        if silver toPlanet + QueuedArrival.silverMoved arrival >? silverCap toPlanet
        then set_silver (silverCap toPlanet) toPlanet
        else set_silver (silver toPlanet + QueuedArrival.silverMoved arrival) toPlanet in
      (* transfer artifact if necessary *)
      let toPlanet :=
        match truthy (QueuedArrival.artifactId arrival) with
        | Some artifactId =>
            set_heldArtifactIds (heldArtifactIds toPlanet ++ [artifactId]) toPlanet
        | None => toPlanet
        end in
      Ok {| arrival := arrival; current := toPlanet; previous := prevPlanet |}.

End ArrivalUtils.

(** ** Procedural generation *)

Section Procgen.
Context {ext : Externals}.
Variable contractConstants : ContractConstants.

Definition spaceTypeFromPerlin (perlin : Q) : SpaceType :=
  if perlin <? PERLIN_THRESHOLD_1 contractConstants then NEBULA
  else if perlin <? PERLIN_THRESHOLD_2 contractConstants then SPACE
  else if perlin <? PERLIN_THRESHOLD_3 contractConstants then DEEP_SPACE
  else DEAD_SPACE.

(** The loop [for (type = MAX_PLANET_LEVEL; type >= MIN_PLANET_LEVEL;
    type--)] of [planetLevelFromHexPerlin], entered at [type]; the value
    of [ret] when it ends. *)
Fixpoint levelLoop (levelBigInt : Z) (type : nat) : PlanetLevel :=
  if (MIN_PLANET_LEVEL <=? type)%nat then
    if (levelBigInt <? planetLevelThresholds contractConstants type)%Z then type
    else
      match type with
      | S type' => levelLoop levelBigInt type'
      | O => MIN_PLANET_LEVEL
      end
  else MIN_PLANET_LEVEL.

Definition planetLevelFromHexPerlin (hex : LocationId) (perlin : Q) : PlanetLevel :=
  let spaceType := spaceTypeFromPerlin perlin in
  let levelBigInt := getBytesFromHex hex 4 7 in
  let ret := levelLoop levelBigInt MAX_PLANET_LEVEL in
  let ret :=
    if Nat.eqb spaceType NEBULA && (PlanetLevel_FOUR <? ret)%nat then PlanetLevel_FOUR
    else ret in
  let ret :=
    if Nat.eqb spaceType SPACE && (PlanetLevel_FIVE <? ret)%nat then PlanetLevel_FIVE
    else ret in
  let ret :=
    if (MAX_NATURAL_PLANET_LEVEL contractConstants <? ret)%nat
    then MAX_NATURAL_PLANET_LEVEL contractConstants
    else ret in
  ret.

(** [thresholds] of [planetTypeFromHexPerlin] before the final [map]:
    [prev] is [thresholds[i - 1]], the list the weights from index [i]. *)
Fixpoint runningThresholds (prev : Q) (weights : list Q) : list Q :=
  match weights with
  | [] => []
  | w :: weights' => (prev - w) :: runningThresholds (prev - w) weights'
  end.

(** The first index [i], counted from [i0], with [typeByte >= thresholds[i]]. *)
Fixpoint firstBucket (typeByte : Q) (thresholds : list Q) (i0 : nat) : option nat :=
  match thresholds with
  | [] => None
  | t :: thresholds' =>
      if typeByte >=? t then Some i0 else firstBucket typeByte thresholds' (S i0)
  end.

Definition planetTypeFromHexPerlin (hex : LocationId) (perlin : Q) : Result PlanetType :=
  (* level must be sufficient - too low level planets have 0 silver growth *)
  let planetLevel := planetLevelFromHexPerlin hex perlin in
  let spaceType := spaceTypeFromPerlin perlin in
  let weights := PLANET_TYPE_WEIGHTS contractConstants spaceType planetLevel in
  match weights with
  | [] => Throw "Reduce of empty array with no initial value"
  | w0 :: rest =>
      let weightSum := fold_left Qplus rest w0 in
      let thresholds := (weightSum - w0) :: runningThresholds (weightSum - w0) rest in
      let thresholds := List.map (fun x => Math_floor ((x * 256) / weightSum)) thresholds in
      let typeByte := inject_Z (getBytesFromHex hex 8 9) in
      match firstBucket typeByte thresholds 0 with
      | Some i => Ok i
      | None => Ok PLANET (* this should never happen *)
      end
  end.

Definition getBiome (loc : WorldLocation.t) : Biome :=
  let perlin := WorldLocation.perlin loc in
  let biomebase := WorldLocation.biomebase loc in
  let spaceType := spaceTypeFromPerlin perlin in
  if Nat.eqb spaceType DEAD_SPACE then CORRUPTED
  else
    let biome := (3 * spaceType)%nat in
    if biomebase <? BIOME_THRESHOLD_1 contractConstants then (biome + 1)%nat
    else if biomebase <? BIOME_THRESHOLD_2 contractConstants then (biome + 2)%nat
    else (biome + 3)%nat.

(** [b ? 2 : 1]. *)
Definition twiceIf (b : bool) : Q := if b then 2 else 1.

(** The statistics a space type scales together: range, speed, energy
    cap, energy growth, silver cap, silver growth. *)
Record BaseStats : Type := {
  bs_range : Q; bs_speed : Q; bs_energyCap : Q; bs_energyGro : Q;
  bs_silCap : Q; bs_silGro : Q; bs_defense : Q
}.

Definition scaleBySpaceType (spaceType : SpaceType) (s : BaseStats) : BaseStats :=
  if Nat.eqb spaceType DEAD_SPACE then
    {| bs_range := bs_range s * 2; bs_speed := bs_speed s * 2;
       bs_energyCap := bs_energyCap s * 2; bs_energyGro := bs_energyGro s * 2;
       bs_silCap := bs_silCap s * 2; bs_silGro := bs_silGro s * 2;
       bs_defense := Math_floor ((bs_defense s * 3) / 20) |}
  else if Nat.eqb spaceType DEEP_SPACE then
    {| bs_range := bs_range s * 1.5; bs_speed := bs_speed s * 1.5;
       bs_energyCap := bs_energyCap s * 1.5; bs_energyGro := bs_energyGro s * 1.5;
       bs_silCap := bs_silCap s * 1.5; bs_silGro := bs_silGro s * 1.5;
       bs_defense := bs_defense s * 0.25 |}
  else if Nat.eqb spaceType SPACE then
    {| bs_range := bs_range s * 1.25; bs_speed := bs_speed s * 1.25;
       bs_energyCap := bs_energyCap s * 1.25; bs_energyGro := bs_energyGro s * 1.25;
       bs_silCap := bs_silCap s * 1.25; bs_silGro := bs_silGro s * 1.25;
       bs_defense := bs_defense s * 0.5 |}
  else s.

(** apply stat modifiers for special planet types *)
Definition scaleByPlanetType (planetType : PlanetType) (s : BaseStats) : BaseStats :=
  if Nat.eqb planetType SILVER_MINE then
    {| bs_range := bs_range s; bs_speed := bs_speed s; bs_energyCap := bs_energyCap s;
       bs_energyGro := bs_energyGro s; bs_silCap := bs_silCap s * 2;
       bs_silGro := bs_silGro s; bs_defense := bs_defense s * 0.5 |}
  else if Nat.eqb planetType SILVER_BANK then
    {| bs_range := bs_range s; bs_speed := bs_speed s / 2;
       bs_energyCap := bs_energyCap s * 5; bs_energyGro := 0;
       bs_silCap := bs_silCap s * 10; bs_silGro := bs_silGro s;
       bs_defense := bs_defense s |}
  else if Nat.eqb planetType TRADING_POST then
    {| bs_range := bs_range s; bs_speed := bs_speed s; bs_energyCap := bs_energyCap s;
       bs_energyGro := bs_energyGro s; bs_silCap := bs_silCap s * 2;
       bs_silGro := bs_silGro s; bs_defense := bs_defense s * 0.5 |}
  else s.

(** [defaultPlanetFromLocation]: besides the location and the ruleset it
    reads the clock ([nowMillis] is [Date.now()]) and the store's set of
    touched planet ids. *)
Definition defaultPlanetFromLocation (touchedPlanetIds : gset LocationId) (nowMillis : Q)
    (location : WorldLocation.t) : Result Planet :=
  let perlin := WorldLocation.perlin location in
  let hex := WorldLocation.hash location in
  let planetLevel := planetLevelFromHexPerlin hex perlin in
  match planetTypeFromHexPerlin hex perlin with
  | Throw msg => Throw msg
  | Ok planetType =>
      let spaceType := spaceTypeFromPerlin perlin in
      let bonuses := bonusFromHex hex in
      let energyCapBonus := nth 0 bonuses false in
      let energyGroBonus := nth 1 bonuses false in
      let rangeBonus := nth 2 bonuses false in
      let speedBonus := nth 3 bonuses false in
      let defBonus := nth 4 bonuses false in
      let silGro :=
        if Nat.eqb planetType SILVER_MINE
        then defaultSilverGrowth contractConstants planetLevel
        else 0 in
      let stats :=
        {| bs_energyCap := defaultPopulationCap contractConstants planetLevel
                           * twiceIf energyCapBonus;
           bs_energyGro := defaultPopulationGrowth contractConstants planetLevel
                           * twiceIf energyGroBonus;
           bs_range := defaultRange contractConstants planetLevel * twiceIf rangeBonus;
           bs_speed := defaultSpeed contractConstants planetLevel * twiceIf speedBonus;
           bs_defense := defaultDefense contractConstants planetLevel * twiceIf defBonus;
           bs_silCap := defaultSilverCap contractConstants planetLevel;
           bs_silGro := silGro |} in
      let stats := scaleBySpaceType spaceType stats in
      let stats := scaleByPlanetType planetType stats in
      let pirates :=
        (bs_energyCap stats * defaultBarbarianPercentage contractConstants planetLevel)
        / 100 in
      (* increase pirates *)
      let pirates :=
        if Nat.eqb spaceType DEAD_SPACE then pirates * 20
        else if Nat.eqb spaceType DEEP_SPACE then pirates * 10
        else if Nat.eqb spaceType SPACE then pirates * 4
        else pirates in
      let silver := if Nat.eqb planetType SILVER_MINE then bs_silCap stats / 2 else 0 in
      let speed := bs_speed stats * (TIME_FACTOR_HUNDREDTHS contractConstants / 100) in
      let energyGro :=
        bs_energyGro stats * (TIME_FACTOR_HUNDREDTHS contractConstants / 100) in
      let silGro := bs_silGro stats * (TIME_FACTOR_HUNDREDTHS contractConstants / 100) in
      let biome := getBiome location in
      Ok {| locationId := hex;
            perlin := perlin;
            spaceType := spaceType;
            owner := EMPTY_ADDRESS;
            hatLevel := 0;
            bonus := bonusFromHex hex;
            planetLevel := planetLevel;
            planetType := planetType;
            isHomePlanet := false;
            energyCap := bs_energyCap stats;
            energyGrowth := energyGro;
            silverCap := bs_silCap stats;
            silverGrowth := silGro;
            range := bs_range stats;
            speed := speed;
            defense := bs_defense stats;
            energy := pirates;
            silver := silver;
            lastUpdated := Math_floor (nowMillis / 1000);
            upgradeState := [0; 0; 0];
            unconfirmedReveal := None;
            unconfirmedDepartures := [];
            unconfirmedUpgrades := [];
            unconfirmedBuyHats := [];
            unconfirmedPlanetTransfers := [];
            unconfirmedFindArtifact := None;
            unconfirmedDepositArtifact := None;
            unconfirmedWithdrawArtifact := None;
            unconfirmedActivateArtifact := None;
            unconfirmedDeactivateArtifact := None;
            unconfirmedWithdrawSilver := None;
            unconfirmedProspectPlanet := None;
            unconfirmedClearEmoji := false;
            unconfirmedAddEmoji := false;
            loadingServerState := false;
            needsServerRefresh := false;
            lastLoadedServerState := None;
            emojiBobAnimation := None;
            emojiZoopAnimation := None;
            emojiZoopOutAnimation := None;
            messages := None;
            silverSpent := 0;
            prospectedBlockNumber := None;
            heldArtifactIds := [];
            destroyed := false;
            isInContract := bool_decide (hex ∈ touchedPlanetIds);
            syncedWithContract := false;
            coordsRevealed := false;
            revealer := None;
            claimer := None;
            location := Some location;
            biome := Some biome;
            hasTriedFindingArtifact := false;
            localPhotoidUpgrade := None |}
  end.

End Procgen.

(** ** The store *)

Record Wormhole : Type := { from : LocationId; to : LocationId }.

Record ArrivalWithTimer : Type := {
  arrivalData : QueuedArrival.t;
  timer : nat
}.

(** What the four emitters publish. *)
Inductive Event : Type :=
| PlanetUpdated (id : LocationId)
| MyPlanetsUpdated
| ArtifactUpdated (id : ArtifactId)
| MyArtifactsUpdated.

(** Calls on the notification manager. *)
Inductive Notification : Type :=
| NotifPlanetCanUpgrade (id : LocationId)
| NotifPlanetDestroyed (id : LocationId)
| NotifPlanetConquered (id : LocationId)
| NotifPlanetLost (id : LocationId)
| NotifPlanetAttacked (id : LocationId).

(** [`${coords.x},${coords.y}`], kept as the pair it is written from. *)
Definition CoordsString : Type := (Z * Z)%type.
Definition getCoordsString (coords : WorldCoords) : CoordsString := (x coords, y coords).

(** The fields of [GameObjects] that the methods below read or write,
    followed by the ambient state they act on: what the emitters have
    published, the pending [setTimeout] callbacks (each remembers the
    planet and the arrival it was created for) with the next free
    handle, the console and the notification manager.

    A planet object is shared by [planets] and [myPlanets]: both file it
    under its [locationId], so an in-place mutation of the object found
    under a key is written to both maps ([mutatePlanet]). *)
Record GameObjects : Type := mkGameObjects {
  layeredMap : gmap LocationId (WorldLocation.t * PlanetLevel);
  address : option EthAddress;
  planets : gmap LocationId Planet;
  myPlanets : gmap LocationId Planet;
  artifacts : gmap ArtifactId Artifact.t;
  myArtifacts : gmap ArtifactId Artifact.t;
  wormholes : gmap ArtifactId Wormhole;
  touchedPlanetIds : gset LocationId;
  arrivals : gmap VoyageId ArrivalWithTimer;
  planetArrivalIds : gmap LocationId (list VoyageId);
  planetLocationMap : gmap LocationId WorldLocation.t;
  revealedLocations : gmap LocationId RevealedLocation.t;
  contractConstants : ContractConstants;
  coordsToLocation : gmap CoordsString WorldLocation.t;
  published : list Event;
  timers : gmap nat (LocationId * QueuedArrival.t);
  nextTimer : nat;
  console : list string;
  notifications : list Notification
}.

Definition store_eta (s : GameObjects) : GameObjects :=
  mkGameObjects (layeredMap s) (address s) (planets s) (myPlanets s) (artifacts s)
    (myArtifacts s) (wormholes s) (touchedPlanetIds s) (arrivals s) (planetArrivalIds s)
    (planetLocationMap s) (revealedLocations s) (contractConstants s) (coordsToLocation s)
    (published s) (timers s) (nextTimer s) (console s) (notifications s).

Ltac update_store proj v s :=
  let e := eval cbv delta [store_eta] beta in (store_eta s) in
  let e' := eval pattern (proj s) in e in
  lazymatch e' with
  | ?f _ => let r := eval cbv beta in (f v) in exact r
  end.

Definition set_layeredMap (v : gmap LocationId (WorldLocation.t * PlanetLevel))
    (s : GameObjects) : GameObjects := ltac:(update_store layeredMap v s).
Definition set_planets (v : gmap LocationId Planet) (s : GameObjects) : GameObjects :=
  ltac:(update_store planets v s).
Definition set_myPlanets (v : gmap LocationId Planet) (s : GameObjects) : GameObjects :=
  ltac:(update_store myPlanets v s).
Definition set_artifacts (v : gmap ArtifactId Artifact.t) (s : GameObjects) : GameObjects :=
  ltac:(update_store artifacts v s).
Definition set_myArtifacts (v : gmap ArtifactId Artifact.t) (s : GameObjects) : GameObjects :=
  ltac:(update_store myArtifacts v s).
Definition set_wormholes (v : gmap ArtifactId Wormhole) (s : GameObjects) : GameObjects :=
  ltac:(update_store wormholes v s).
Definition set_touchedPlanetIds (v : gset LocationId) (s : GameObjects) : GameObjects :=
  ltac:(update_store touchedPlanetIds v s).
Definition set_arrivals (v : gmap VoyageId ArrivalWithTimer) (s : GameObjects) : GameObjects :=
  ltac:(update_store arrivals v s).
Definition set_planetArrivalIds (v : gmap LocationId (list VoyageId)) (s : GameObjects)
    : GameObjects := ltac:(update_store planetArrivalIds v s).
Definition set_planetLocationMap (v : gmap LocationId WorldLocation.t) (s : GameObjects)
    : GameObjects := ltac:(update_store planetLocationMap v s).
Definition set_revealedLocations (v : gmap LocationId RevealedLocation.t) (s : GameObjects)
    : GameObjects := ltac:(update_store revealedLocations v s).
Definition set_coordsToLocation (v : gmap CoordsString WorldLocation.t) (s : GameObjects)
    : GameObjects := ltac:(update_store coordsToLocation v s).
Definition set_published (v : list Event) (s : GameObjects) : GameObjects :=
  ltac:(update_store published v s).
Definition set_timers (v : gmap nat (LocationId * QueuedArrival.t)) (s : GameObjects)
    : GameObjects := ltac:(update_store timers v s).
Definition set_nextTimer (v : nat) (s : GameObjects) : GameObjects :=
  ltac:(update_store nextTimer v s).
Definition set_console (v : list string) (s : GameObjects) : GameObjects :=
  ltac:(update_store console v s).
Definition set_notifications (v : list Notification) (s : GameObjects) : GameObjects :=
  ltac:(update_store notifications v s).

(** *** Collaborators kept in other files *)

(** Modelled from the spec: [LayeredMap.insertPlanet] ([LayeredMap.ts] is
    not in this file).  The spatial index is told an entity's position
    and tier; a repeated insert for the same id updates the entry. *)
Definition insertPlanet (location : WorldLocation.t) (planetLevel : PlanetLevel)
    (s : GameObjects) : GameObjects :=
  set_layeredMap (<[WorldLocation.hash location := (location, planetLevel)]> (layeredMap s)) s.

(** Modelled from the spec: [setObjectSyncState] of
    [Frontend/Utils/EmitterUtils.ts], not in this file.  It updates the
    canonical map, then the owned-subset map by comparing the entity's
    owner with the local player (adding, updating or removing the
    entry), and says whether the owned subset changed; the caller
    publishes the id, and the owned map when it changed. *)
Definition setObjectSyncState {Obj : Type} (objectMap myObjectMap : gmap string Obj)
    (address : option EthAddress) (getId : Obj -> string) (getOwner : Obj -> EthAddress)
    (obj : Obj) : gmap string Obj * gmap string Obj * bool :=
  let objectMap := <[getId obj := obj]> objectMap in
  if bool_decide (address = Some (getOwner obj)) then
    (objectMap, <[getId obj := obj]> myObjectMap, true)
  else if bool_decide (is_Some (myObjectMap !! getId obj)) then
    (objectMap, delete (getId obj) myObjectMap, true)
  else (objectMap, myObjectMap, false).

Definition publish (e : Event) (s : GameObjects) : GameObjects :=
  set_published (published s ++ [e]) s.
Definition console_error (msg : string) (s : GameObjects) : GameObjects :=
  set_console (console s ++ [msg]) s.
Definition notify (n : Notification) (s : GameObjects) : GameObjects :=
  set_notifications (notifications s ++ [n]) s.

(** [setTimeout] and [clearTimeout] on the timer table.  A handle that is
    not in the table does not fire. *)
Definition setTimeout (callback : LocationId * QueuedArrival.t) (s : GameObjects)
    : nat * GameObjects :=
  (nextTimer s, set_nextTimer (S (nextTimer s)) (set_timers (<[nextTimer s := callback]> (timers s)) s)).
Definition clearTimeout (handle : nat) (s : GameObjects) : GameObjects :=
  set_timers (delete handle (timers s)) s.

(** [isLocatable] of [GlobalTypes]: the planet carries a location. *)
Definition isLocatable (planet : Planet) : bool :=
  match location planet with Some _ => true | None => false end.

(** Modelled from the spec: the accessors [getPlanetId], [getPlanetOwner],
    [getArtifactId] and [getArtifactOwner] of [EmitterUtils.ts] (not in
    this file) are the entity's identifier and owner. *)
Definition getPlanetId (p : Planet) : LocationId := locationId p.
Definition getPlanetOwner (p : Planet) : EthAddress := owner p.
Definition getArtifactId (a : Artifact.t) : ArtifactId := Artifact.id a.
Definition getArtifactOwner (a : Artifact.t) : EthAddress := Artifact.currentOwner a.

(** Sequencing of calls that may throw. *)
Definition Result_bind {A B : Type} (r : Result A) (k : A -> Result B) : Result B :=
  match r with
  | Ok a => k a
  | Throw msg => Throw msg
  end.
Notation "'try!' x := e 'in' k" := (Result_bind e (fun x => k))
  (at level 10, x pattern, e at level 100, k at level 200).

(** *** Methods of [GameObjects] *)

Section Store.
Context {ext : Externals}.

Definition getPlanetArtifacts (planetId : LocationId) (s : GameObjects) : list Artifact.t :=
  omap (fun id => artifacts s !! id)
    (match planets s !! planetId with
     | Some planet => heldArtifactIds planet
     | None => []
     end).

(** An assignment to a field of the planet object filed under [key]:
    the object is the same in [planets] and in [myPlanets]. *)
Definition mutatePlanet (key : LocationId) (f : Planet -> Planet) (s : GameObjects)
    : GameObjects :=
  set_myPlanets (alter f key (myPlanets s)) (set_planets (alter f key (planets s)) s).

Definition setPlanet (planet : Planet) (s : GameObjects) : GameObjects :=
  let s :=
    match location planet with
    | Some loc => insertPlanet loc (planetLevel planet) s
    | None => s
    end in
  let '(objectMap, myObjectMap, myObjListChanged) :=
    setObjectSyncState (planets s) (myPlanets s) (address s)
      getPlanetId getPlanetOwner planet in
  let s := set_myPlanets myObjectMap (set_planets objectMap s) in
  let s := publish (PlanetUpdated (getPlanetId planet)) s in
  if myObjListChanged then publish MyPlanetsUpdated s else s.

Definition setArtifact (artifact : Artifact.t) (s : GameObjects) : GameObjects :=
  let s :=
    match ArtifactType.eqb (Artifact.artifactType artifact) ArtifactType.Wormhole,
          truthy (Artifact.onPlanetId artifact) with
    | true, Some onPlanetId =>
        match truthy (Artifact.wormholeTo artifact) with
        | Some wormholeTo =>
            if isActivated artifact then
              set_wormholes
                (<[Artifact.id artifact := {| from := onPlanetId; to := wormholeTo |}]>
                   (wormholes s)) s
            else set_wormholes (delete (Artifact.id artifact) (wormholes s)) s
        | None => set_wormholes (delete (Artifact.id artifact) (wormholes s)) s
        end
    | _, _ => s
    end in
  let '(objectMap, myObjectMap, myObjListChanged) :=
    setObjectSyncState (artifacts s) (myArtifacts s) (address s)
      getArtifactId getArtifactOwner artifact in
  let s := set_myArtifacts myObjectMap (set_artifacts objectMap s) in
  let s := publish (ArtifactUpdated (getArtifactId artifact)) s in
  if myObjListChanged then publish MyArtifactsUpdated s else s.

(** [upgradeState.reduce((a, b) => a + b)]: throws on an empty array. *)
Definition sumUpgradeState (planet : Planet) : Result Q :=
  match upgradeState planet with
  | [] => Throw "Reduce of empty array with no initial value"
  | a :: rest => Ok (fold_left Qplus rest a)
  end.

Definition getSilverNeeded (planet : Planet) : Result Q :=
  try! totalLevel := sumUpgradeState planet in
  Ok ((totalLevel + 1) * 0.2 * silverCap planet).

Definition planetCanUpgrade (planet : Planet) : Result bool :=
  try! totalRank := sumUpgradeState planet in
  if Nat.eqb (spaceType planet) NEBULA && (totalRank >=? 3) then Ok false
  else if Nat.eqb (spaceType planet) SPACE && (totalRank >=? 4) then Ok false
  else if Nat.eqb (spaceType planet) DEEP_SPACE && (totalRank >=? 5) then Ok false
  else if Nat.eqb (spaceType planet) DEAD_SPACE && (totalRank >=? 5) then Ok false
  else if negb (Nat.eqb (planetLevel planet) 0) && Nat.eqb (planetType planet) PLANET then
    try! needed := getSilverNeeded planet in
    Ok (silver planet >=? needed)
  else Ok false.

(** Emit notifications based on a planet's state change *)
Definition emitArrivalNotifications (diff : PlanetDiff) (s : GameObjects)
    : Result GameObjects :=
  let previous := previous diff in
  let current := current diff in
  let arrival := arrival diff in
  let isMe (a : EthAddress) : bool := bool_decide (address s = Some a) in
  try! previousCan := planetCanUpgrade previous in
  try! currentCan := (if previousCan then Ok false else planetCanUpgrade current) in
  let s :=
    if negb previousCan && currentCan && isMe (owner current)
    then notify (NotifPlanetCanUpgrade (locationId current)) s
    else s in
  let s :=
    if negb (isMe (owner previous)) && negb (String.eqb (owner previous) EMPTY_ADDRESS)
       && isMe (owner current)
    then
      if negb (destroyed previous) && destroyed current
      then notify (NotifPlanetDestroyed (locationId current)) s
      else notify (NotifPlanetConquered (locationId current)) s
    else s in
  let s :=
    if isMe (owner previous) && negb (isMe (owner current))
    then notify (NotifPlanetLost (locationId current)) s
    else s in
  let s :=
    if negb (isMe (QueuedArrival.player arrival)) && isMe (owner current)
    then notify (NotifPlanetAttacked (locationId current)) s
    else s in
  Ok s.

(** [upgradeCosts[0] + ... ] over [i < totalUpgrades].  Beyond the five
    entries of the table the source adds [undefined]; the model adds
    nothing there. *)
Definition sumUpgradeCosts (totalUpgrades : Q) : Q :=
  let upgradeCosts := [20; 40; 60; 80; 100] in
  fold_left Qplus (firstn (Z.to_nat (Qceiling totalUpgrades)) upgradeCosts) 0.

Definition calculateSilverSpent (planet : Planet) : Q :=
  let totalUpgrades := fold_left Qplus (upgradeState planet) 0 in
  let totalUpgradeCostPercent := sumUpgradeCosts totalUpgrades in
  (totalUpgradeCostPercent / 100) * silverCap planet.

Definition updateScore (planetId : LocationId) (s : GameObjects) : GameObjects :=
  match planets s !! planetId with
  | None => s
  | Some planet => mutatePlanet planetId (set_silverSpent (calculateSilverSpent planet)) s
  end.

(** [updatePlanetIfStale] on the planet object filed under [key];
    [nowMillis] is [Date.now()]. *)
Definition updatePlanetIfStale (nowMillis : Q) (key : LocationId) (planet : Planet)
    (s : GameObjects) : Planet * GameObjects :=
  if nowMillis / 1000 - lastUpdated planet >? 1 then
    let planet' :=
      updatePlanetToTime planet (getPlanetArtifacts (locationId planet) s) nowMillis
        (contractConstants s) in
    let s := mutatePlanet key (fun _ => planet') s in
    let s := if updatePlanetToTime_commits planet nowMillis then setPlanet planet' s else s in
    (planet', s)
  else (planet, s).

Definition getLocationOfPlanet (planetId : LocationId) (s : GameObjects)
    : option WorldLocation.t := planetLocationMap s !! planetId.

(** - returns an empty planet if planet is not in contract
    - if this planet hasn't been initialized in the client yet, initializes it *)
Definition getPlanetWithLocation (nowMillis : Q) (location : WorldLocation.t)
    (s : GameObjects) : Result (Planet * GameObjects) :=
  match planets s !! WorldLocation.hash location with
  | Some planet => Ok (updatePlanetIfStale nowMillis (WorldLocation.hash location) planet s)
  | None =>
      (* return a default unowned planet *)
      try! defaultPlanet :=
        defaultPlanetFromLocation (contractConstants s) (touchedPlanetIds s) nowMillis
          location in
      Ok (defaultPlanet, setPlanet defaultPlanet s)
  end.

(** get planet by ID - must be in contract or known chunks *)
Definition getPlanetWithId (nowMillis : Q) (planetId : LocationId) (updateIfStale : bool)
    (s : GameObjects) : Result (option Planet * GameObjects) :=
  match planets s !! planetId with
  | Some planet =>
      if updateIfStale then
        let '(planet, s) := updatePlanetIfStale nowMillis planetId planet s in
        Ok (Some planet, s)
      else Ok (Some planet, s)
  | None =>
      match getLocationOfPlanet planetId s with
      | None => Ok (None, s)
      | Some loc =>
          try! (planet, s) := getPlanetWithLocation nowMillis loc s in
          Ok (Some planet, s)
      end
  end.

(** marks that a location is revealed on-chain *)
Definition markLocationRevealed (revealedLocation : RevealedLocation.t) (s : GameObjects)
    : GameObjects :=
  set_revealedLocations
    (<[WorldLocation.hash (RevealedLocation.location revealedLocation) := revealedLocation]>
       (revealedLocations s)) s.

Definition addPlanetLocation (nowMillis : Q) (planetLocation : WorldLocation.t)
    (s : GameObjects) : Result GameObjects :=
  let hash := WorldLocation.hash planetLocation in
  try! (known, s) := getPlanetWithId nowMillis hash false s in
  let level :=
    match known with
    | Some planet =>
        if Nat.eqb (planetLevel planet) 0
        then planetLevelFromHexPerlin (contractConstants s) hash
               (WorldLocation.perlin planetLocation)
        else planetLevel planet
    | None =>
        planetLevelFromHexPerlin (contractConstants s) hash
          (WorldLocation.perlin planetLocation)
    end in
  let s := insertPlanet planetLocation level s in
  let s := set_planetLocationMap (<[hash := planetLocation]> (planetLocationMap s)) s in
  let str := getCoordsString (WorldLocation.coords planetLocation) in
  let s :=
    match coordsToLocation s !! str with
    | Some _ => s
    | None => set_coordsToLocation (<[str := planetLocation]> (coordsToLocation s)) s
    end in
  try! s :=
    match planets s !! hash with
    | Some _ => Ok s
    | None =>
        try! defaultPlanet :=
          defaultPlanetFromLocation (contractConstants s) (touchedPlanetIds s) nowMillis
            planetLocation in
        Ok (setPlanet defaultPlanet s)
    end in
  Ok (mutatePlanet hash
        (fun planet =>
           set_biome (Some (getBiome (contractConstants s) planetLocation))
             (set_location (Some planetLocation) planet)) s).

(** [arrivals.sort((a, b) => a.arrivalTime - b.arrivalTime)]: a stable
    sort by arrival time. *)
Fixpoint insertArrival (a : QueuedArrival.t) (l : list QueuedArrival.t)
    : list QueuedArrival.t :=
  match l with
  | [] => [a]
  | b :: l' =>
      if Qle_bool (QueuedArrival.arrivalTime a) (QueuedArrival.arrivalTime b)
      then a :: b :: l'
      else b :: insertArrival a l'
  end.
Definition sortByArrivalTime (l : list QueuedArrival.t) : list QueuedArrival.t :=
  fold_right insertArrival [] l.

(** One turn of the loop of [processArrivalsForPlanet]; [planet] is the
    object filed under [planetId], read again because [arrive] mutates
    it in place.  The line written to the console ends with the text of
    the exception, its name and its message: [arrive] throws an [Error],
    and [emitArrivalNotifications] fails with the [TypeError] of
    [reduce] on an empty [upgradeState]. *)
Definition processArrival (planetId : LocationId) (nowInSeconds : Q)
    (acc : list ArrivalWithTimer * GameObjects) (arrival : QueuedArrival.t)
    : list ArrivalWithTimer * GameObjects :=
  let '(arrivalsWithTimers, s) := acc in
  match planets s !! planetId with
  | None => acc
  | Some planet =>
      if nowInSeconds - QueuedArrival.arrivalTime arrival >? 0 then
        (* if arrival happened in the past, run this arrival *)
        match arrive planet (getPlanetArtifacts (locationId planet) s) arrival
                (contractConstants s) with
        | Throw e =>
            (arrivalsWithTimers,
             console_error
               ("error occurred processing arrival for updated planet " ++ planetId
                ++ ": Error: " ++ e) s)
        | Ok diff =>
            let s := mutatePlanet planetId (fun _ => current diff) s in
            match emitArrivalNotifications diff s with
            | Ok s => (arrivalsWithTimers, s)
            | Throw e =>
                (arrivalsWithTimers,
                 console_error
                   ("error occurred processing arrival for updated planet " ++ planetId
                    ++ ": TypeError: " ++ e) s)
            end
        end
      else
        (* otherwise, set a timer to do this arrival in the future
           and append it to arrivalsWithTimers *)
        let '(applyFutureArrival, s) := setTimeout (planetId, arrival) s in
        let arrivalWithTimer := {| arrivalData := arrival; timer := applyFutureArrival |} in
        (arrivalsWithTimers ++ [arrivalWithTimer], s)
  end.

Definition processArrivalsForPlanet (nowMillis : Q) (planetId : LocationId)
    (arrivals : list QueuedArrival.t) (s : GameObjects)
    : list ArrivalWithTimer * GameObjects :=
  match planets s !! planetId with
  | None =>
      ([], console_error ("attempted to process arrivals for planet not in memory: " ++ planetId) s)
  | Some _ =>
      (* sort arrivals by timestamp *)
      let arrivals := sortByArrivalTime arrivals in
      let nowInSeconds := nowMillis / 1000 in
      let '(arrivalsWithTimers, s) :=
        fold_left (processArrival planetId nowInSeconds) arrivals ([], s) in
      (arrivalsWithTimers, updateScore planetId s)
  end.

(** One turn of the loop of [clearOldArrivals]. *)
Definition clearOldArrival (s : GameObjects) (arrivalId : VoyageId) : GameObjects :=
  let s :=
    match arrivals s !! arrivalId with
    | Some arrivalWithTimer => clearTimeout (timer arrivalWithTimer) s
    | None => console_error ("arrival with id " ++ arrivalId ++ " wasn't found") s
    end in
  set_arrivals (delete arrivalId (arrivals s)) s.

Definition clearOldArrivals (planet : Planet) (s : GameObjects) : GameObjects :=
  let planetId := locationId planet in
  (* clear old timeouts *)
  let s :=
    match planetArrivalIds s !! planetId with
    | Some arrivalIds =>
        (* clear if the planet already had stored arrivals *)
        fold_left clearOldArrival arrivalIds s
    | None => s
    end in
  set_planetArrivalIds (<[planetId := []]> (planetArrivalIds s)) s.

(** One turn of the loop of [replacePlanetFromContractData] that files the
    new arrivals. *)
Definition installArrival (planetId : LocationId) (s : GameObjects) (awt : ArrivalWithTimer)
    : GameObjects :=
  let arrivalId := QueuedArrival.eventId (arrivalData awt) in
  let s := set_arrivals (<[arrivalId := awt]> (arrivals s)) s in
  match planetArrivalIds s !! planetId with
  | Some arrivalIds =>
      set_planetArrivalIds (<[planetId := arrivalIds ++ [arrivalId]]> (planetArrivalIds s)) s
  | None => s
  end.

(** The assignments of [replacePlanetFromContractData] that carry the
    local planet's state over to the incoming planet object. *)
Definition copyLocalState (localPlanet planet : Planet) : Planet :=
  let planet := set_unconfirmedReveal (unconfirmedReveal localPlanet) planet in
  let planet := set_unconfirmedDepartures (unconfirmedDepartures localPlanet) planet in
  let planet := set_unconfirmedUpgrades (unconfirmedUpgrades localPlanet) planet in
  let planet := set_unconfirmedBuyHats (unconfirmedBuyHats localPlanet) planet in
  let planet :=
    set_unconfirmedPlanetTransfers (unconfirmedPlanetTransfers localPlanet) planet in
  let planet := set_unconfirmedFindArtifact (unconfirmedFindArtifact localPlanet) planet in
  let planet :=
    set_unconfirmedDepositArtifact (unconfirmedDepositArtifact localPlanet) planet in
  let planet :=
    set_unconfirmedWithdrawArtifact (unconfirmedWithdrawArtifact localPlanet) planet in
  let planet :=
    set_unconfirmedActivateArtifact (unconfirmedActivateArtifact localPlanet) planet in
  let planet :=
    set_unconfirmedDeactivateArtifact (unconfirmedDeactivateArtifact localPlanet) planet in
  let planet := set_unconfirmedWithdrawSilver (unconfirmedWithdrawSilver localPlanet) planet in
  let planet := set_unconfirmedProspectPlanet (unconfirmedProspectPlanet localPlanet) planet in
  let planet := set_loadingServerState (loadingServerState localPlanet) planet in
  let planet := set_needsServerRefresh (needsServerRefresh localPlanet) planet in
  let planet := set_lastLoadedServerState (lastLoadedServerState localPlanet) planet in
  let planet := set_emojiBobAnimation (emojiBobAnimation localPlanet) planet in
  let planet := set_emojiZoopAnimation (emojiZoopAnimation localPlanet) planet in
  let planet := set_emojiZoopOutAnimation (emojiZoopOutAnimation localPlanet) planet in
  let planet := set_messages (messages localPlanet) planet in
  (* Possibly non updated props *)
  set_heldArtifactIds (heldArtifactIds localPlanet) planet.

(** The planet object [replacePlanetFromContractData] hands to
    [setPlanet], once the store has taken note of a revealed location
    (so [localPlanet] and the known location are those of the store at
    entry). *)
Definition mergeWithLocal (s : GameObjects) (planet : Planet)
    (updatedArtifactsOnPlanet : option (list ArtifactId))
    (revealedLocation : option RevealedLocation.t) (claimerEthAddress : option EthAddress)
    : Planet :=
  (* does not modify unconfirmed txs; that is handled by onTxConfirm *)
  let planet :=
    match planets s !! locationId planet with
    | Some localPlanet => copyLocalState localPlanet planet
    | None => planet
    end in
  let planet :=
    match updatedArtifactsOnPlanet with
    | Some ids => set_heldArtifactIds ids planet
    | None => planet
    end in
  (* make planet Locatable if we know its location *)
  let loc :=
    match planetLocationMap s !! locationId planet with
    | Some l => Some l
    | None => RevealedLocation.location <$> revealedLocation
    end in
  let planet :=
    match loc with
    | Some loc =>
        set_biome (Some (getBiome (contractConstants s) loc)) (set_location (Some loc) planet)
    | None => planet
    end in
  let planet :=
    match revealedLocation with
    | Some revealedLocation =>
        set_revealer (Some (RevealedLocation.revealer revealedLocation))
          (set_coordsRevealed true planet)
    | None => planet
    end in
  match truthy claimerEthAddress with
  | Some claimerEthAddress => set_claimer (Some claimerEthAddress) planet
  | None => planet
  end.

(** received some planet data from the contract. update our stores *)
Definition replacePlanetFromContractData (nowMillis : Q) (planet : Planet)
    (updatedArrivals : option (list QueuedArrival.t))
    (updatedArtifactsOnPlanet : option (list ArtifactId))
    (revealedLocation : option RevealedLocation.t) (claimerEthAddress : option EthAddress)
    (s : GameObjects) : Result GameObjects :=
  let s := set_touchedPlanetIds ({[locationId planet]} ∪ touchedPlanetIds s) s in
  let planet :=
    mergeWithLocal s planet updatedArtifactsOnPlanet revealedLocation claimerEthAddress in
  try! s :=
    match revealedLocation with
    | Some revealedLocation =>
        let s := markLocationRevealed revealedLocation s in
        addPlanetLocation nowMillis (RevealedLocation.location revealedLocation) s
    | None => Ok s
    end in
  let s := setPlanet planet s in
  let s :=
    match updatedArrivals with
    | Some updatedArrivals =>
        (* apply arrivals *)
        let s := clearOldArrivals planet s in
        let '(updatedAwts, s) :=
          processArrivalsForPlanet nowMillis (locationId planet) updatedArrivals s in
        fold_left (installArrival (locationId planet)) updatedAwts s
    | None => s
    end in
  Ok (updateScore (locationId planet) s).

End Store.

(** ** The rest of ArrivalUtils *)

(** [x <= y] on numbers. *)
Definition Qleb (x y : Q) : bool := Qle_bool x y.
Infix "<=?" := Qleb (at level 70, no associativity) : Q_scope.

Definition Math_max (x y : Q) : Q := Qmax x y.

(** [n || 0] on an optional number: [undefined] and [0] both give [0]. *)
Definition orZero (n : option Q) : Q :=
  match n with
  | Some n => if n === 0 then 0 else n
  | None => 0
  end.

Definition blocksLeftToProspectExpiration (currentBlockNumber : Q)
    (prospectedBlockNumber : option Q) : Q :=
  orZero prospectedBlockNumber + 255 - currentBlockNumber.

Definition prospectExpired (currentBlockNumber prospectedBlockNumber : Q) : bool :=
  blocksLeftToProspectExpiration currentBlockNumber (Some prospectedBlockNumber) <=? 0.

Definition isFindable (planet : Planet) (currentBlockNumber : option Q) : bool :=
  match currentBlockNumber with
  | None => false
  | Some currentBlockNumber =>
      Nat.eqb (planetType planet) RUINS
      && match prospectedBlockNumber planet with
         | None => false
         | Some prospected =>
             negb (hasTriedFindingArtifact planet)
             && negb (prospectExpired currentBlockNumber prospected)
         end
  end.

Definition isProspectable (planet : Planet) : bool :=
  Nat.eqb (planetType planet) RUINS
  && match prospectedBlockNumber planet with
     | None => true
     | Some _ => false
     end.

Definition enoughEnergyToProspect (p : Planet) : bool :=
  energy p / energyCap p >? 0.955.

(** The platform's base-2 logarithm, which [getRange] calls and the file
    does not define. *)
Class Logarithms : Type := {
  Math_log2 : Q -> Q
}.

Section Curves.
Context {logs : Logarithms}.

(** [percentEnergySending] defaults to [100] when the caller leaves it
    out. *)
Definition getRange (planet : Planet) (percentEnergySending : option Q) : Q :=
  let percentEnergySending := default 100 percentEnergySending in
  if percentEnergySending === 0 then 0
  else Math_max (Math_log2 (percentEnergySending / 5)) 0 * range planet.

End Curves.

(** ** The rest of the store's methods *)

(** Assignment to one of the pending slots of an artifact. *)
Definition artifact_eta (a : Artifact.t) : Artifact.t :=
  Artifact.Build_t (Artifact.id a) (Artifact.artifactType a) (Artifact.currentOwner a)
    (Artifact.onPlanetId a) (Artifact.onVoyageId a) (Artifact.wormholeTo a)
    (Artifact.lastActivated a) (Artifact.lastDeactivated a) (Artifact.timeDelayedUpgrade a)
    (Artifact.unconfirmedDepositArtifact a) (Artifact.unconfirmedWithdrawArtifact a)
    (Artifact.unconfirmedActivateArtifact a) (Artifact.unconfirmedDeactivateArtifact a)
    (Artifact.unconfirmedMove a).

Ltac update_artifact proj v a :=
  let e := eval cbv delta [artifact_eta] beta in (artifact_eta a) in
  let e' := eval pattern (proj a) in e in
  lazymatch e' with
  | ?f _ => let r := eval cbv beta in (f v) in exact r
  end.

Definition Artifact_set_unconfirmedDepositArtifact (v : option TxIntent) (a : Artifact.t)
    : Artifact.t := ltac:(update_artifact Artifact.unconfirmedDepositArtifact v a).
Definition Artifact_set_unconfirmedWithdrawArtifact (v : option TxIntent) (a : Artifact.t)
    : Artifact.t := ltac:(update_artifact Artifact.unconfirmedWithdrawArtifact v a).
Definition Artifact_set_unconfirmedActivateArtifact (v : option TxIntent) (a : Artifact.t)
    : Artifact.t := ltac:(update_artifact Artifact.unconfirmedActivateArtifact v a).
Definition Artifact_set_unconfirmedDeactivateArtifact (v : option TxIntent) (a : Artifact.t)
    : Artifact.t := ltac:(update_artifact Artifact.unconfirmedDeactivateArtifact v a).
Definition Artifact_set_unconfirmedMove (v : option TxIntent) (a : Artifact.t)
    : Artifact.t := ltac:(update_artifact Artifact.unconfirmedMove v a).

(** The values of a [Map], for the methods that enumerate one.  A
    JavaScript [Map] enumerates its entries in the order they were
    inserted, which a finite map does not record: here they come in the
    order of their keys, and what is stated about an enumeration is about
    its members. *)
Definition Map_values {V : Type} (m : gmap string V) : list V := (map_to_list m).*2.

Section StoreQueries.
Context {ext : Externals}.

Definition getArtifactById (artifactId : ArtifactId) (s : GameObjects) : option Artifact.t :=
  artifacts s !! artifactId.

Definition getArtifactsOwnedBy (addr : EthAddress) (s : GameObjects) : list Artifact.t :=
  List.filter (fun artifact => String.eqb (Artifact.currentOwner artifact) addr)
    (Map_values (artifacts s)).

(** returns undefined if this planet is neither in contract nor in known chunks
    fast query that doesn't update planet if stale *)
Definition getPlanetLevel (planetId : LocationId) (s : GameObjects) : option PlanetLevel :=
  match planets s !! planetId with
  | Some planet => Some (planetLevel planet)
  | None => None
  end.

Definition getPlanetDetailLevel (planetId : LocationId) (s : GameObjects) : option nat :=
  match planets s !! planetId with
  | Some planet =>
      let detailLevel := planetLevel planet in
      let detailLevel := if hasOwner planet then (detailLevel + 1)%nat else detailLevel in
      Some detailLevel
  | None => None
  end.

(** received some artifact data from the contract. update our stores *)
Definition replaceArtifactFromContractData (artifact : Artifact.t) (s : GameObjects)
    : GameObjects :=
  let localArtifact := artifacts s !! Artifact.id artifact in
  (* does not modify unconfirmed txs; that is handled by onTxConfirm *)
  let artifact :=
    match localArtifact with
    | Some localArtifact =>
        let artifact :=
          Artifact_set_unconfirmedDepositArtifact
            (Artifact.unconfirmedDepositArtifact localArtifact) artifact in
        let artifact :=
          Artifact_set_unconfirmedWithdrawArtifact
            (Artifact.unconfirmedWithdrawArtifact localArtifact) artifact in
        let artifact :=
          Artifact_set_unconfirmedActivateArtifact
            (Artifact.unconfirmedActivateArtifact localArtifact) artifact in
        let artifact :=
          Artifact_set_unconfirmedDeactivateArtifact
            (Artifact.unconfirmedDeactivateArtifact localArtifact) artifact in
        Artifact_set_unconfirmedMove (Artifact.unconfirmedMove localArtifact) artifact
    | None => artifact
    end in
  setArtifact artifact s.

Definition replaceArtifactsFromContractData (artifacts : list Artifact.t) (s : GameObjects)
    : GameObjects :=
  fold_left (fun s artifact => replaceArtifactFromContractData artifact s) artifacts s.

(** The key under which [getPlanetWithId] finds the planet object it
    returns: the id itself, or the hash of the location known for it. *)
Definition keyOfPlanet (planetId : LocationId) (s : GameObjects) : LocationId :=
  match planets s !! planetId with
  | Some _ => planetId
  | None =>
      match getLocationOfPlanet planetId s with
      | Some loc => WorldLocation.hash loc
      | None => planetId
      end
  end.

(** Given a planet id, update the state of the given planet by calling the
    given update function.  The function mutates the planet object where
    it is filed, before [setPlanet] files it under its id. *)
Definition updatePlanet (nowMillis : Q) (id : LocationId) (updateFn : Planet -> Planet)
    (s : GameObjects) : Result GameObjects :=
  let key := keyOfPlanet id s in
  try! (planet, s) := getPlanetWithId nowMillis id true s in
  match planet with
  | Some planet =>
      let planet := updateFn planet in
      let s := mutatePlanet key (fun _ => planet) s in
      Ok (setPlanet planet s)
  | None => Ok s
  end.

(** returns an empty planet if planet is not in contract
    returns undefined if this isn't a planet, according to hash and coords *)
Definition getPlanetWithCoords (nowMillis : Q) (coords : WorldCoords) (s : GameObjects)
    : Result (option Planet * GameObjects) :=
  let str := getCoordsString coords in
  match coordsToLocation s !! str with
  | None => Ok (None, s)
  | Some location =>
      try! (planet, s) := getPlanetWithLocation nowMillis location s in
      Ok (Some planet, s)
  end.

Definition isPlanetInContract (planetId : LocationId) (s : GameObjects) : bool :=
  bool_decide (planetId ∈ touchedPlanetIds s).

Definition getAllOwnedPlanets (s : GameObjects) : list Planet :=
  List.filter hasOwner (Map_values (planets s)).

Definition getAllVoyages (s : GameObjects) : list QueuedArrival.t :=
  arrivalData <$> Map_values (arrivals s).

(** Gets all the planets with the given ids, filtering out the ones that
    we don't have. *)
Fixpoint getPlanetsWithIds (nowMillis : Q) (locationIds : list LocationId)
    (updateIfStale : bool) (s : GameObjects) : Result (list Planet * GameObjects) :=
  match locationIds with
  | [] => Ok ([], s)
  | id :: locationIds' =>
      try! (planet, s) := getPlanetWithId nowMillis id updateIfStale s in
      try! (planets, s) := getPlanetsWithIds nowMillis locationIds' updateIfStale s in
      Ok (match planet with
          | Some planet => planet :: planets
          | None => planets
          end, s)
  end.

(** Returns the EthAddress of the player who can control the owner:
    if the artifact is on a planet, this is the owner of the planet
    if the artifact is on a voyage, this is the initiator of the voyage
    if the artifact is not on either, then it is the owner of the artifact NFT *)
Definition getArtifactController (nowMillis : Q) (artifactId : ArtifactId) (s : GameObjects)
    : Result (option EthAddress * GameObjects) :=
  match getArtifactById artifactId s with
  | None => Ok (None, s)
  | Some artifact =>
      match truthy (Artifact.onPlanetId artifact) with
      | Some onPlanetId =>
          try! (planet, s) := getPlanetWithId nowMillis onPlanetId true s in
          match planet with
          | None => Ok (None, s)
          | Some planet =>
              Ok (if String.eqb (owner planet) EMPTY_ADDRESS then None
                  else Some (owner planet), s)
          end
      | None =>
          match truthy (Artifact.onVoyageId artifact) with
          | Some onVoyageId =>
              Ok (match arrivals s !! onVoyageId with
                  | Some arrival => truthy (Some (QueuedArrival.player (arrivalData arrival)))
                  | None => None
                  end, s)
          | None =>
              Ok (if String.eqb (Artifact.currentOwner artifact) EMPTY_ADDRESS then None
                  else Some (Artifact.currentOwner artifact), s)
          end
      end
  end.

(** The pass the constructor schedules every 120 seconds: every owned
    planet is brought current in place; nothing is published, since
    [updatePlanetToTime] is called without a [setPlanet] callback. *)
Definition refreshOwnedPlanet (nowMillis : Q) (s : GameObjects) (planet : Planet) : Planet :=
  if hasOwner planet then
    updatePlanetToTime planet (getPlanetArtifacts (locationId planet) s) nowMillis
      (contractConstants s)
  else planet.

Definition refreshOwnedPlanets (nowMillis : Q) (s : GameObjects) : GameObjects :=
  set_myPlanets (refreshOwnedPlanet nowMillis s <$> myPlanets s)
    (set_planets (refreshOwnedPlanet nowMillis s <$> planets s) s).

End StoreQueries.
(** ** The optimistic overlay *)

(** Modelled from the spec: the type tests of
    [Backend/Utils/TypeAssertions.ts] ([isUnconfirmedReveal],
    [isUnconfirmedMove], ...), which are not in this file, route an
    intent to the logic of its kind.  An intent is a tagged union over
    the kinds, each with the fields the store reads; a test is a match on
    the tag. *)
Module Intent.
Inductive t : Type :=
| UnconfirmedReveal (actionId : string) (locationId : LocationId)
| UnconfirmedMove (actionId : string) (from : LocationId) (artifact : option ArtifactId)
| UnconfirmedUpgrade (actionId : string) (locationId : LocationId)
| UnconfirmedBuyHat (actionId : string) (locationId : LocationId)
| UnconfirmedPlanetTransfer (actionId : string) (planetId : LocationId)
| UnconfirmedProspectPlanet (actionId : string) (planetId : LocationId)
| UnconfirmedFindArtifact (actionId : string) (planetId : LocationId)
| UnconfirmedDepositArtifact (actionId : string) (locationId : LocationId)
    (artifactId : ArtifactId)
| UnconfirmedWithdrawArtifact (actionId : string) (locationId : LocationId)
    (artifactId : ArtifactId)
| UnconfirmedActivateArtifact (actionId : string) (locationId : LocationId)
    (artifactId : ArtifactId) (wormholeTo : option LocationId)
| UnconfirmedDeactivateArtifact (actionId : string) (locationId : LocationId)
    (artifactId : ArtifactId)
| UnconfirmedWithdrawSilver (actionId : string) (locationId : LocationId)
| Other (actionId : string).

Definition actionId (tx : t) : string :=
  match tx with
  | UnconfirmedReveal a _ | UnconfirmedMove a _ _ | UnconfirmedUpgrade a _
  | UnconfirmedBuyHat a _ | UnconfirmedPlanetTransfer a _ | UnconfirmedProspectPlanet a _
  | UnconfirmedFindArtifact a _ | UnconfirmedDepositArtifact a _ _
  | UnconfirmedWithdrawArtifact a _ _ | UnconfirmedActivateArtifact a _ _ _
  | UnconfirmedDeactivateArtifact a _ _ | UnconfirmedWithdrawSilver a _ | Other a => a
  end.
End Intent.

(** The intent as a planet or an artifact keeps it in a pending slot. *)
Definition toTxIntent (tx : Intent.t) : TxIntent := {| actionId := Intent.actionId tx |}.

(** The store with the fields of [GameObjects] that only the overlay
    uses, and the calls on the notification manager's [txInit]. *)
Module Overlay.
Record t : Type := mk {
  objects : GameObjects;
  unconfirmedReveal : option Intent.t;
  unconfirmedMoves : gmap string Intent.t;
  unconfirmedUpgrades : gmap string Intent.t;
  unconfirmedBuyHats : gmap string Intent.t;
  unconfirmedPlanetTransfers : gmap string Intent.t;
  unconfirmedWormholeActivations : list Intent.t;
  txInits : list Intent.t
}.

Definition set_objects (v : GameObjects) (o : t) : t :=
  mk v (unconfirmedReveal o) (unconfirmedMoves o) (unconfirmedUpgrades o)
    (unconfirmedBuyHats o) (unconfirmedPlanetTransfers o) (unconfirmedWormholeActivations o)
    (txInits o).
Definition set_unconfirmedReveal (v : option Intent.t) (o : t) : t :=
  mk (objects o) v (unconfirmedMoves o) (unconfirmedUpgrades o)
    (unconfirmedBuyHats o) (unconfirmedPlanetTransfers o) (unconfirmedWormholeActivations o)
    (txInits o).
Definition set_unconfirmedMoves (v : gmap string Intent.t) (o : t) : t :=
  mk (objects o) (unconfirmedReveal o) v (unconfirmedUpgrades o)
    (unconfirmedBuyHats o) (unconfirmedPlanetTransfers o) (unconfirmedWormholeActivations o)
    (txInits o).
Definition set_unconfirmedUpgrades (v : gmap string Intent.t) (o : t) : t :=
  mk (objects o) (unconfirmedReveal o) (unconfirmedMoves o) v
    (unconfirmedBuyHats o) (unconfirmedPlanetTransfers o) (unconfirmedWormholeActivations o)
    (txInits o).
Definition set_unconfirmedBuyHats (v : gmap string Intent.t) (o : t) : t :=
  mk (objects o) (unconfirmedReveal o) (unconfirmedMoves o) (unconfirmedUpgrades o)
    v (unconfirmedPlanetTransfers o) (unconfirmedWormholeActivations o) (txInits o).
Definition set_unconfirmedPlanetTransfers (v : gmap string Intent.t) (o : t) : t :=
  mk (objects o) (unconfirmedReveal o) (unconfirmedMoves o) (unconfirmedUpgrades o)
    (unconfirmedBuyHats o) v (unconfirmedWormholeActivations o) (txInits o).
Definition set_unconfirmedWormholeActivations (v : list Intent.t) (o : t) : t :=
  mk (objects o) (unconfirmedReveal o) (unconfirmedMoves o) (unconfirmedUpgrades o)
    (unconfirmedBuyHats o) (unconfirmedPlanetTransfers o) v (txInits o).
Definition set_txInits (v : list Intent.t) (o : t) : t :=
  mk (objects o) (unconfirmedReveal o) (unconfirmedMoves o) (unconfirmedUpgrades o)
    (unconfirmedBuyHats o) (unconfirmedPlanetTransfers o) (unconfirmedWormholeActivations o)
    v.
End Overlay.

(** The action id of a pending entry. *)
Definition pendingActionId (entry : TxIntent) : string := actionId entry.

(** The loop [for (i = 0; i < entries.length; i += 1) if
    (entries[i].actionId === actionId) { removeIdx = i; break; }], entered
    at index [i]. *)
Fixpoint findActionIdx {A : Type} (getActionId : A -> string) (actionId : string)
    (entries : list A) (i : nat) : option nat :=
  match entries with
  | [] => None
  | entry :: entries' =>
      if String.eqb (getActionId entry) actionId then Some i
      else findActionIdx getActionId actionId entries' (S i)
  end.

(** [if (removeIdx > -1) entries.splice(removeIdx, 1)] after that loop. *)
Definition spliceByActionId {A : Type} (getActionId : A -> string) (actionId : string)
    (entries : list A) : list A :=
  match findActionIdx getActionId actionId entries 0 with
  | Some removeIdx => take removeIdx entries ++ drop (S removeIdx) entries
  | None => entries
  end.

Section OverlayMethods.
Context {ext : Externals}.

(** An assignment to a field of the artifact object filed under [key]. *)
Definition mutateArtifact (key : ArtifactId) (f : Artifact.t -> Artifact.t) (s : GameObjects)
    : GameObjects :=
  set_myArtifacts (alter f key (myArtifacts s)) (set_artifacts (alter f key (artifacts s)) s).

(** [if (planet) { <assignment to planet>; this.setPlanet(planet); }] for
    the planet object found under [key]. *)
Definition assignPlanet (key : LocationId) (planet : option Planet)
    (assign : Planet -> Planet) (s : GameObjects) : GameObjects :=
  match planet with
  | Some planet =>
      let planet := assign planet in
      setPlanet planet (mutatePlanet key (fun _ => planet) s)
  | None => s
  end.

(** [if (artifact) { <assignment to artifact>; this.setArtifact(artifact); }]
    for the artifact object found under [key]. *)
Definition assignArtifact (key : ArtifactId) (artifact : option Artifact.t)
    (assign : Artifact.t -> Artifact.t) (s : GameObjects) : GameObjects :=
  match artifact with
  | Some artifact =>
      let artifact := assign artifact in
      setArtifact artifact (mutateArtifact key (fun _ => artifact) s)
  | None => s
  end.

(** The branches that touch one planet: [const planet =
    this.getPlanetWithId(id); if (planet) { ... }]. *)
Definition onPlanet (nowMillis : Q) (id : LocationId) (assign : Planet -> Planet)
    (s : GameObjects) : Result GameObjects :=
  let key := keyOfPlanet id s in
  try! (planet, s) := getPlanetWithId nowMillis id true s in
  Ok (assignPlanet key planet assign s).

(** The branches that touch a planet and an artifact: both are looked up
    before either is assigned to. *)
Definition onPlanetAndArtifact (nowMillis : Q) (id : LocationId) (artifactId : ArtifactId)
    (assign : Planet -> Planet) (assignA : Artifact.t -> Artifact.t) (s : GameObjects)
    : Result GameObjects :=
  let key := keyOfPlanet id s in
  try! (planet, s) := getPlanetWithId nowMillis id true s in
  let artifact := getArtifactById artifactId s in
  let s := assignPlanet key planet assign s in
  Ok (assignArtifact artifactId artifact assignA s).

(** [if (txIntent.artifact) { const artifact =
    this.getArtifactById(txIntent.artifact); if (artifact) { ... } }] *)
Definition onCarriedArtifact (artifact : option ArtifactId)
    (assignA : Artifact.t -> Artifact.t) (s : GameObjects) : GameObjects :=
  match truthy artifact with
  | Some artifactId => assignArtifact artifactId (getArtifactById artifactId s) assignA s
  | None => s
  end.

Definition onTxIntent (nowMillis : Q) (txIntent : Intent.t) (o : Overlay.t)
    : Result Overlay.t :=
  let o := Overlay.set_txInits (Overlay.txInits o ++ [txIntent]) o in
  let stored := toTxIntent txIntent in
  let s := Overlay.objects o in
  match txIntent with
  | Intent.UnconfirmedReveal _ locationId =>
      try! s := onPlanet nowMillis locationId (set_unconfirmedReveal (Some stored)) s in
      Ok (Overlay.set_unconfirmedReveal (Some txIntent) (Overlay.set_objects s o))
  | Intent.UnconfirmedMove actionId from artifact =>
      let o :=
        Overlay.set_unconfirmedMoves (<[actionId := txIntent]> (Overlay.unconfirmedMoves o))
          o in
      try! s :=
        onPlanet nowMillis from
          (fun planet =>
             set_unconfirmedDepartures (unconfirmedDepartures planet ++ [stored]) planet) s in
      let s := onCarriedArtifact artifact (Artifact_set_unconfirmedMove (Some stored)) s in
      Ok (Overlay.set_objects s o)
  | Intent.UnconfirmedUpgrade actionId locationId =>
      let o :=
        Overlay.set_unconfirmedUpgrades
          (<[actionId := txIntent]> (Overlay.unconfirmedUpgrades o)) o in
      try! s :=
        onPlanet nowMillis locationId
          (fun planet =>
             set_unconfirmedUpgrades (unconfirmedUpgrades planet ++ [stored]) planet) s in
      Ok (Overlay.set_objects s o)
  | Intent.UnconfirmedBuyHat actionId locationId =>
      let o :=
        Overlay.set_unconfirmedBuyHats
          (<[actionId := txIntent]> (Overlay.unconfirmedBuyHats o)) o in
      try! s :=
        onPlanet nowMillis locationId
          (fun planet =>
             set_unconfirmedBuyHats (unconfirmedBuyHats planet ++ [stored]) planet) s in
      Ok (Overlay.set_objects s o)
  | Intent.UnconfirmedPlanetTransfer actionId planetId =>
      let o :=
        Overlay.set_unconfirmedPlanetTransfers
          (<[actionId := txIntent]> (Overlay.unconfirmedPlanetTransfers o)) o in
      try! s :=
        onPlanet nowMillis planetId
          (fun planet =>
             set_unconfirmedPlanetTransfers (unconfirmedPlanetTransfers planet ++ [stored])
               planet) s in
      Ok (Overlay.set_objects s o)
  | Intent.UnconfirmedProspectPlanet _ planetId =>
      try! s := onPlanet nowMillis planetId (set_unconfirmedProspectPlanet (Some stored)) s in
      Ok (Overlay.set_objects s o)
  | Intent.UnconfirmedFindArtifact _ planetId =>
      try! s := onPlanet nowMillis planetId (set_unconfirmedFindArtifact (Some stored)) s in
      Ok (Overlay.set_objects s o)
  | Intent.UnconfirmedDepositArtifact _ locationId artifactId =>
      try! s :=
        onPlanetAndArtifact nowMillis locationId artifactId
          (set_unconfirmedDepositArtifact (Some stored))
          (Artifact_set_unconfirmedDepositArtifact (Some stored)) s in
      Ok (Overlay.set_objects s o)
  | Intent.UnconfirmedWithdrawArtifact _ locationId artifactId =>
      try! s :=
        onPlanetAndArtifact nowMillis locationId artifactId
          (set_unconfirmedWithdrawArtifact (Some stored))
          (Artifact_set_unconfirmedWithdrawArtifact (Some stored)) s in
      Ok (Overlay.set_objects s o)
  | Intent.UnconfirmedActivateArtifact _ locationId artifactId wormholeTo =>
      try! s :=
        onPlanetAndArtifact nowMillis locationId artifactId
          (set_unconfirmedActivateArtifact (Some stored))
          (Artifact_set_unconfirmedActivateArtifact (Some stored)) s in
      let o := Overlay.set_objects s o in
      match truthy wormholeTo with
      | Some _ =>
          Ok (Overlay.set_unconfirmedWormholeActivations
                (Overlay.unconfirmedWormholeActivations o ++ [txIntent]) o)
      | None => Ok o
      end
  | Intent.UnconfirmedDeactivateArtifact _ locationId artifactId =>
      try! s :=
        onPlanetAndArtifact nowMillis locationId artifactId
          (set_unconfirmedDeactivateArtifact (Some stored))
          (Artifact_set_unconfirmedDeactivateArtifact (Some stored)) s in
      Ok (Overlay.set_objects s o)
  | Intent.UnconfirmedWithdrawSilver _ locationId =>
      try! s := onPlanet nowMillis locationId (set_unconfirmedWithdrawSilver (Some stored)) s in
      Ok (Overlay.set_objects s o)
  | Intent.Other _ => Ok o
  end.

Definition clearUnconfirmedTxIntent (nowMillis : Q) (txIntent : Intent.t) (o : Overlay.t)
    : Result Overlay.t :=
  let s := Overlay.objects o in
  match txIntent with
  | Intent.UnconfirmedReveal actionId locationId =>
      try! s := onPlanet nowMillis locationId (set_unconfirmedReveal None) s in
      let o := Overlay.set_objects s o in
      if match Overlay.unconfirmedReveal o with
         | Some pending => String.eqb actionId (Intent.actionId pending)
         | None => false
         end
      then Ok (Overlay.set_unconfirmedReveal None o)
      else
        Ok (Overlay.set_objects
              (console_error
                 "unexpected error occurred: tried to clear an unconfirmed reveal that doesn't exist"
                 s) o)
  | Intent.UnconfirmedMove actionId from artifact =>
      try! s :=
        onPlanet nowMillis from
          (fun planet =>
             set_unconfirmedDepartures
               (spliceByActionId pendingActionId actionId (unconfirmedDepartures planet))
               planet) s in
      let s := onCarriedArtifact artifact (Artifact_set_unconfirmedMove None) s in
      Ok (Overlay.set_unconfirmedMoves (delete actionId (Overlay.unconfirmedMoves o))
            (Overlay.set_objects s o))
  | Intent.UnconfirmedUpgrade actionId locationId =>
      try! s :=
        onPlanet nowMillis locationId
          (fun planet =>
             set_unconfirmedUpgrades
               (spliceByActionId pendingActionId actionId (unconfirmedUpgrades planet))
               planet) s in
      Ok (Overlay.set_unconfirmedUpgrades (delete actionId (Overlay.unconfirmedUpgrades o))
            (Overlay.set_objects s o))
  | Intent.UnconfirmedBuyHat actionId locationId =>
      try! s :=
        onPlanet nowMillis locationId
          (fun planet =>
             set_unconfirmedBuyHats
               (spliceByActionId pendingActionId actionId (unconfirmedBuyHats planet))
               planet) s in
      Ok (Overlay.set_unconfirmedBuyHats (delete actionId (Overlay.unconfirmedBuyHats o))
            (Overlay.set_objects s o))
  | Intent.UnconfirmedFindArtifact _ planetId =>
      try! s := onPlanet nowMillis planetId (set_unconfirmedFindArtifact None) s in
      Ok (Overlay.set_objects s o)
  | Intent.UnconfirmedDepositArtifact _ locationId artifactId =>
      try! s :=
        onPlanetAndArtifact nowMillis locationId artifactId
          (set_unconfirmedDepositArtifact None)
          (Artifact_set_unconfirmedDepositArtifact None) s in
      Ok (Overlay.set_objects s o)
  | Intent.UnconfirmedWithdrawArtifact _ locationId artifactId =>
      try! s :=
        onPlanetAndArtifact nowMillis locationId artifactId
          (set_unconfirmedWithdrawArtifact None)
          (Artifact_set_unconfirmedWithdrawArtifact None) s in
      Ok (Overlay.set_objects s o)
  | Intent.UnconfirmedPlanetTransfer actionId planetId =>
      try! s :=
        onPlanet nowMillis planetId
          (fun planet =>
             set_unconfirmedPlanetTransfers
               (spliceByActionId pendingActionId actionId (unconfirmedPlanetTransfers planet))
               planet) s in
      Ok (Overlay.set_unconfirmedPlanetTransfers
            (delete actionId (Overlay.unconfirmedPlanetTransfers o))
            (Overlay.set_objects s o))
  | Intent.UnconfirmedProspectPlanet _ planetId =>
      try! s := onPlanet nowMillis planetId (set_unconfirmedProspectPlanet None) s in
      Ok (Overlay.set_objects s o)
  | Intent.UnconfirmedActivateArtifact actionId locationId artifactId _ =>
      try! s :=
        onPlanetAndArtifact nowMillis locationId artifactId
          (set_unconfirmedActivateArtifact None)
          (Artifact_set_unconfirmedActivateArtifact None) s in
      Ok (Overlay.set_unconfirmedWormholeActivations
            (spliceByActionId Intent.actionId actionId
               (Overlay.unconfirmedWormholeActivations o))
            (Overlay.set_objects s o))
  | Intent.UnconfirmedDeactivateArtifact _ locationId artifactId =>
      try! s :=
        onPlanetAndArtifact nowMillis locationId artifactId
          (set_unconfirmedDeactivateArtifact None)
          (Artifact_set_unconfirmedDeactivateArtifact None) s in
      Ok (Overlay.set_objects s o)
  | Intent.UnconfirmedWithdrawSilver _ locationId =>
      try! s := onPlanet nowMillis locationId (set_unconfirmedWithdrawSilver None) s in
      Ok (Overlay.set_objects s o)
  | Intent.Other _ => Ok o
  end.

Definition getUnconfirmedWormholeActivations (o : Overlay.t) : list Intent.t :=
  Overlay.unconfirmedWormholeActivations o.

Definition getUnconfirmedReveal (o : Overlay.t) : option Intent.t :=
  Overlay.unconfirmedReveal o.

End OverlayMethods.
(** ** Vocabulary of the statements *)

Section Vocabulary.
Context {ext : Externals}.

(** The two operations of the resource model on one territory. *)
Inductive Operation : Type :=
| BringCurrent (planetArtifacts : list Artifact.t) (atTimeMillis : Q)
| Arrive (artifactsOnPlanet : list Artifact.t) (arrival : QueuedArrival.t).

(** The planet object after one operation ([arrive] throws before it
    touches the planet). *)
Definition step (cc : ContractConstants) (planet : Planet) (op : Operation) : Planet :=
  match op with
  | BringCurrent planetArtifacts atTimeMillis =>
      updatePlanetToTime planet planetArtifacts atTimeMillis cc
  | Arrive artifactsOnPlanet arrival =>
      match arrive planet artifactsOnPlanet arrival cc with
      | Ok diff => current diff
      | Throw _ => planet
      end
  end.

(** The states the planet goes through, one per operation. *)
Fixpoint trace (cc : ContractConstants) (planet : Planet) (ops : list Operation)
    : list Planet :=
  match ops with
  | [] => []
  | op :: ops' => step cc planet op :: trace cc (step cc planet op) ops'
  end.

(** The planet after the extrapolation steps of [updatePlanetToTime]
    (silver, energy, time stamp), before the photoid check. *)
Definition extrapolated (planet : Planet) (atTimeMillis : Q) : Planet :=
  let planet :=
    set_silver (getSilverOverTime planet (lastUpdated planet * 1000) atTimeMillis) planet in
  let planet := set_energy (getEnergyAtTime planet atTimeMillis) planet in
  set_lastUpdated (atTimeMillis / 1000) planet.

(** The four steps of [arrive] on a planet that was brought current and
    is not destroyed, each as a function of the planet so far
    ([arrive_steps] below): energy, the silver bank clamp, silver, the
    carried artifact. *)
Definition applyEnergy (cc : ContractConstants) (arrival : QueuedArrival.t)
    (toPlanet : Planet) : Planet :=
  let energyArriving := QueuedArrival.energyArriving arrival in
  if negb (String.eqb (QueuedArrival.player arrival) (owner toPlanet)) then
    if energy toPlanet >? effectiveDamage energyArriving (defense toPlanet) then
      set_energy (energy toPlanet - effectiveDamage energyArriving (defense toPlanet)) toPlanet
    else
      let conquered :=
        if negb (String.eqb (owner toPlanet) EMPTY_ADDRESS) && (DESTROY_THRESHOLD cc >? 0)
        then
          if effectiveDamage energyArriving (defense toPlanet)
             >? energy toPlanet * DESTROY_THRESHOLD cc
          then set_destroyed true toPlanet
          else toPlanet
        else toPlanet in
      let conquered := set_owner (QueuedArrival.player arrival) conquered in
      set_energy
        (energyArriving
         - Math_floor ((energy conquered * CONTRACT_PRECISION * defense conquered) / 100)
           / CONTRACT_PRECISION)
        conquered
  else set_energy (energy toPlanet + energyArriving) toPlanet.

Definition clampSilverBank (toPlanet : Planet) : Planet :=
  if Nat.eqb (planetType toPlanet) SILVER_BANK && (energy toPlanet >? energyCap toPlanet)
  then set_energy (energyCap toPlanet) toPlanet
  else toPlanet.

Definition applySilver (arrival : QueuedArrival.t) (toPlanet : Planet) : Planet :=
  if silver toPlanet + QueuedArrival.silverMoved arrival >? silverCap toPlanet
  then set_silver (silverCap toPlanet) toPlanet
  else set_silver (silver toPlanet + QueuedArrival.silverMoved arrival) toPlanet.

Definition transferArtifact (arrival : QueuedArrival.t) (toPlanet : Planet) : Planet :=
  match truthy (QueuedArrival.artifactId arrival) with
  | Some artifactId => set_heldArtifactIds (heldArtifactIds toPlanet ++ [artifactId]) toPlanet
  | None => toPlanet
  end.


(** [Math.exp] maps the non-positive numbers into [0, 1]. *)
Definition exp_bounded : Prop := forall x : Q, x <= 0 -> 0 <= Math_exp x <= 1.

(** Statistics of a territory in play: a positive energy cap and
    defense, growth rates that are not negative. *)
Definition statsOk (p : Planet) : Prop :=
  0 < energyCap p /\ 0 <= energyGrowth p /\ 0 <= silverGrowth p /\ 0 < defense p.

(** A delayed upgrade keeps such statistics. *)
Definition upgradeOk (a : Artifact.t) : Prop :=
  0 <= energyGroMultiplier (Artifact.timeDelayedUpgrade a)
  /\ 0 < defMultiplier (Artifact.timeDelayedUpgrade a).

(** An operation whose artifacts carry such upgrades and whose arrival
    moves amounts that are not negative. *)
Definition operationOk (op : Operation) : Prop :=
  match op with
  | BringCurrent planetArtifacts _ => Forall upgradeOk planetArtifacts
  | Arrive artifactsOnPlanet arrival =>
      Forall upgradeOk artifactsOnPlanet
      /\ 0 <= QueuedArrival.energyArriving arrival
      /\ 0 <= QueuedArrival.silverMoved arrival
  end.

(** The part of the cap invariant every operation keeps. *)
Definition resourcesInRange (p : Planet) : Prop :=
  0 <= energy p /\ 0 <= silver p <= silverCap p.

(** The cap invariant. *)
Definition withinCaps (p : Planet) : Prop :=
  0 <= energy p <= energyCap p /\ 0 <= silver p <= silverCap p.

Definition isBringCurrent (op : Operation) : Prop :=
  match op with
  | BringCurrent _ _ => True
  | Arrive _ _ => False
  end.

(** The pending slots a planet carries for the optimistic overlay. *)
Definition pendingSlots (p : Planet) :=
  (unconfirmedReveal p, unconfirmedDepartures p, unconfirmedUpgrades p,
   unconfirmedBuyHats p, unconfirmedPlanetTransfers p, unconfirmedFindArtifact p,
   unconfirmedDepositArtifact p, unconfirmedWithdrawArtifact p,
   unconfirmedActivateArtifact p, unconfirmedDeactivateArtifact p,
   unconfirmedWithdrawSilver p, unconfirmedProspectPlanet p).

(** The local state [replacePlanetFromContractData] carries over besides
    the pending slots. *)
Definition localState (p : Planet) :=
  (loadingServerState p, needsServerRefresh p, lastLoadedServerState p,
   emojiBobAnimation p, emojiZoopAnimation p, emojiZoopOutAnimation p, messages p).

(** The fields [replacePlanetFromContractData] itself never assigns: the
    incoming planet's statistics, resources, classification and flags
    (the two emoji flags among them). *)
Definition incomingFields (p : Planet) :=
  (locationId p, perlin p, spaceType p, owner p, hatLevel p, bonus p, planetLevel p,
   planetType p, isHomePlanet p, energyCap p, energyGrowth p, silverCap p, silverGrowth p,
   range p, speed p, defense p, energy p, silver p, lastUpdated p, upgradeState p,
   unconfirmedClearEmoji p, unconfirmedAddEmoji p, prospectedBlockNumber p, destroyed p,
   isInContract p, syncedWithContract p, hasTriedFindingArtifact p, localPhotoidUpgrade p).

(** The statistics and slots no step of [arrive] writes. *)
Definition untouchedByArrive (p : Planet) :=
  (lastUpdated p, energyCap p, silverCap p, energyGrowth p, silverGrowth p, defense p,
   planetType p, locationId p, pendingSlots p, localState p).

(** The part of the store that schedules arrivals. *)
Definition scheduling (s : GameObjects) :=
  (arrivals s, planetArrivalIds s, timers s, nextTimer s).

(** Every timer handle filed in [arrivals] came from [setTimeout]. *)
Definition handlesAllocated (s : GameObjects) : Prop :=
  forall (id : VoyageId) (awt : ArrivalWithTimer),
    arrivals s !! id = Some awt -> (timer awt < nextTimer s)%nat.

(** The arrival ids filed for a planet. *)
Definition arrivalIdsOf (planetId : LocationId) (s : GameObjects) : list VoyageId :=
  match planetArrivalIds s !! planetId with
  | Some ids => ids
  | None => []
  end.

(** Every pending timer of the planet belongs to an arrival filed for it. *)
Definition timersFiled (planetId : LocationId) (s : GameObjects) : Prop :=
  forall (h : nat) (a : QueuedArrival.t),
    timers s !! h = Some (planetId, a) ->
    exists id awt,
      id ∈ arrivalIdsOf planetId s /\ arrivals s !! id = Some awt /\ timer awt = h.

(** A generated planet with its clock stamp and its touched flag
    blanked. *)
Definition withoutClock (p : Planet) : Planet :=
  set_isInContract false (set_lastUpdated 0 p).

Definition Result_map {A B : Type} (f : A -> B) (r : Result A) : Result B :=
  match r with
  | Ok a => Ok (f a)
  | Throw msg => Throw msg
  end.

(** What the loop of [processArrivalsForPlanet] keeps true, from the
    store [s0] it starts in: it files nothing, only allocates timers
    (fresh handles, each pending with its arrival), and leaves the
    planet's pending slots and local state alone. *)
Definition arrivalLoopInvariant (s0 : GameObjects) (planetId : LocationId)
    (acc : list ArrivalWithTimer * GameObjects) : Prop :=
  arrivals acc.2 = arrivals s0
  /\ planetArrivalIds acc.2 = planetArrivalIds s0
  /\ (nextTimer s0 <= nextTimer acc.2)%nat
  /\ (forall h, (h < nextTimer s0)%nat -> timers acc.2 !! h = timers s0 !! h)
  /\ Forall (fun awt =>
               (nextTimer s0 <= timer awt < nextTimer acc.2)%nat
               /\ timers acc.2 !! timer awt = Some (planetId, arrivalData awt)) acc.1
  /\ (forall q0, planets s0 !! planetId = Some q0 ->
        exists q, planets acc.2 !! planetId = Some q
                  /\ pendingSlots q = pendingSlots q0 /\ localState q = localState q0).

(** The arrivals map once the new arrivals are filed. *)
Definition fileArrivals (awts : list ArrivalWithTimer) (m : gmap VoyageId ArrivalWithTimer)
    : gmap VoyageId ArrivalWithTimer :=
  fold_left (fun m awt => <[QueuedArrival.eventId (arrivalData awt) := awt]> m) awts m.

(** The arrivals map once the ids are struck from it. *)
Definition strikeArrivals (ids : list VoyageId) (m : gmap VoyageId ArrivalWithTimer)
    : gmap VoyageId ArrivalWithTimer :=
  fold_left (fun m id => delete id m) ids m.

(** The store after the arrivals part of [replacePlanetFromContractData]. *)
Definition afterArrivals (now : Q) (merged : Planet)
    (updatedArrivals : option (list QueuedArrival.t)) (s : GameObjects) : GameObjects :=
  match updatedArrivals with
  | Some updatedArrivals =>
      let s := clearOldArrivals merged s in
      let '(updatedAwts, s) :=
        processArrivalsForPlanet now (locationId merged) updatedArrivals s in
      fold_left (installArrival (locationId merged)) updatedAwts s
  | None => s
  end.

End Vocabulary.

(** ** Vocabulary of the further statements *)

(** The ceiling a region puts on the level of its planets. *)
Definition regionCeiling (spaceType : SpaceType) : PlanetLevel :=
  if Nat.eqb spaceType NEBULA then PlanetLevel_FOUR
  else if Nat.eqb spaceType SPACE then PlanetLevel_FIVE
  else MAX_PLANET_LEVEL.

(** The planet a notification is about. *)
Definition notificationPlanet (n : Notification) : LocationId :=
  match n with
  | NotifPlanetCanUpgrade id | NotifPlanetDestroyed id | NotifPlanetConquered id
  | NotifPlanetLost id | NotifPlanetAttacked id => id
  end.

(** [s'] is [s] with more notifications, all about the planet [id], and
    with none at all unless [concerned] holds. *)
Definition notifiedAbout (s : GameObjects) (id : LocationId) (concerned : Prop)
    (s' : GameObjects) : Prop :=
  exists new : list Notification,
    s' = set_notifications (notifications s ++ new) s
    /\ Forall (fun n => notificationPlanet n = id) new
    /\ (new <> [] -> concerned).

(** The test [nowInSeconds - arrival.arrivalTime > 0] of
    [processArrivalsForPlanet]: the arrival happened in the past. *)
Definition arrivedBy (nowInSeconds : Q) (a : QueuedArrival.t) : bool :=
  nowInSeconds - QueuedArrival.arrivalTime a >? 0.

(** The order [arrivals.sort] puts the arrivals in. *)
Definition arrivesNoLater (a b : QueuedArrival.t) : Prop :=
  QueuedArrival.arrivalTime a <= QueuedArrival.arrivalTime b.

(** The artifacts of the store that a planet holds. *)
Definition heldArtifacts (s : GameObjects) (p : Planet) : list Artifact.t :=
  omap (fun id => artifacts s !! id) (heldArtifactIds p).

(** The part of the store that holds the player, the items and the
    ruleset; no operation on planets touches it. *)
Definition itemIndex (s : GameObjects) :=
  (address s, artifacts s, myArtifacts s, wormholes s, contractConstants s).

(** The pending slots an artifact carries for the optimistic overlay,
    and the fields the ledger reports. *)
Definition artifactPendingSlots (a : Artifact.t) :=
  (Artifact.unconfirmedDepositArtifact a, Artifact.unconfirmedWithdrawArtifact a,
   Artifact.unconfirmedActivateArtifact a, Artifact.unconfirmedDeactivateArtifact a,
   Artifact.unconfirmedMove a).

Definition artifactLedgerFields (a : Artifact.t) :=
  (Artifact.id a, Artifact.artifactType a, Artifact.currentOwner a, Artifact.onPlanetId a,
   Artifact.onVoyageId a, Artifact.wormholeTo a, Artifact.lastActivated a,
   Artifact.lastDeactivated a, Artifact.timeDelayedUpgrade a).

(** Every planet is filed under its own id, and every location under its
    hash. *)
Definition wellFiled (s : GameObjects) : Prop :=
  (forall id p, planets s !! id = Some p -> locationId p = id)
  /\ (forall id loc, planetLocationMap s !! id = Some loc -> WorldLocation.hash loc = id).

(** Every artifact is filed under its own id. *)
Definition artifactsWellFiled (s : GameObjects) : Prop :=
  forall id a, artifacts s !! id = Some a -> Artifact.id a = id.

(** The ids [getPlanetWithId] can answer for: a planet is stored, or the
    location is known. *)
Definition resolvable (s : GameObjects) (id : LocationId) : bool :=
  bool_decide (is_Some (planets s !! id) \/ is_Some (planetLocationMap s !! id)).

(** The statistics a delayed upgrade scales, with the record of the
    upgrade once it is applied. *)
Definition upgradedStats (p : Planet) :=
  (range p, speed p, defense p, energyGrowth p, localPhotoidUpgrade p).

Section VocabularyMore.
Context {ext : Externals} {logs : Logarithms}.


(** [Math.log2] is not positive on (0, 1]. *)
Definition log2_nonpositive_below_one : Prop :=
  forall x : Q, 0 < x <= 1 -> Math_log2 x <= 0.

(** The level [addPlanetLocation] reports to the spatial index for a
    planet it knows: [planet.planetLevel ||
    planetLevelFromHexPerlin(hash, perlin)]. *)
Definition levelOrGenerated (cc : ContractConstants) (loc : WorldLocation.t) (p : Planet)
    : PlanetLevel :=
  if Nat.eqb (planetLevel p) 0
  then planetLevelFromHexPerlin cc (WorldLocation.hash loc) (WorldLocation.perlin loc)
  else planetLevel p.

(** The two assignments [addPlanetLocation] ends with. *)
Definition placeAt (cc : ContractConstants) (loc : WorldLocation.t) (p : Planet) : Planet :=
  set_biome (Some (getBiome cc loc)) (set_location (Some loc) p).

(** What the store knows once a location was added: the location by its
    hash, some location at its coordinates, and a planet placed there
    that the spatial index knows at its level. *)
Definition located (loc : WorldLocation.t) (s : GameObjects) : Prop :=
  let hash := WorldLocation.hash loc in
  planetLocationMap s !! hash = Some loc
  /\ is_Some (coordsToLocation s !! getCoordsString (WorldLocation.coords loc))
  /\ (exists p, planets s !! hash = Some p
                /\ placeAt (contractConstants s) loc p = p
                /\ layeredMap s !! hash
                   = Some (loc, levelOrGenerated (contractConstants s) loc p))
  /\ (forall q, myPlanets s !! hash = Some q -> placeAt (contractConstants s) loc q = q).

(** The arrivals resolved one after the other, each on the planet the
    one before left. *)
Definition resolveInOrder (s : GameObjects) (arrs : list QueuedArrival.t) (q0 : Planet)
    : Planet :=
  fold_left (fun p a => step (contractConstants s) p (Arrive (heldArtifacts s p) a)) arrs q0.

End VocabularyMore.

(** *** The optimistic overlay *)

(** The planet and the artifact an intent is attached to. *)
Definition intentPlanet (tx : Intent.t) : option LocationId :=
  match tx with
  | Intent.UnconfirmedReveal _ id | Intent.UnconfirmedMove _ id _
  | Intent.UnconfirmedUpgrade _ id | Intent.UnconfirmedBuyHat _ id
  | Intent.UnconfirmedPlanetTransfer _ id | Intent.UnconfirmedProspectPlanet _ id
  | Intent.UnconfirmedFindArtifact _ id | Intent.UnconfirmedDepositArtifact _ id _
  | Intent.UnconfirmedWithdrawArtifact _ id _ | Intent.UnconfirmedActivateArtifact _ id _ _
  | Intent.UnconfirmedDeactivateArtifact _ id _ | Intent.UnconfirmedWithdrawSilver _ id =>
      Some id
  | Intent.Other _ => None
  end.

Definition intentArtifact (tx : Intent.t) : option ArtifactId :=
  match tx with
  | Intent.UnconfirmedMove _ _ artifact => truthy artifact
  | Intent.UnconfirmedDepositArtifact _ _ id | Intent.UnconfirmedWithdrawArtifact _ _ id
  | Intent.UnconfirmedActivateArtifact _ _ id _ | Intent.UnconfirmedDeactivateArtifact _ _ id =>
      Some id
  | _ => None
  end.

(** No entry of the list carries the action id. *)
Definition noEntry {A : Type} (getActionId : A -> string) (actionId : string)
    (entries : list A) : Prop :=
  findActionIdx getActionId actionId entries 0 = None.

(** The slot of the intent's kind is free on the planet: the list has no
    entry with its action id, or the single slot is empty. *)
Definition freeOnPlanet (tx : Intent.t) (p : Planet) : Prop :=
  match tx with
  | Intent.UnconfirmedReveal _ _ => unconfirmedReveal p = None
  | Intent.UnconfirmedMove a _ _ => noEntry pendingActionId a (unconfirmedDepartures p)
  | Intent.UnconfirmedUpgrade a _ => noEntry pendingActionId a (unconfirmedUpgrades p)
  | Intent.UnconfirmedBuyHat a _ => noEntry pendingActionId a (unconfirmedBuyHats p)
  | Intent.UnconfirmedPlanetTransfer a _ =>
      noEntry pendingActionId a (unconfirmedPlanetTransfers p)
  | Intent.UnconfirmedProspectPlanet _ _ => unconfirmedProspectPlanet p = None
  | Intent.UnconfirmedFindArtifact _ _ => unconfirmedFindArtifact p = None
  | Intent.UnconfirmedDepositArtifact _ _ _ => unconfirmedDepositArtifact p = None
  | Intent.UnconfirmedWithdrawArtifact _ _ _ => unconfirmedWithdrawArtifact p = None
  | Intent.UnconfirmedActivateArtifact _ _ _ _ => unconfirmedActivateArtifact p = None
  | Intent.UnconfirmedDeactivateArtifact _ _ _ => unconfirmedDeactivateArtifact p = None
  | Intent.UnconfirmedWithdrawSilver _ _ => unconfirmedWithdrawSilver p = None
  | Intent.Other _ => True
  end.

(** The intent sits in the slot of its kind. *)
Definition pendingOnPlanet (tx : Intent.t) (p : Planet) : Prop :=
  let stored := toTxIntent tx in
  match tx with
  | Intent.UnconfirmedReveal _ _ => unconfirmedReveal p = Some stored
  | Intent.UnconfirmedMove _ _ _ => stored ∈ unconfirmedDepartures p
  | Intent.UnconfirmedUpgrade _ _ => stored ∈ unconfirmedUpgrades p
  | Intent.UnconfirmedBuyHat _ _ => stored ∈ unconfirmedBuyHats p
  | Intent.UnconfirmedPlanetTransfer _ _ => stored ∈ unconfirmedPlanetTransfers p
  | Intent.UnconfirmedProspectPlanet _ _ => unconfirmedProspectPlanet p = Some stored
  | Intent.UnconfirmedFindArtifact _ _ => unconfirmedFindArtifact p = Some stored
  | Intent.UnconfirmedDepositArtifact _ _ _ => unconfirmedDepositArtifact p = Some stored
  | Intent.UnconfirmedWithdrawArtifact _ _ _ => unconfirmedWithdrawArtifact p = Some stored
  | Intent.UnconfirmedActivateArtifact _ _ _ _ => unconfirmedActivateArtifact p = Some stored
  | Intent.UnconfirmedDeactivateArtifact _ _ _ =>
      unconfirmedDeactivateArtifact p = Some stored
  | Intent.UnconfirmedWithdrawSilver _ _ => unconfirmedWithdrawSilver p = Some stored
  | Intent.Other _ => True
  end.

(** The assignment an intent makes on the planet it is attached to, and
    the one that takes it off again. *)
Definition attachTo (tx : Intent.t) (planet : Planet) : Planet :=
  let stored := toTxIntent tx in
  match tx with
  | Intent.UnconfirmedReveal _ _ => set_unconfirmedReveal (Some stored) planet
  | Intent.UnconfirmedMove _ _ _ =>
      set_unconfirmedDepartures (unconfirmedDepartures planet ++ [stored]) planet
  | Intent.UnconfirmedUpgrade _ _ =>
      set_unconfirmedUpgrades (unconfirmedUpgrades planet ++ [stored]) planet
  | Intent.UnconfirmedBuyHat _ _ =>
      set_unconfirmedBuyHats (unconfirmedBuyHats planet ++ [stored]) planet
  | Intent.UnconfirmedPlanetTransfer _ _ =>
      set_unconfirmedPlanetTransfers (unconfirmedPlanetTransfers planet ++ [stored]) planet
  | Intent.UnconfirmedProspectPlanet _ _ => set_unconfirmedProspectPlanet (Some stored) planet
  | Intent.UnconfirmedFindArtifact _ _ => set_unconfirmedFindArtifact (Some stored) planet
  | Intent.UnconfirmedDepositArtifact _ _ _ =>
      set_unconfirmedDepositArtifact (Some stored) planet
  | Intent.UnconfirmedWithdrawArtifact _ _ _ =>
      set_unconfirmedWithdrawArtifact (Some stored) planet
  | Intent.UnconfirmedActivateArtifact _ _ _ _ =>
      set_unconfirmedActivateArtifact (Some stored) planet
  | Intent.UnconfirmedDeactivateArtifact _ _ _ =>
      set_unconfirmedDeactivateArtifact (Some stored) planet
  | Intent.UnconfirmedWithdrawSilver _ _ => set_unconfirmedWithdrawSilver (Some stored) planet
  | Intent.Other _ => planet
  end.

Definition detachFrom (tx : Intent.t) (planet : Planet) : Planet :=
  match tx with
  | Intent.UnconfirmedReveal _ _ => set_unconfirmedReveal None planet
  | Intent.UnconfirmedMove a _ _ =>
      set_unconfirmedDepartures
        (spliceByActionId pendingActionId a (unconfirmedDepartures planet)) planet
  | Intent.UnconfirmedUpgrade a _ =>
      set_unconfirmedUpgrades
        (spliceByActionId pendingActionId a (unconfirmedUpgrades planet)) planet
  | Intent.UnconfirmedBuyHat a _ =>
      set_unconfirmedBuyHats
        (spliceByActionId pendingActionId a (unconfirmedBuyHats planet)) planet
  | Intent.UnconfirmedPlanetTransfer a _ =>
      set_unconfirmedPlanetTransfers
        (spliceByActionId pendingActionId a (unconfirmedPlanetTransfers planet)) planet
  | Intent.UnconfirmedProspectPlanet _ _ => set_unconfirmedProspectPlanet None planet
  | Intent.UnconfirmedFindArtifact _ _ => set_unconfirmedFindArtifact None planet
  | Intent.UnconfirmedDepositArtifact _ _ _ => set_unconfirmedDepositArtifact None planet
  | Intent.UnconfirmedWithdrawArtifact _ _ _ => set_unconfirmedWithdrawArtifact None planet
  | Intent.UnconfirmedActivateArtifact _ _ _ _ => set_unconfirmedActivateArtifact None planet
  | Intent.UnconfirmedDeactivateArtifact _ _ _ =>
      set_unconfirmedDeactivateArtifact None planet
  | Intent.UnconfirmedWithdrawSilver _ _ => set_unconfirmedWithdrawSilver None planet
  | Intent.Other _ => planet
  end.

(** The slot of an artifact that an intent of the kind uses: the value
    the intent writes there when it is attached ([Some]) or detached
    ([None]). *)
Definition writeArtifactSlot (tx : Intent.t) (v : option TxIntent) (a : Artifact.t)
    : Artifact.t :=
  match tx with
  | Intent.UnconfirmedMove _ _ _ => Artifact_set_unconfirmedMove v a
  | Intent.UnconfirmedDepositArtifact _ _ _ => Artifact_set_unconfirmedDepositArtifact v a
  | Intent.UnconfirmedWithdrawArtifact _ _ _ => Artifact_set_unconfirmedWithdrawArtifact v a
  | Intent.UnconfirmedActivateArtifact _ _ _ _ =>
      Artifact_set_unconfirmedActivateArtifact v a
  | Intent.UnconfirmedDeactivateArtifact _ _ _ =>
      Artifact_set_unconfirmedDeactivateArtifact v a
  | _ => a
  end.

(** The slot of the intent's kind is empty on the artifact. *)
Definition freeOnArtifact (tx : Intent.t) (a : Artifact.t) : Prop :=
  match tx with
  | Intent.UnconfirmedMove _ _ _ => Artifact.unconfirmedMove a = None
  | Intent.UnconfirmedDepositArtifact _ _ _ => Artifact.unconfirmedDepositArtifact a = None
  | Intent.UnconfirmedWithdrawArtifact _ _ _ => Artifact.unconfirmedWithdrawArtifact a = None
  | Intent.UnconfirmedActivateArtifact _ _ _ _ =>
      Artifact.unconfirmedActivateArtifact a = None
  | Intent.UnconfirmedDeactivateArtifact _ _ _ =>
      Artifact.unconfirmedDeactivateArtifact a = None
  | _ => True
  end.

(** The intent sits in the artifact's slot of its kind. *)
Definition pendingOnArtifact (tx : Intent.t) (a : Artifact.t) : Prop :=
  let stored := toTxIntent tx in
  match tx with
  | Intent.UnconfirmedMove _ _ _ => Artifact.unconfirmedMove a = Some stored
  | Intent.UnconfirmedDepositArtifact _ _ _ =>
      Artifact.unconfirmedDepositArtifact a = Some stored
  | Intent.UnconfirmedWithdrawArtifact _ _ _ =>
      Artifact.unconfirmedWithdrawArtifact a = Some stored
  | Intent.UnconfirmedActivateArtifact _ _ _ _ =>
      Artifact.unconfirmedActivateArtifact a = Some stored
  | Intent.UnconfirmedDeactivateArtifact _ _ _ =>
      Artifact.unconfirmedDeactivateArtifact a = Some stored
  | _ => True
  end.

(** The registries the store itself keeps of pending intents. *)
Definition registries (o : Overlay.t) :=
  (Overlay.unconfirmedReveal o, Overlay.unconfirmedMoves o, Overlay.unconfirmedUpgrades o,
   Overlay.unconfirmedBuyHats o, Overlay.unconfirmedPlanetTransfers o,
   Overlay.unconfirmedWormholeActivations o).

(** The registry of the intent's kind has no entry for its action id. *)
Definition freeInRegistry (tx : Intent.t) (o : Overlay.t) : Prop :=
  match tx with
  | Intent.UnconfirmedReveal _ _ => Overlay.unconfirmedReveal o = None
  | Intent.UnconfirmedMove a _ _ => Overlay.unconfirmedMoves o !! a = None
  | Intent.UnconfirmedUpgrade a _ => Overlay.unconfirmedUpgrades o !! a = None
  | Intent.UnconfirmedBuyHat a _ => Overlay.unconfirmedBuyHats o !! a = None
  | Intent.UnconfirmedPlanetTransfer a _ => Overlay.unconfirmedPlanetTransfers o !! a = None
  | Intent.UnconfirmedActivateArtifact a _ _ _ =>
      noEntry Intent.actionId a (Overlay.unconfirmedWormholeActivations o)
  | _ => True
  end.

Section OverlayVocabulary.
Context {ext : Externals}.

(** What a branch of [onTxIntent] or [clearUnconfirmedTxIntent] does to
    the planet and to the artifact of the intent: the planet is looked up
    and assigned to, then the artifact. *)
Definition assignBoth (nowMillis : Q) (id : LocationId) (artifactId : option ArtifactId)
    (assign : Planet -> Planet) (assignA : Artifact.t -> Artifact.t) (s : GameObjects)
    : Result GameObjects :=
  try! s := onPlanet nowMillis id assign s in
  Ok match artifactId with
     | Some artifactId => assignArtifact artifactId (getArtifactById artifactId s) assignA s
     | None => s
     end.

End OverlayVocabulary.

(** ** Data for the examples *)

(** An instance of [Externals] to run examples with.  [Math.exp] is
    replaced by a rational function that is exact at 0 and stays within
    (0, 1] on arguments that are not positive; [isActivated] compares the
    two activation stamps; the hexgen helpers read the location id as
    hexadecimal digits, two per byte. *)
Definition exp_stand_in (x : Q) : Q := if 0 <? x then 1 + x else 1 / (1 - x).

Definition hexDigit (c : ascii) : Z :=
  let n := Z.of_nat (nat_of_ascii c) in
  if (48 <=? n)%Z && (n <=? 57)%Z then (n - 48)%Z
  else if (97 <=? n)%Z && (n <=? 102)%Z then (n - 87)%Z
  else if (65 <=? n)%Z && (n <=? 70)%Z then (n - 55)%Z
  else 0%Z.

Fixpoint hexValue (acc : Z) (s : string) : Z :=
  match s with
  | EmptyString => acc
  | String c s' => hexValue (16 * acc + hexDigit c)%Z s'
  end.

Definition sample_getBytesFromHex (hexStr : LocationId) (startByte endByte : nat) : Z :=
  hexValue 0 (substring (2 * startByte) (2 * endByte - 2 * startByte) hexStr).

Definition sample_externals : Externals := {|
  Math_exp := exp_stand_in;
  isActivated := fun a => Artifact.lastActivated a >? Artifact.lastDeactivated a;
  getBytesFromHex := sample_getBytesFromHex;
  bonusFromHex := fun hex =>
    List.map (fun i => (sample_getBytesFromHex hex (9 + i) (10 + i) <? 16)%Z) [0; 1; 2; 3; 4]%nat
|}.

Definition playerA : EthAddress := "0x000000000000000000000000000000000000000a"%string.
Definition playerB : EthAddress := "0x000000000000000000000000000000000000000b"%string.

(** The territory of the scenarios: tier 3, nebula, owner A, energy
    50 of 100, defense 100, growth 10, last updated at second 1000. *)
Definition scenarioPlanet : Planet := {|
  locationId := "00001234"; perlin := 5; spaceType := NEBULA; owner := playerA;
  hatLevel := 0; bonus := [false; false; false; false; false];
  planetLevel := 3%nat; planetType := PLANET; isHomePlanet := false;
  energyCap := 100; energyGrowth := 10; silverCap := 1000; silverGrowth := 5;
  range := 100; speed := 100; defense := 100; energy := 50; silver := 0;
  lastUpdated := 1000; upgradeState := [0; 0; 0];
  unconfirmedReveal := None; unconfirmedDepartures := []; unconfirmedUpgrades := [];
  unconfirmedBuyHats := []; unconfirmedPlanetTransfers := [];
  unconfirmedFindArtifact := None; unconfirmedDepositArtifact := None;
  unconfirmedWithdrawArtifact := None; unconfirmedActivateArtifact := None;
  unconfirmedDeactivateArtifact := None; unconfirmedWithdrawSilver := None;
  unconfirmedProspectPlanet := None; unconfirmedClearEmoji := false;
  unconfirmedAddEmoji := false; loadingServerState := false;
  needsServerRefresh := false; lastLoadedServerState := None;
  emojiBobAnimation := None; emojiZoopAnimation := None; emojiZoopOutAnimation := None;
  messages := None; silverSpent := 0; prospectedBlockNumber := None;
  heldArtifactIds := []; destroyed := false; isInContract := true;
  syncedWithContract := true; coordsRevealed := false; revealer := None; claimer := None;
  location := None; biome := None; hasTriedFindingArtifact := false;
  localPhotoidUpgrade := None
|}.

(** An arrival at [scenarioPlanet] at second [at_]. *)
Definition arrivalFrom (who : EthAddress) (energyArriving silverMoved at_ : Q)
    : QueuedArrival.t := {|
  QueuedArrival.eventId := "1"; QueuedArrival.player := who;
  QueuedArrival.fromPlanet := "0000abcd"; QueuedArrival.toPlanet := "00001234";
  QueuedArrival.energyArriving := energyArriving; QueuedArrival.silverMoved := silverMoved;
  QueuedArrival.artifactId := None; QueuedArrival.departureTime := 900;
  QueuedArrival.arrivalTime := at_
|}.

Definition sampleConstants : ContractConstants := {|
  DESTROY_THRESHOLD := 0;
  PHOTOID_ACTIVATION_DELAY := 14400;
  TIME_FACTOR_HUNDREDTHS := 100;
  MAX_NATURAL_PLANET_LEVEL := 9%nat;
  PERLIN_THRESHOLD_1 := 14; PERLIN_THRESHOLD_2 := 15; PERLIN_THRESHOLD_3 := 19;
  BIOME_THRESHOLD_1 := 15; BIOME_THRESHOLD_2 := 17;
  planetLevelThresholds := fun l =>
    nth l [16777216; 4194292; 1048561; 262128; 65520; 16368; 4080; 1008; 240; 48]%Z 0%Z;
  PLANET_TYPE_WEIGHTS := fun _ _ => [256; 0; 0; 0; 0];
  defaultPopulationCap := fun l => 100000 * inject_Z (Z.of_nat (S l));
  defaultPopulationGrowth := fun l => 417 * inject_Z (Z.of_nat (S l));
  defaultRange := fun l => 99 * inject_Z (Z.of_nat (S l));
  defaultSpeed := fun _ => 75;
  defaultDefense := fun _ => 400;
  defaultSilverCap := fun l => 100000 * inject_Z (Z.of_nat l);
  defaultSilverGrowth := fun l => 56 * inject_Z (Z.of_nat l);
  defaultBarbarianPercentage := fun l => inject_Z (Z.of_nat l)
|}.

Definition unownedPlanet : Planet := set_silver 40 (set_owner EMPTY_ADDRESS scenarioPlanet).
Definition destroyedPlanet : Planet := set_destroyed true scenarioPlanet.

(** An activated photoid cannon held by [scenarioPlanet]. *)
Definition photoid : Artifact.t := {|
  Artifact.id := "a1"; Artifact.artifactType := ArtifactType.PhotoidCannon;
  Artifact.currentOwner := playerA; Artifact.onPlanetId := Some "00001234"%string;
  Artifact.onVoyageId := None; Artifact.wormholeTo := None;
  Artifact.lastActivated := 1000; Artifact.lastDeactivated := 0;
  Artifact.timeDelayedUpgrade :=
    {| energyCapMultiplier := 100; energyGroMultiplier := 100; rangeMultiplier := 200;
       speedMultiplier := 500; defMultiplier := 50 |};
  Artifact.unconfirmedDepositArtifact := None; Artifact.unconfirmedWithdrawArtifact := None;
  Artifact.unconfirmedActivateArtifact := None;
  Artifact.unconfirmedDeactivateArtifact := None; Artifact.unconfirmedMove := None
|}.

(** A location in deep space, and a store that knows nothing yet. *)
Definition sampleLocation : WorldLocation.t := {|
  WorldLocation.coords := {| x := 1; y := 2 |};
  WorldLocation.hash := "0000000000f00000050a0b0c0d0e";
  WorldLocation.perlin := 16;
  WorldLocation.biomebase := 16
|}.

Definition emptyStore : GameObjects := {|
  layeredMap := ∅; address := Some playerA; planets := ∅; myPlanets := ∅;
  artifacts := ∅; myArtifacts := ∅; wormholes := ∅; touchedPlanetIds := ∅;
  arrivals := ∅; planetArrivalIds := ∅; planetLocationMap := ∅; revealedLocations := ∅;
  contractConstants := sampleConstants; coordsToLocation := ∅; published := [];
  timers := ∅; nextTimer := 0%nat; console := []; notifications := []
|}.

(** A wormhole artifact that was taken off its planet, and a store that
    still lists the link it once made. *)
Definition withdrawnWormhole : Artifact.t := {|
  Artifact.id := "w1"; Artifact.artifactType := ArtifactType.Wormhole;
  Artifact.currentOwner := playerA; Artifact.onPlanetId := None;
  Artifact.onVoyageId := None; Artifact.wormholeTo := None;
  Artifact.lastActivated := 0; Artifact.lastDeactivated := 10;
  Artifact.timeDelayedUpgrade :=
    {| energyCapMultiplier := 100; energyGroMultiplier := 100; rangeMultiplier := 100;
       speedMultiplier := 100; defMultiplier := 100 |};
  Artifact.unconfirmedDepositArtifact := None; Artifact.unconfirmedWithdrawArtifact := None;
  Artifact.unconfirmedActivateArtifact := None;
  Artifact.unconfirmedDeactivateArtifact := None; Artifact.unconfirmedMove := None
|}.

Definition staleLink : Wormhole := {| from := "00001234"; to := "0000abcd" |}.

Definition storeWithLink : GameObjects :=
  set_wormholes {[ "w1"%string := staleLink ]} emptyStore.

(** The same wormhole, placed on a planet and activated towards another. *)
Definition activeWormhole : Artifact.t := {|
  Artifact.id := "w1"; Artifact.artifactType := ArtifactType.Wormhole;
  Artifact.currentOwner := playerA; Artifact.onPlanetId := Some "00001234"%string;
  Artifact.onVoyageId := None; Artifact.wormholeTo := Some "0000abcd"%string;
  Artifact.lastActivated := 20; Artifact.lastDeactivated := 10;
  Artifact.timeDelayedUpgrade :=
    {| energyCapMultiplier := 100; energyGroMultiplier := 100; rangeMultiplier := 100;
       speedMultiplier := 100; defMultiplier := 100 |};
  Artifact.unconfirmedDepositArtifact := None; Artifact.unconfirmedWithdrawArtifact := None;
  Artifact.unconfirmedActivateArtifact := None;
  Artifact.unconfirmedDeactivateArtifact := None; Artifact.unconfirmedMove := None
|}.

(** A store that holds [scenarioPlanet] with a pending departure, a held
    artifact and a pending emoji, and the planet the ledger reports for
    the same id: energy 70, no artifact. *)
Definition localCopy : Planet :=
  set_unconfirmedAddEmoji true
    (set_heldArtifactIds ["a1"%string]
       (set_unconfirmedDepartures [{| actionId := "tx1" |}] scenarioPlanet)).

Definition incomingPlanet : Planet := set_energy 70 scenarioPlanet.

Definition storeWithPlanet : GameObjects :=
  set_planets {[ "00001234"%string := localCopy ]} emptyStore.

(** The same store with one arrival scheduled for the planet (timer 0),
    and an arrival the ledger reports later. *)
Definition scheduledArrival : ArrivalWithTimer :=
  {| arrivalData := arrivalFrom playerB 40 0 5000; timer := 0 |}.

Definition storeWithArrival : GameObjects :=
  set_nextTimer 1
    (set_timers {[ 0%nat := ("00001234"%string, arrivalFrom playerB 40 0 5000) ]}
       (set_planetArrivalIds {[ "00001234"%string := ["1"%string] ]}
          (set_arrivals {[ "1"%string := scheduledArrival ]} storeWithPlanet))).

Definition laterArrival : QueuedArrival.t := {|
  QueuedArrival.eventId := "2"; QueuedArrival.player := playerB;
  QueuedArrival.fromPlanet := "0000abcd"; QueuedArrival.toPlanet := "00001234";
  QueuedArrival.energyArriving := 60; QueuedArrival.silverMoved := 0;
  QueuedArrival.artifactId := None; QueuedArrival.departureTime := 950;
  QueuedArrival.arrivalTime := 6000
|}.

(** ** Data for the further examples *)

(** A logarithm to run examples with: the inverse of [exp_stand_in]. *)
Definition log_stand_in (x : Q) : Q := if 1 <? x then x - 1 else 1 - 1 / x.

Definition sample_logarithms : Logarithms := {|
  Math_log2 := log_stand_in
|}.

(** The player's planet, taken by another player. *)
Definition lostPlanetDiff : PlanetDiff := {|
  previous := scenarioPlanet;
  current := set_owner playerB scenarioPlanet;
  arrival := arrivalFrom playerB 200 0 1000
|}.

(** The photoid cannon with a move pending, and a store that holds it
    beside the planet. *)
Definition movingPhotoid : Artifact.t :=
  Artifact_set_unconfirmedMove (Some {| actionId := "tx7" |}) photoid.

Definition storeWithArtifact : GameObjects :=
  set_artifacts {[ "a1"%string := movingPhotoid ]} storeWithPlanet.

(** An overlay with nothing pending, around a store. *)
Definition overlayOf (s : GameObjects) : Overlay.t := {|
  Overlay.objects := s; Overlay.unconfirmedReveal := None; Overlay.unconfirmedMoves := ∅;
  Overlay.unconfirmedUpgrades := ∅; Overlay.unconfirmedBuyHats := ∅;
  Overlay.unconfirmedPlanetTransfers := ∅; Overlay.unconfirmedWormholeActivations := [];
  Overlay.txInits := []
|}.

(** A move from the stored planet and a deposit of the stored artifact. *)
Definition pendingMove : Intent.t := Intent.UnconfirmedMove "tx9" "00001234" None.

Definition pendingDeposit : Intent.t :=
  Intent.UnconfirmedDepositArtifact "tx9" "00001234" "a1".

(** * Properties *)

(** ** Comparisons *)

Lemma Qltb_true (x y : Q) : (x <? y) = true <-> x < y.
Proof.
  unfold Qltb. rewrite negb_true_iff. split; intros H.
  - apply Qnot_le_lt. intros Hle. apply Qle_bool_iff in Hle. congruence.
  - destruct (Qle_bool y x) eqn:E; [|reflexivity].
    apply Qle_bool_iff in E. lra.
Qed.

Lemma Qltb_false (x y : Q) : (x <? y) = false <-> y <= x.
Proof.
  unfold Qltb. rewrite negb_false_iff. apply Qle_bool_iff.
Qed.

Lemma Qgtb_true (x y : Q) : (x >? y) = true <-> y < x.
Proof. apply Qltb_true. Qed.

Lemma Qgtb_false (x y : Q) : (x >? y) = false <-> x <= y.
Proof. apply Qltb_false. Qed.

Lemma Qgeb_true (x y : Q) : (x >=? y) = true <-> y <= x.
Proof. apply Qle_bool_iff. Qed.

Lemma hasOwner_false (p : Planet) : hasOwner p = false <-> owner p = EMPTY_ADDRESS.
Proof.
  unfold hasOwner. rewrite negb_false_iff. apply String.eqb_eq.
Qed.

Lemma Math_floor_le (x : Q) : Math_floor x <= x.
Proof. apply Qfloor_le. Qed.

Lemma Math_floor_nonneg (x : Q) : 0 <= x -> 0 <= Math_floor x.
Proof.
  intros H. unfold Math_floor.
  change 0 with (inject_Z 0). rewrite <- Zle_Qle.
  rewrite <- (Qfloor_Z 0). now apply Qfloor_resp_le.
Qed.

Lemma Math_floor_nonpos (x : Q) : x <= 0 -> Math_floor x <= 0.
Proof. intros H. pose proof (Math_floor_le x). lra. Qed.

(** ** The resource model *)

(** Case analysis on every test left in the goal. *)
Ltac case_steps :=
  repeat match goal with
         | |- context [if ?b then _ else _] => destruct b
         | |- context [match truthy ?o with _ => _ end] => destruct (truthy o)
         end.

Section ResourceModel.
Context {ext : Externals}.

Lemma updatePlanetToTime_early (planet : Planet) (arts : list Artifact.t) (t : Q)
    (cc : ContractConstants) :
  t < lastUpdated planet * 1000 -> updatePlanetToTime planet arts t cc = planet.
Proof.
  intros H. unfold updatePlanetToTime.
  apply Qltb_true in H. now rewrite H.
Qed.

(** What [updatePlanetToTime] leaves alone, whichever branch it takes. *)
Lemma updatePlanetToTime_frame (planet : Planet) (arts : list Artifact.t) (t : Q)
    (cc : ContractConstants) :
  let planet' := updatePlanetToTime planet arts t cc in
  owner planet' = owner planet
  /\ destroyed planet' = destroyed planet
  /\ energyCap planet' = energyCap planet
  /\ silverCap planet' = silverCap planet
  /\ silverGrowth planet' = silverGrowth planet
  /\ planetType planet' = planetType planet
  /\ locationId planet' = locationId planet
  /\ heldArtifactIds planet' = heldArtifactIds planet
  /\ pendingSlots planet' = pendingSlots planet
  /\ localState planet' = localState planet.
Proof.
  unfold updatePlanetToTime.
  destruct (t <? lastUpdated planet * 1000); [repeat split|].
  cbn zeta.
  destruct (find (isActivePhotoid cc t) arts) as [a|];
    [destruct (localPhotoidUpgrade planet) as [u|] eqn:E; cbn; rewrite ?E|];
    repeat split.
Qed.

Lemma updatePlanetToTime_lastUpdated (planet : Planet) (arts : list Artifact.t) (t : Q)
    (cc : ContractConstants) :
  lastUpdated planet <= lastUpdated (updatePlanetToTime planet arts t cc).
Proof.
  unfold updatePlanetToTime.
  destruct (t <? lastUpdated planet * 1000) eqn:Hlt; [apply Qle_refl|].
  apply Qltb_false in Hlt. cbn zeta.
  destruct (find (isActivePhotoid cc t) arts) as [a|];
    [destruct (localPhotoidUpgrade planet) as [u|] eqn:E; cbn; rewrite ?E|];
    cbn; apply Qle_shift_div_l; lra.
Qed.

(** C10: [applyUpgrade] never touches [energyCap]; it scales [speed] by
    [energyCapMultiplier / 100] as well as by [speedMultiplier / 100]
    (and divides by both when un-applying), and scales [energyGrowth],
    [range] and [defense] each by its own multiplier.  It is what
    [updatePlanetToTime] applies when it finds an active photoid cannon on
    a planet that has no [localPhotoidUpgrade] yet, so bringing a planet
    current never changes its [energyCap] either. *)
Theorem applyUpgrade_scales_speed_not_energyCap (planet : Planet) (upgrade : Upgrade)
    (arts : list Artifact.t) (t : Q) (cc : ContractConstants) (a : Artifact.t) :
  (energyCap (applyUpgrade planet upgrade false) = energyCap planet
   /\ energyCap (applyUpgrade planet upgrade true) = energyCap planet)
  /\ (speed (applyUpgrade planet upgrade false)
       = speed planet * (energyCapMultiplier upgrade / 100) * (speedMultiplier upgrade / 100)
      /\ speed (applyUpgrade planet upgrade true)
         = speed planet / (energyCapMultiplier upgrade / 100)
           / (speedMultiplier upgrade / 100))
  /\ (energyGrowth (applyUpgrade planet upgrade false)
       = energyGrowth planet * (energyGroMultiplier upgrade / 100)
      /\ range (applyUpgrade planet upgrade false)
         = range planet * (rangeMultiplier upgrade / 100)
      /\ defense (applyUpgrade planet upgrade false)
         = defense planet * (defMultiplier upgrade / 100))
  /\ (energyGrowth (applyUpgrade planet upgrade true)
       = energyGrowth planet / (energyGroMultiplier upgrade / 100)
      /\ range (applyUpgrade planet upgrade true)
         = range planet / (rangeMultiplier upgrade / 100)
      /\ defense (applyUpgrade planet upgrade true)
         = defense planet / (defMultiplier upgrade / 100))
  /\ energyCap (updatePlanetToTime planet arts t cc) = energyCap planet
  /\ (lastUpdated planet * 1000 <= t ->
      find (isActivePhotoid cc t) arts = Some a ->
      localPhotoidUpgrade planet = None ->
      updatePlanetToTime planet arts t cc
      = applyUpgrade
          (set_localPhotoidUpgrade (Some (Artifact.timeDelayedUpgrade a))
             (extrapolated planet t))
          (Artifact.timeDelayedUpgrade a) false).
Proof.
  repeat split.
  - apply updatePlanetToTime_frame.
  - intros Ht Hfind Hnone. unfold updatePlanetToTime.
    apply Qltb_false in Ht. rewrite Ht. cbn zeta. rewrite Hfind.
    cbn. rewrite Hnone. reflexivity.
Qed.

(** C7: an unowned territory (owner the empty-address sentinel) does not
    grow: [getSilverOverTime] returns the stored silver and
    [getEnergyAtTime] the stored energy (the literal [0] when the stored
    energy is [=== 0]), for every target time. *)
Theorem unowned_territory_keeps_its_resources (planet : Planet)
    (startTimeMillis endTimeMillis atTimeMillis : Q) :
  owner planet = EMPTY_ADDRESS ->
  getSilverOverTime planet startTimeMillis endTimeMillis = silver planet
  /\ getEnergyAtTime planet atTimeMillis == energy planet.
Proof.
  intros Hown. apply hasOwner_false in Hown. split.
  - unfold getSilverOverTime. now rewrite Hown.
  - unfold getEnergyAtTime. rewrite Hown.
    destruct (energy planet === 0) eqn:E; [|reflexivity].
    apply Qeq_bool_eq in E. now symmetry.
Qed.

(** What [arrive] returns once the destination matches. *)
Lemma arrive_wrong_destination (planet : Planet) (arts : list Artifact.t)
    (a : QueuedArrival.t) (cc : ContractConstants) :
  locationId planet <> QueuedArrival.toPlanet a ->
  exists msg, arrive planet arts a cc = Throw msg.
Proof.
  intros H. unfold arrive.
  apply String.eqb_neq in H. rewrite H. cbn. eauto.
Qed.

Lemma arrive_returns (planet : Planet) (arts : list Artifact.t)
    (a : QueuedArrival.t) (cc : ContractConstants) :
  locationId planet = QueuedArrival.toPlanet a ->
  exists d, arrive planet arts a cc = Ok d
    /\ arrival d = a
    /\ previous d = updatePlanetToTime planet arts (QueuedArrival.arrivalTime a * 1000) cc.
Proof.
  intros H. unfold arrive.
  apply String.eqb_eq in H. rewrite H. cbn [negb].
  destruct (destroyed _); eexists; repeat split.
Qed.

(** [arrive] is its four steps, one after the other. *)
Lemma arrive_steps (planet : Planet) (arts : list Artifact.t)
    (a : QueuedArrival.t) (cc : ContractConstants) :
  arrive planet arts a cc
  = if negb (String.eqb (locationId planet) (QueuedArrival.toPlanet a)) then
      Throw ("attempted to apply arrival for wrong toPlanet " ++ locationId planet)
    else
      let p := updatePlanetToTime planet arts (QueuedArrival.arrivalTime a * 1000) cc in
      if destroyed p then Ok {| arrival := a; previous := p; current := p |}
      else
        Ok {| arrival := a;
              current := transferArtifact a (applySilver a (clampSilverBank (applyEnergy cc a p)));
              previous := p |}.
Proof. reflexivity. Qed.

Lemma applyEnergy_frame cc a p :
  untouchedByArrive (applyEnergy cc a p) = untouchedByArrive p
  /\ silver (applyEnergy cc a p) = silver p.
Proof. unfold applyEnergy. cbn zeta. case_steps; split; reflexivity. Qed.

Lemma clampSilverBank_frame p :
  untouchedByArrive (clampSilverBank p) = untouchedByArrive p
  /\ silver (clampSilverBank p) = silver p
  /\ owner (clampSilverBank p) = owner p
  /\ destroyed (clampSilverBank p) = destroyed p.
Proof. unfold clampSilverBank. case_steps; repeat split. Qed.

Lemma applySilver_frame a p :
  untouchedByArrive (applySilver a p) = untouchedByArrive p
  /\ energy (applySilver a p) = energy p
  /\ owner (applySilver a p) = owner p
  /\ destroyed (applySilver a p) = destroyed p.
Proof. unfold applySilver. case_steps; repeat split. Qed.

Lemma transferArtifact_frame a p :
  untouchedByArrive (transferArtifact a p) = untouchedByArrive p
  /\ energy (transferArtifact a p) = energy p
  /\ silver (transferArtifact a p) = silver p
  /\ owner (transferArtifact a p) = owner p
  /\ destroyed (transferArtifact a p) = destroyed p.
Proof. unfold transferArtifact. case_steps; repeat split. Qed.

(** What [arrive] leaves as [updatePlanetToTime] made it. *)
Lemma arrive_frame (planet : Planet) (arts : list Artifact.t)
    (a : QueuedArrival.t) (cc : ContractConstants) (d : PlanetDiff) :
  arrive planet arts a cc = Ok d ->
  untouchedByArrive (current d)
  = untouchedByArrive
      (updatePlanetToTime planet arts (QueuedArrival.arrivalTime a * 1000) cc).
Proof.
  rewrite arrive_steps.
  destruct (negb _); [discriminate|]. cbn zeta.
  destruct (destroyed _); intros [= <-]; [reflexivity|].
  cbn [current].
  rewrite (proj1 (transferArtifact_frame _ _)), (proj1 (applySilver_frame _ _)),
    (proj1 (clampSilverBank_frame _)).
  apply applyEnergy_frame.
Qed.



(** [updatePlanetToTime] does not read the [destroyed] flag. *)
Lemma updatePlanetToTime_ignores_destroyed (b : bool) (planet : Planet)
    (arts : list Artifact.t) (t : Q) (cc : ContractConstants) :
  updatePlanetToTime (set_destroyed b planet) arts t cc
  = set_destroyed b (updatePlanetToTime planet arts t cc).
Proof.
  unfold updatePlanetToTime. cbn [lastUpdated set_destroyed].
  destruct (t <? lastUpdated planet * 1000); [reflexivity|].
  cbn zeta.
  destruct (find (isActivePhotoid cc t) arts) as [a|]; [|reflexivity].
  cbn [localPhotoidUpgrade set_lastUpdated set_energy set_silver set_destroyed].
  destruct (localPhotoidUpgrade planet); reflexivity.
Qed.

(** C3, as the code has it: on a destroyed territory [arrive] applies
    nothing of the arrival; its diff has the territory brought current to
    the arrival time as both [previous] and [current].  Neither operation
    changes the owner or clears the flag.  Energy and silver are
    extrapolated all the same: [updatePlanetToTime] computes them as it
    would were the flag not set. *)
Theorem destroyed_planet_absorbs_no_arrival (planet : Planet) (arts : list Artifact.t)
    (a : QueuedArrival.t) (t : Q) (cc : ContractConstants) :
  destroyed planet = true ->
  (locationId planet = QueuedArrival.toPlanet a ->
   let p := updatePlanetToTime planet arts (QueuedArrival.arrivalTime a * 1000) cc in
   arrive planet arts a cc = Ok {| previous := p; current := p; arrival := a |})
  /\ owner (updatePlanetToTime planet arts t cc) = owner planet
  /\ destroyed (updatePlanetToTime planet arts t cc) = true
  /\ energy (updatePlanetToTime planet arts t cc)
     = energy (updatePlanetToTime (set_destroyed false planet) arts t cc)
  /\ silver (updatePlanetToTime planet arts t cc)
     = silver (updatePlanetToTime (set_destroyed false planet) arts t cc).
Proof.
  intros Hd.
  destruct (updatePlanetToTime_frame planet arts t cc) as (Ho & Hdes & _).
  repeat split.
  - intros Hid p. rewrite arrive_steps.
    apply String.eqb_eq in Hid. rewrite Hid. cbn [negb]. cbn zeta. fold p.
    destruct (updatePlanetToTime_frame planet arts
                (QueuedArrival.arrivalTime a * 1000) cc) as (_ & Hdes' & _).
    fold p in Hdes'. rewrite Hdes', Hd. reflexivity.
  - exact Ho.
  - now rewrite Hdes.
  - now rewrite updatePlanetToTime_ignores_destroyed.
  - now rewrite updatePlanetToTime_ignores_destroyed.
Qed.

Lemma step_lastUpdated (cc : ContractConstants) (planet : Planet) (op : Operation) :
  lastUpdated planet <= lastUpdated (step cc planet op).
Proof.
  destruct op as [arts t | arts a]; cbn [step].
  - apply updatePlanetToTime_lastUpdated.
  - destruct (arrive planet arts a cc) as [d|] eqn:E; [|apply Qle_refl].
    apply arrive_frame in E. injection E as E _. rewrite E.
    apply updatePlanetToTime_lastUpdated.
Qed.

(** C6: [lastUpdated] never decreases, over one call of
    [updatePlanetToTime] and along any sequence of operations; a call
    whose target time lies strictly before [lastUpdated] returns the
    planet as it was, without reaching [setPlanet]. *)
Theorem lastUpdated_never_decreases (cc : ContractConstants) (planet : Planet)
    (arts : list Artifact.t) (t : Q) (ops : list Operation) :
  lastUpdated planet <= lastUpdated (updatePlanetToTime planet arts t cc)
  /\ (t < lastUpdated planet * 1000 ->
      updatePlanetToTime planet arts t cc = planet
      /\ updatePlanetToTime_commits planet t = false)
  /\ Sorted Qle (List.map lastUpdated (planet :: trace cc planet ops)).
Proof.
  split; [apply updatePlanetToTime_lastUpdated|].
  split.
  { intros H. split; [now apply updatePlanetToTime_early|].
    unfold updatePlanetToTime_commits. apply Qltb_true in H. now rewrite H. }
  revert planet. induction ops as [|op ops IH]; intros planet; cbn.
  - repeat constructor.
  - constructor; [apply IH|].
    constructor. apply step_lastUpdated.
Qed.

End ResourceModel.
(** ** The cap invariant *)

Section CapInvariant.
Context {ext : Externals}.

(** The logistic curve stays positive, and below its asymptote when it
    starts below it: [e] is the value of [Math.exp]. *)
Lemma logistic_bounds (cap E e : Q) :
  0 < cap -> 0 < E -> 0 <= e <= 1 ->
  0 <= cap / (e * (cap / E - 1) + 1)
  /\ (E <= cap -> cap / (e * (cap / E - 1) + 1) <= cap).
Proof.
  intros Hcap HE [He0 He1].
  assert (Hr : 0 < cap / E) by (apply Qlt_shift_div_l; lra).
  set (r := cap / E) in *.
  assert (Hd : 0 < e * (r - 1) + 1).
  { destruct (Qlt_le_dec r 1) as [Hlt|Hge].
    - assert (0 <= (1 - e) * (1 - r)) by (apply Qmult_le_0_compat; lra). lra.
    - assert (0 <= e * (r - 1)) by (apply Qmult_le_0_compat; lra). lra. }
  split.
  - apply Qle_shift_div_l; lra.
  - intros Hle.
    assert (Hr1 : 1 <= r) by (apply Qle_shift_div_l; lra).
    assert (0 <= e * (r - 1)) by (apply Qmult_le_0_compat; lra).
    assert (0 <= cap * (e * (r - 1))) by (apply Qmult_le_0_compat; lra).
    apply Qle_shift_div_r; [exact Hd | lra].
Qed.

Lemma elapsed_nonneg (t lu : Q) : lu * 1000 <= t -> 0 <= t / 1000 - lu.
Proof.
  intros H. assert (lu <= t / 1000) by (apply Qle_shift_div_l; lra). lra.
Qed.

Lemma getEnergyAtTime_bounds (planet : Planet) (t : Q) :
  exp_bounded -> statsOk planet -> 0 <= energy planet ->
  lastUpdated planet * 1000 <= t ->
  0 <= getEnergyAtTime planet t
  /\ (energy planet <= energyCap planet -> getEnergyAtTime planet t <= energyCap planet).
Proof.
  intros Hexp (Hcap & Hgro & _ & _) HE Ht. unfold getEnergyAtTime.
  destruct (energy planet === 0) eqn:E0; [split; intros; lra|].
  apply Qeq_bool_neq in E0.
  destruct (negb (hasOwner planet)); [split; intros; lra|].
  destruct (_ && _) eqn:Hbank; [split; intros; lra|].
  cbn zeta.
  apply logistic_bounds; [exact Hcap | lra |].
  apply Hexp.
  apply Qle_shift_div_r; [exact Hcap|].
  pose proof (elapsed_nonneg _ _ Ht). nra.
Qed.

Lemma getSilverOverTime_bounds (planet : Planet) (startTimeMillis endTimeMillis : Q) :
  0 <= silverGrowth planet -> 0 <= silver planet <= silverCap planet ->
  startTimeMillis <= endTimeMillis ->
  0 <= getSilverOverTime planet startTimeMillis endTimeMillis <= silverCap planet.
Proof.
  intros Hgro [Hs0 Hs1] Ht. unfold getSilverOverTime.
  destruct (negb (hasOwner planet)); [lra|].
  destruct (silver planet >? silverCap planet); [lra|].
  cbn zeta. unfold Math_min.
  assert (Hel : 0 <= endTimeMillis / 1000 - startTimeMillis / 1000).
  { unfold Qdiv. change (/ 1000) with (1 # 1000). lra. }
  split.
  - apply Q.min_glb; [nra | lra].
  - apply Q.le_min_r.
Qed.

Lemma applyUpgrade_statsOk (planet : Planet) (a : Artifact.t) :
  upgradeOk a -> statsOk planet ->
  statsOk (applyUpgrade planet (Artifact.timeDelayedUpgrade a) false).
Proof.
  intros [Hg Hd] (Hcap & Hgro & Hsil & Hdef).
  unfold statsOk. cbn.
  unfold Qdiv. change (/ 100) with (1 # 100).
  repeat split; try assumption; nra.
Qed.

Lemma find_Forall {A : Type} (P : A -> Prop) (f : A -> bool) (l : list A) (x : A) :
  Forall P l -> find f l = Some x -> P x.
Proof.
  intros HP Hf. apply List.find_some in Hf as [Hin _].
  rewrite List.Forall_forall in HP. now apply HP.
Qed.

(** One call of [updatePlanetToTime] keeps the statistics sound, the
    resources in range, and the energy below its cap if it was. *)
Lemma updatePlanetToTime_keeps (planet : Planet) (arts : list Artifact.t) (t : Q)
    (cc : ContractConstants) :
  exp_bounded -> Forall upgradeOk arts -> statsOk planet -> resourcesInRange planet ->
  let planet' := updatePlanetToTime planet arts t cc in
  statsOk planet' /\ resourcesInRange planet'
  /\ (energy planet <= energyCap planet -> energy planet' <= energyCap planet').
Proof.
  intros Hexp Harts Hstats [HE HS]. unfold updatePlanetToTime.
  destruct (t <? lastUpdated planet * 1000) eqn:Hlt.
  { cbn zeta. split; [exact Hstats|]. split; [split; assumption|]. intros; assumption. }
  apply Qltb_false in Hlt. cbn zeta.
  destruct (getEnergyAtTime_bounds planet t Hexp Hstats HE Hlt) as [He0 He1].
  assert (Hsil : 0 <= getSilverOverTime planet (lastUpdated planet * 1000) t
                 <= silverCap planet).
  { apply getSilverOverTime_bounds; [apply Hstats | exact HS | exact Hlt]. }
  destruct (find (isActivePhotoid cc t) arts) as [a|] eqn:Hfind;
    [cbn [localPhotoidUpgrade set_lastUpdated set_energy set_silver];
     destruct (localPhotoidUpgrade planet) as [u|]|].
  2: { split.
       - apply (applyUpgrade_statsOk _ a); [eapply find_Forall; eassumption|].
         exact Hstats.
       - split; [split; [exact He0 | exact Hsil]|]. exact He1. }
  all: split; [exact Hstats|]; split; [split; [exact He0 | exact Hsil]|]; exact He1.
Qed.

(** The garrison a conquest pays for never exceeds what arrives. *)
Lemma conquest_remainder_nonneg (A E D : Q) :
  0 <= E -> 0 < D -> E <= effectiveDamage A D ->
  0 <= A - Math_floor ((E * CONTRACT_PRECISION * D) / 100) / CONTRACT_PRECISION.
Proof.
  unfold effectiveDamage, CONTRACT_PRECISION. intros HE HD Hle.
  pose proof (Math_floor_le (A * 1000 * 100 / D)) as HX.
  pose proof (Math_floor_le (E * 1000 * D / 100)) as HY.
  assert (HXD : A * 1000 * 100 / D * D == A * 1000 * 100)
    by (field; intros H0; rewrite H0 in HD; lra).
  set (X := A * 1000 * 100 / D) in *.
  revert Hle HY. unfold Qdiv. change (/ 1000) with (1 # 1000).
  change (/ 100) with (1 # 100). intros Hle HY.
  assert (HED : E * 1000 * D <= X * D) by (apply Qmult_le_compat_r; lra).
  lra.
Qed.

Lemma applyEnergy_nonneg (cc : ContractConstants) (a : QueuedArrival.t) (p : Planet) :
  0 <= energy p -> 0 < defense p -> 0 <= QueuedArrival.energyArriving a ->
  0 <= energy (applyEnergy cc a p).
Proof.
  intros HE HD HA. unfold applyEnergy. cbn zeta.
  destruct (negb _).
  - destruct (energy p >? _) eqn:Hgt.
    + apply Qgtb_true in Hgt. cbn. lra.
    + apply Qgtb_false in Hgt.
      pose proof (conquest_remainder_nonneg _ _ _ HE HD Hgt).
      case_steps; cbn; assumption.
  - cbn. lra.
Qed.

Lemma clampSilverBank_energy (p : Planet) :
  0 < energyCap p -> 0 <= energy p ->
  0 <= energy (clampSilverBank p)
  /\ (planetType p = SILVER_BANK -> energy (clampSilverBank p) <= energyCap p).
Proof.
  intros Hcap HE. unfold clampSilverBank.
  destruct (Nat.eqb (planetType p) SILVER_BANK) eqn:Hty; cbn [andb].
  - destruct (energy p >? energyCap p) eqn:Hgt; cbn.
    + split; intros; lra.
    + apply Qgtb_false in Hgt. split; intros; lra.
  - split; [exact HE|]. intros Hb. rewrite Hb in Hty. discriminate.
Qed.

Lemma applySilver_range (a : QueuedArrival.t) (p : Planet) :
  0 <= silver p <= silverCap p -> 0 <= QueuedArrival.silverMoved a ->
  0 <= silver (applySilver a p) <= silverCap p.
Proof.
  intros [H0 H1] Hm. unfold applySilver.
  destruct (_ >? _) eqn:Hgt; cbn.
  - lra.
  - apply Qgtb_false in Hgt. lra.
Qed.

Lemma untouched_stats (p q : Planet) :
  untouchedByArrive p = untouchedByArrive q ->
  energyCap p = energyCap q /\ silverCap p = silverCap q /\ planetType p = planetType q
  /\ (statsOk q -> statsOk p).
Proof.
  unfold untouchedByArrive, statsOk. intros [= _ -> -> -> -> -> ->]. tauto.
Qed.

(** One call of [arrive] keeps the statistics sound and the resources in
    range; on a silver bank it also keeps the energy below its cap. *)
Lemma arrive_keeps (planet : Planet) (arts : list Artifact.t) (a : QueuedArrival.t)
    (cc : ContractConstants) (d : PlanetDiff) :
  exp_bounded -> operationOk (Arrive arts a) -> statsOk planet -> resourcesInRange planet ->
  arrive planet arts a cc = Ok d ->
  statsOk (current d) /\ resourcesInRange (current d)
  /\ (planetType planet = SILVER_BANK -> energy planet <= energyCap planet ->
      energy (current d) <= energyCap (current d)).
Proof.
  intros Hexp (Harts & HA & HM) Hstats Hrange.
  pose proof (updatePlanetToTime_keeps planet arts
                (QueuedArrival.arrivalTime a * 1000) cc Hexp Harts Hstats Hrange) as Hup.
  destruct (updatePlanetToTime_frame planet arts
              (QueuedArrival.arrivalTime a * 1000) cc) as (_ & _ & _ & _ & _ & Hty & _).
  rewrite arrive_steps. destruct (negb _); [discriminate|]. cbn zeta in *.
  set (p := updatePlanetToTime planet arts _ cc) in *.
  destruct Hup as (Hst & [HE HS] & Hcapd).
  destruct (destroyed p); intros [= <-]; cbn [current].
  { split; [exact Hst|]. split; [split; assumption|]. intros _. exact Hcapd. }
  destruct (applyEnergy_frame cc a p) as [F1 S1].
  destruct (clampSilverBank_frame (applyEnergy cc a p)) as (F2 & S2 & _).
  destruct (applySilver_frame a (clampSilverBank (applyEnergy cc a p))) as (F3 & E3 & _).
  destruct (transferArtifact_frame a
              (applySilver a (clampSilverBank (applyEnergy cc a p)))) as (F4 & E4 & S4 & _).
  assert (F : untouchedByArrive
                (transferArtifact a (applySilver a (clampSilverBank (applyEnergy cc a p))))
              = untouchedByArrive p) by congruence.
  destruct (untouched_stats _ _ F) as (Hc & Hsc & Hpt & Hso).
  destruct (untouched_stats _ _ F1) as (Hc1 & Hsc1 & Hpt1 & Hso1).
  destruct (untouched_stats _ _ (eq_trans F2 F1)) as (Hc2 & Hsc2 & _ & _).
  pose proof (applyEnergy_nonneg cc a p HE (proj2 (proj2 (proj2 Hst))) HA) as HE1.
  destruct (clampSilverBank_energy (applyEnergy cc a p)) as [HE2 Hbank];
    [rewrite Hc1; apply Hst | exact HE1 |].
  assert (HS3 : 0 <= silver (applySilver a (clampSilverBank (applyEnergy cc a p)))
                <= silverCap (clampSilverBank (applyEnergy cc a p))).
  { apply applySilver_range; [rewrite S2, S1, Hsc2; exact HS | exact HM]. }
  split; [exact (Hso Hst)|]. split.
  - split; [rewrite E4, E3; exact HE2|]. rewrite S4, Hsc, <- Hsc2. exact HS3.
  - intros Hb _. rewrite E4, E3, Hc, <- Hc1. apply Hbank. congruence.
Qed.

Lemma step_keeps (cc : ContractConstants) (planet : Planet) (op : Operation) :
  exp_bounded -> operationOk op -> statsOk planet -> resourcesInRange planet ->
  statsOk (step cc planet op) /\ resourcesInRange (step cc planet op)
  /\ planetType (step cc planet op) = planetType planet
  /\ (planetType planet = SILVER_BANK \/ (exists arts t, op = BringCurrent arts t) ->
      energy planet <= energyCap planet ->
      energy (step cc planet op) <= energyCap (step cc planet op)).
Proof.
  intros Hexp Hop Hstats Hrange. destruct op as [arts t | arts a]; cbn [step].
  - destruct (updatePlanetToTime_keeps planet arts t cc Hexp Hop Hstats Hrange)
      as (H1 & H2 & H3).
    destruct (updatePlanetToTime_frame planet arts t cc) as (_ & _ & _ & _ & _ & Hty & _).
    repeat split; try assumption; try apply H1; try apply H2.
    intros _. exact H3.
  - destruct (arrive planet arts a cc) as [d|] eqn:E.
    + destruct (arrive_keeps _ _ _ _ _ Hexp Hop Hstats Hrange E) as (H1 & H2 & H3).
      apply arrive_frame in E.
      destruct (updatePlanetToTime_frame planet arts
                  (QueuedArrival.arrivalTime a * 1000) cc)
        as (_ & _ & _ & _ & _ & Hty & _).
      destruct (untouched_stats _ _ E) as (_ & _ & Hpt & _).
      repeat split; try assumption; try apply H1; try apply H2.
      * congruence.
      * intros [Hb | (arts' & t' & Heq)]; [now apply H3 | discriminate].
    + repeat split; try assumption; try apply Hstats; try apply Hrange.
      intros _ H. exact H.
Qed.

Lemma withinCaps_iff (p : Planet) :
  withinCaps p <-> resourcesInRange p /\ energy p <= energyCap p.
Proof. unfold withinCaps, resourcesInRange. tauto. Qed.

Lemma trace_keeps (cc : ContractConstants) (ops : list Operation) :
  exp_bounded -> Forall operationOk ops ->
  forall planet, statsOk planet -> resourcesInRange planet ->
  Forall resourcesInRange (trace cc planet ops)
  /\ (planetType planet = SILVER_BANK \/ Forall isBringCurrent ops ->
      energy planet <= energyCap planet -> Forall withinCaps (trace cc planet ops)).
Proof.
  intros Hexp Hops. induction Hops as [|op ops Hop Hops IH]; intros planet Hst Hr; cbn.
  - split; intros; constructor.
  - destruct (step_keeps cc planet op Hexp Hop Hst Hr) as (Hst' & Hr' & Hty & Hcap).
    destruct (IH _ Hst' Hr') as [IH1 IH2].
    split; [constructor; assumption|].
    intros Hkind Hle.
    assert (Hle' : energy (step cc planet op) <= energyCap (step cc planet op)).
    { apply Hcap; [|exact Hle].
      destruct Hkind as [Hb | Hall]; [now left | right].
      inversion Hall as [|? ? Hbc _]; subst.
      destruct op as [arts t|]; [eauto | contradiction]. }
    constructor; [apply withinCaps_iff; split; assumption|].
    apply IH2; [|exact Hle'].
    destruct Hkind as [Hb | Hall]; [left; congruence | right].
    now inversion Hall.
Qed.

(** C2, as the code has it: along any sequence of extrapolations and
    arrival resolutions on a territory with sound statistics, energy stays
    non-negative and silver stays between 0 and [silverCap]; energy stays
    at most [energyCap] when the sequence only extrapolates or the
    territory is a silver bank (the one type [arrive] clamps). *)
Theorem cap_invariant_as_implemented (cc : ContractConstants) (planet : Planet)
    (ops : list Operation) :
  exp_bounded -> statsOk planet -> Forall operationOk ops ->
  (resourcesInRange planet -> Forall resourcesInRange (trace cc planet ops))
  /\ (planetType planet = SILVER_BANK \/ Forall isBringCurrent ops ->
      withinCaps planet -> Forall withinCaps (trace cc planet ops)).
Proof.
  intros Hexp Hst Hops. split.
  - intros Hr. now apply trace_keeps.
  - intros Hkind Hw. apply withinCaps_iff in Hw as [Hr Hle].
    now apply trace_keeps.
Qed.

End CapInvariant.

(** ** Procedural generation *)

Section ProcgenProps.
Context {ext : Externals}.

(** C5, as the code has it: for a fixed location (hash and noise
    samples) and ruleset, [defaultPlanetFromLocation] yields the same
    planet whenever and in whatever store it runs, except for two
    fields: [lastUpdated], the clock reading [floor(Date.now() / 1000)],
    and [isInContract], whether the id is in the store's touched set.
    Level, type, space type and biome are functions of the location and
    the ruleset alone. *)
Theorem defaultPlanetFromLocation_deterministic_up_to_clock (cc : ContractConstants)
    (location : WorldLocation.t) (touched1 touched2 : gset LocationId) (now1 now2 : Q) :
  Result_map withoutClock (defaultPlanetFromLocation cc touched1 now1 location)
  = Result_map withoutClock (defaultPlanetFromLocation cc touched2 now2 location)
  /\ (forall p, defaultPlanetFromLocation cc touched1 now1 location = Ok p ->
        lastUpdated p = Math_floor (now1 / 1000)
        /\ isInContract p = bool_decide (WorldLocation.hash location ∈ touched1)
        /\ planetLevel p
           = planetLevelFromHexPerlin cc (WorldLocation.hash location)
               (WorldLocation.perlin location)
        /\ planetTypeFromHexPerlin cc (WorldLocation.hash location)
             (WorldLocation.perlin location) = Ok (planetType p)
        /\ spaceType p = spaceTypeFromPerlin cc (WorldLocation.perlin location)
        /\ biome p = Some (getBiome cc location)
        /\ bonus p = bonusFromHex (WorldLocation.hash location)).
Proof.
  unfold defaultPlanetFromLocation.
  destruct (planetTypeFromHexPerlin cc _ _) as [planetType|msg]; cbn [Result_map].
  - split; [reflexivity|]. intros p [= <-]. repeat split.
  - split; [reflexivity|]. intros p H. discriminate.
Qed.

End ProcgenProps.

(** ** The artifact funnel *)

Section FunnelProps.
Context {ext : Externals}.

Lemma wormholes_setObjectSyncState (artifact : Artifact.t) (s : GameObjects) :
  wormholes
    (let '(objectMap, myObjectMap, myObjListChanged) :=
       setObjectSyncState (artifacts s) (myArtifacts s) (address s)
         getArtifactId getArtifactOwner artifact in
     let s := set_myArtifacts myObjectMap (set_artifacts objectMap s) in
     let s := publish (ArtifactUpdated (getArtifactId artifact)) s in
     if myObjListChanged then publish MyArtifactsUpdated s else s)
  = wormholes s.
Proof.
  unfold setObjectSyncState.
  repeat case_bool_decide; reflexivity.
Qed.

(** The wormhole map after [setArtifact], case by case. *)
Lemma wormholes_setArtifact (artifact : Artifact.t) (s : GameObjects) :
  wormholes (setArtifact artifact s)
  = match ArtifactType.eqb (Artifact.artifactType artifact) ArtifactType.Wormhole,
          truthy (Artifact.onPlanetId artifact) with
    | true, Some onPlanetId =>
        match truthy (Artifact.wormholeTo artifact) with
        | Some wormholeTo =>
            if isActivated artifact then
              <[Artifact.id artifact := {| from := onPlanetId; to := wormholeTo |}]>
                (wormholes s)
            else delete (Artifact.id artifact) (wormholes s)
        | None => delete (Artifact.id artifact) (wormholes s)
        end
    | _, _ => wormholes s
    end.
Proof.
  unfold setArtifact. rewrite wormholes_setObjectSyncState.
  destruct (ArtifactType.eqb _ _); [|reflexivity].
  destruct (truthy (Artifact.onPlanetId artifact)); [|reflexivity].
  destruct (truthy (Artifact.wormholeTo artifact)); [|reflexivity].
  destruct (isActivated artifact); reflexivity.
Qed.

(** C4, as the code has it: committing a wormhole-type artifact that is
    placed on a planet recomputes its entry of the wormhole map, which
    is then present exactly when the artifact has a [wormholeTo] target
    and is activated, and links the two planets; entries of other
    artifacts are untouched.  Committing one that is on no planet leaves
    the whole map as it was. *)
Theorem setArtifact_recomputes_wormhole (artifact : Artifact.t) (s : GameObjects) :
  Artifact.artifactType artifact = ArtifactType.Wormhole ->
  match truthy (Artifact.onPlanetId artifact) with
  | Some onPlanetId =>
      wormholes (setArtifact artifact s) !! Artifact.id artifact
      = (if isActivated artifact
         then (fun wormholeTo => {| from := onPlanetId; to := wormholeTo |})
                <$> truthy (Artifact.wormholeTo artifact)
         else None)
      /\ (forall other, other <> Artifact.id artifact ->
            wormholes (setArtifact artifact s) !! other = wormholes s !! other)
  | None => wormholes (setArtifact artifact s) = wormholes s
  end.
Proof.
  intros Hty. rewrite wormholes_setArtifact, Hty. cbn [ArtifactType.eqb].
  destruct (truthy (Artifact.onPlanetId artifact)) as [onPlanetId|]; [|reflexivity].
  destruct (truthy (Artifact.wormholeTo artifact)) as [wormholeTo|];
    [destruct (isActivated artifact)|]; cbn [fmap option_fmap option_map].
  - split; [apply lookup_insert_eq|]. intros other Hne. now apply lookup_insert_ne.
  - split; [apply lookup_delete_eq|]. intros other Hne. now apply lookup_delete_ne.
  - split; [destruct (isActivated artifact); apply lookup_delete_eq|].
    intros other Hne. now apply lookup_delete_ne.
Qed.

End FunnelProps.

(** ** The store *)

Section StoreProps.
Context {ext : Externals}.

(** *** What each method leaves alone *)

Lemma scheduling_eq (s s' : GameObjects) :
  scheduling s' = scheduling s ->
  arrivals s' = arrivals s /\ planetArrivalIds s' = planetArrivalIds s
  /\ timers s' = timers s /\ nextTimer s' = nextTimer s.
Proof. unfold scheduling. intros [= -> -> -> ->]. repeat split. Qed.

Lemma setPlanet_planets (planet : Planet) (s : GameObjects) :
  planets (setPlanet planet s) = <[locationId planet := planet]> (planets s).
Proof.
  unfold setPlanet, setObjectSyncState, insertPlanet.
  destruct (location planet); repeat case_bool_decide; reflexivity.
Qed.

Lemma setPlanet_frame (planet : Planet) (s : GameObjects) :
  scheduling (setPlanet planet s) = scheduling s
  /\ contractConstants (setPlanet planet s) = contractConstants s
  /\ planetLocationMap (setPlanet planet s) = planetLocationMap s.
Proof.
  unfold setPlanet, setObjectSyncState, insertPlanet.
  destruct (location planet); repeat case_bool_decide; repeat split.
Qed.

Lemma updateScore_planets (planetId : LocationId) (s : GameObjects) :
  planets (updateScore planetId s)
  = alter (fun planet => set_silverSpent (calculateSilverSpent planet) planet) planetId
      (planets s).
Proof.
  unfold updateScore. destruct (planets s !! planetId) as [planet|] eqn:E; cbn.
  - apply map_eq. intros k. rewrite !lookup_alter.
    case_decide as Hk; [|reflexivity]. subst. rewrite E. reflexivity.
  - symmetry. apply map_eq. intros k. rewrite lookup_alter.
    case_decide as Hk; [|reflexivity]. subst. rewrite E. reflexivity.
Qed.

Lemma updateScore_scheduling (planetId : LocationId) (s : GameObjects) :
  scheduling (updateScore planetId s) = scheduling s.
Proof. unfold updateScore. destruct (planets s !! planetId); reflexivity. Qed.

Lemma updatePlanetIfStale_scheduling (now : Q) (key : LocationId) (planet : Planet)
    (s : GameObjects) :
  scheduling (updatePlanetIfStale now key planet s).2 = scheduling s.
Proof.
  unfold updatePlanetIfStale.
  destruct (_ >? 1); [|reflexivity]. cbn zeta.
  destruct (updatePlanetToTime_commits planet now); cbn [snd].
  - rewrite (proj1 (setPlanet_frame _ _)). reflexivity.
  - reflexivity.
Qed.

Lemma getPlanetWithLocation_scheduling (now : Q) (location : WorldLocation.t)
    (s : GameObjects) (r : Planet * GameObjects) :
  getPlanetWithLocation now location s = Ok r -> scheduling r.2 = scheduling s.
Proof.
  unfold getPlanetWithLocation.
  destruct (planets s !! WorldLocation.hash location) as [planet|].
  - intros [= <-]. apply updatePlanetIfStale_scheduling.
  - destruct (defaultPlanetFromLocation _ _ _ _) as [p|]; cbn; [|discriminate].
    intros [= <-]. cbn [snd]. apply setPlanet_frame.
Qed.

Lemma getPlanetWithId_scheduling (now : Q) (planetId : LocationId) (updateIfStale : bool)
    (s : GameObjects) (r : option Planet * GameObjects) :
  getPlanetWithId now planetId updateIfStale s = Ok r -> scheduling r.2 = scheduling s.
Proof.
  unfold getPlanetWithId.
  destruct (planets s !! planetId) as [planet|].
  - destruct updateIfStale.
    + pose proof (updatePlanetIfStale_scheduling now planetId planet s) as H.
      destruct (updatePlanetIfStale now planetId planet s) as [p' s'].
      intros [= <-]. exact H.
    + intros [= <-]. reflexivity.
  - destruct (getLocationOfPlanet planetId s) as [loc|]; [|intros [= <-]; reflexivity].
    destruct (getPlanetWithLocation now loc s) as [[p' s']|] eqn:E; cbn; [|discriminate].
    intros [= <-]. exact (getPlanetWithLocation_scheduling _ _ _ _ E).
Qed.

Lemma addPlanetLocation_scheduling (now : Q) (planetLocation : WorldLocation.t)
    (s s' : GameObjects) :
  addPlanetLocation now planetLocation s = Ok s' -> scheduling s' = scheduling s.
Proof.
  unfold addPlanetLocation. cbn zeta.
  destruct (getPlanetWithId now _ false s) as [[known s1]|] eqn:E1; cbn; [|discriminate].
  apply getPlanetWithId_scheduling in E1. cbn [snd] in E1. rewrite <- E1.
  match goal with
  | |- context [insertPlanet planetLocation ?l s1] => generalize l; intros level
  end.
  destruct (coordsToLocation _ !! _);
    (destruct (planets _ !! _);
     [cbn; intros [= <-]; reflexivity|];
     destruct (defaultPlanetFromLocation _ _ _ _) as [p|]; cbn; [|discriminate];
     intros [= <-];
     change (scheduling (mutatePlanet ?k ?f ?x)) with (scheduling x);
     rewrite (proj1 (setPlanet_frame _ _)); reflexivity).
Qed.

Lemma fold_left_invariant {A B : Type} (P : B -> Prop) (f : B -> A -> B) (l : list A) :
  (forall b a, P b -> P (f b a)) -> forall b, P b -> P (fold_left f l b).
Proof.
  intros Hstep. induction l as [|a l IH]; intros b Hb; cbn; [exact Hb|].
  apply IH, Hstep, Hb.
Qed.

Lemma emitArrivalNotifications_frame (diff : PlanetDiff) (s s' : GameObjects) :
  emitArrivalNotifications diff s = Ok s' ->
  planets s' = planets s /\ scheduling s' = scheduling s.
Proof.
  unfold emitArrivalNotifications. cbn zeta.
  destruct (planetCanUpgrade (previous diff)) as [previousCan|]; cbn; [|discriminate].
  destruct (if previousCan then Ok false else planetCanUpgrade (current diff))
    as [currentCan|]; cbn; [|discriminate].
  intros [= <-].
  repeat match goal with
         | |- context [if ?b then _ else _] => destruct b
         end; split; reflexivity.
Qed.

(** *** Cancelling the arrivals of a planet *)

Lemma clearOldArrival_frame (s : GameObjects) (arrivalId : VoyageId) :
  arrivals (clearOldArrival s arrivalId) = delete arrivalId (arrivals s)
  /\ timers (clearOldArrival s arrivalId)
     = match arrivals s !! arrivalId with
       | Some awt => delete (timer awt) (timers s)
       | None => timers s
       end
  /\ nextTimer (clearOldArrival s arrivalId) = nextTimer s
  /\ planetArrivalIds (clearOldArrival s arrivalId) = planetArrivalIds s
  /\ planets (clearOldArrival s arrivalId) = planets s.
Proof.
  unfold clearOldArrival. destruct (arrivals s !! arrivalId); repeat split.
Qed.

Lemma clearOldArrival_timers_None (s : GameObjects) (arrivalId : VoyageId) (h : nat) :
  timers s !! h = None -> timers (clearOldArrival s arrivalId) !! h = None.
Proof.
  intros H. rewrite (proj1 (proj2 (clearOldArrival_frame s arrivalId))).
  destruct (arrivals s !! arrivalId); [|exact H].
  rewrite lookup_delete. case_decide; [reflexivity | exact H].
Qed.

Lemma clearOldArrivals_fold (ids : list VoyageId) (s : GameObjects) :
  arrivals (fold_left clearOldArrival ids s)
  = strikeArrivals ids (arrivals s)
  /\ nextTimer (fold_left clearOldArrival ids s) = nextTimer s
  /\ planetArrivalIds (fold_left clearOldArrival ids s) = planetArrivalIds s
  /\ planets (fold_left clearOldArrival ids s) = planets s
  /\ (forall h, timers s !! h = None ->
        timers (fold_left clearOldArrival ids s) !! h = None).
Proof.
  revert s. induction ids as [|id ids IH]; intros s; cbn; [repeat split; auto|].
  destruct (IH (clearOldArrival s id)) as (H1 & H2 & H3 & H4 & H5).
  destruct (clearOldArrival_frame s id) as (F1 & _ & F3 & F4 & F5).
  rewrite H1, H2, H3, H4, F1, F3, F4, F5. repeat split.
  intros h Hh. apply H5. now apply clearOldArrival_timers_None.
Qed.

(** Every arrival filed under one of the ids has its timer cleared. *)
Lemma clearOldArrivals_cancels (ids : list VoyageId) (s : GameObjects) (id : VoyageId)
    (awt : ArrivalWithTimer) :
  id ∈ ids -> arrivals s !! id = Some awt ->
  timers (fold_left clearOldArrival ids s) !! timer awt = None.
Proof.
  revert s. induction ids as [|i ids IH]; intros s Hin Hawt; [now apply elem_of_nil in Hin|].
  cbn. destruct (decide (i = id)) as [->|Hne].
  - apply clearOldArrivals_fold.
    rewrite (proj1 (proj2 (clearOldArrival_frame s id))), Hawt.
    apply lookup_delete_eq.
  - apply elem_of_cons in Hin as [->|Hin]; [contradiction|].
    apply IH; [exact Hin|].
    rewrite (proj1 (clearOldArrival_frame s i)).
    now rewrite lookup_delete_ne.
Qed.

Lemma fold_delete_lookup (ids : list VoyageId) (m : gmap VoyageId ArrivalWithTimer)
    (id : VoyageId) :
  strikeArrivals ids m !! id
  = if bool_decide (id ∈ ids) then None else m !! id.
Proof.
  revert m. induction ids as [|i ids IH]; intros m; cbn.
  - rewrite bool_decide_eq_false_2; [reflexivity | apply not_elem_of_nil].
  - rewrite IH. destruct (decide (i = id)) as [->|Hne].
    + rewrite lookup_delete_eq.
      rewrite (bool_decide_eq_true_2 (id ∈ id :: ids)) by (apply elem_of_cons; now left).
      now case_bool_decide.
    + rewrite lookup_delete_ne by exact Hne.
      destruct (decide (id ∈ ids)) as [Hin|Hnin].
      * rewrite !bool_decide_eq_true_2;
          [reflexivity | apply elem_of_cons; now right | exact Hin].
      * rewrite !bool_decide_eq_false_2; [reflexivity | | exact Hnin].
        intros [Heq|Hin]%elem_of_cons; [now apply Hne | now apply Hnin].
Qed.

Lemma clearOldArrivals_frame (planet : Planet) (s : GameObjects) :
  arrivals (clearOldArrivals planet s)
  = strikeArrivals (arrivalIdsOf (locationId planet) s) (arrivals s)
  /\ planetArrivalIds (clearOldArrivals planet s)
     = <[locationId planet := []]> (planetArrivalIds s)
  /\ nextTimer (clearOldArrivals planet s) = nextTimer s
  /\ planets (clearOldArrivals planet s) = planets s
  /\ (forall h, timers s !! h = None -> timers (clearOldArrivals planet s) !! h = None)
  /\ (forall id awt, id ∈ arrivalIdsOf (locationId planet) s ->
        arrivals s !! id = Some awt ->
        timers (clearOldArrivals planet s) !! timer awt = None).
Proof.
  unfold clearOldArrivals, arrivalIdsOf. cbn zeta.
  destruct (planetArrivalIds s !! locationId planet) as [ids|].
  - destruct (clearOldArrivals_fold ids s) as (H1 & H2 & H3 & H4 & H5).
    cbn. rewrite H1, H2, H3, H4. repeat split; [exact H5|].
    intros id awt Hin Hawt. exact (clearOldArrivals_cancels ids s id awt Hin Hawt).
  - cbn. repeat split; [auto|]. intros id awt Hin. now apply elem_of_nil in Hin.
Qed.

(** *** Processing the fresh arrivals *)

Lemma arrive_carries_over (planet : Planet) (arts : list Artifact.t)
    (a : QueuedArrival.t) (cc : ContractConstants) (d : PlanetDiff) :
  arrive planet arts a cc = Ok d ->
  pendingSlots (current d) = pendingSlots planet
  /\ localState (current d) = localState planet.
Proof.
  intros E. apply arrive_frame in E.
  destruct (updatePlanetToTime_frame planet arts
              (QueuedArrival.arrivalTime a * 1000) cc)
    as (_ & _ & _ & _ & _ & _ & _ & _ & Hp & Hl).
  pose proof (f_equal (fun t => snd (fst t)) E) as E1.
  pose proof (f_equal snd E) as E2. cbn in E1, E2.
  split; congruence.
Qed.

Lemma arrivalLoopInvariant_start (s0 : GameObjects) (planetId : LocationId) :
  arrivalLoopInvariant s0 planetId ([], s0).
Proof.
  unfold arrivalLoopInvariant. cbn [fst snd].
  repeat split; try reflexivity; try constructor.
  intros q0 H. exists q0. repeat split. exact H.
Qed.

(** A step that changes neither the planet map nor the scheduling state
    keeps the invariant. *)
Lemma arrivalLoopInvariant_frame (s0 s s' : GameObjects) (planetId : LocationId)
    (awts : list ArrivalWithTimer) :
  planets s' = planets s -> scheduling s' = scheduling s ->
  arrivalLoopInvariant s0 planetId (awts, s) ->
  arrivalLoopInvariant s0 planetId (awts, s').
Proof.
  unfold arrivalLoopInvariant, scheduling. cbn [fst snd].
  intros Hp [= Ha Hi Ht Hn]. rewrite Hp, Ha, Hi, Ht, Hn. auto.
Qed.

(** Replacing the planet by one with the same slots keeps it too. *)
Lemma arrivalLoopInvariant_mutate (s0 s : GameObjects) (planetId : LocationId)
    (awts : list ArrivalWithTimer) (planet planet' : Planet) :
  planets s !! planetId = Some planet ->
  pendingSlots planet' = pendingSlots planet -> localState planet' = localState planet ->
  arrivalLoopInvariant s0 planetId (awts, s) ->
  arrivalLoopInvariant s0 planetId (awts, mutatePlanet planetId (fun _ => planet') s).
Proof.
  unfold arrivalLoopInvariant. cbn [fst snd].
  intros Hpl Hps Hls (H1 & H2 & H3 & H4 & H5 & H6).
  repeat split; try assumption; try apply H3.
  intros q0 Hq0. destruct (H6 q0 Hq0) as (q & Hq & Hp & Hl).
  exists planet'. cbn [planets mutatePlanet set_planets set_myPlanets].
  rewrite lookup_alter. rewrite decide_True by reflexivity. rewrite Hpl. cbn.
  split; [reflexivity|]. rewrite Hq in Hpl. injection Hpl as ->. split; congruence.
Qed.

Lemma processArrival_keeps (s0 : GameObjects) (planetId : LocationId) (nowInSeconds : Q)
    (acc : list ArrivalWithTimer * GameObjects) (a : QueuedArrival.t) :
  arrivalLoopInvariant s0 planetId acc ->
  arrivalLoopInvariant s0 planetId (processArrival planetId nowInSeconds acc a).
Proof.
  destruct acc as [awts s]. intros Hinv. unfold processArrival.
  destruct (planets s !! planetId) as [planet|] eqn:Hpl; [|exact Hinv].
  destruct (_ >? 0).
  - destruct (arrive planet _ a _) as [diff|e] eqn:E.
    + destruct (arrive_carries_over _ _ _ _ _ E) as [Hp Hl].
      pose proof (arrivalLoopInvariant_mutate s0 s planetId awts planet (current diff)
                    Hpl Hp Hl Hinv) as Hinv'.
      destruct (emitArrivalNotifications diff _) as [s2|e] eqn:E2.
      * destruct (emitArrivalNotifications_frame _ _ _ E2) as [F1 F2].
        exact (arrivalLoopInvariant_frame _ _ _ _ _ F1 F2 Hinv').
      * exact (arrivalLoopInvariant_frame _ _ _ _ _ eq_refl eq_refl Hinv').
    + exact (arrivalLoopInvariant_frame _ _ _ _ _ eq_refl eq_refl Hinv).
  - unfold setTimeout. unfold arrivalLoopInvariant in *. cbn [fst snd] in *.
    destruct Hinv as (H1 & H2 & H3 & H4 & H5 & H6).
    cbn [arrivals planetArrivalIds nextTimer timers planets set_nextTimer set_timers].
    repeat split; try assumption.
    + lia.
    + intros h Hh. rewrite lookup_insert_ne by lia. now apply H4.
    + apply Forall_app. split.
      * eapply Forall_impl; [exact H5|]. cbn. intros awt [Hr Ht].
        split; [lia|]. rewrite lookup_insert_ne by lia. exact Ht.
      * constructor; [|constructor]. cbn [timer arrivalData].
        split; [lia|]. apply lookup_insert_eq.
Qed.

Lemma processArrivalsForPlanet_keeps (now : Q) (planetId : LocationId)
    (arrs : list QueuedArrival.t) (s0 : GameObjects) :
  arrivalLoopInvariant s0 planetId (processArrivalsForPlanet now planetId arrs s0).
Proof.
  unfold processArrivalsForPlanet.
  destruct (planets s0 !! planetId) as [planet|] eqn:Hpl.
  - cbn zeta.
    pose proof (fold_left_invariant (arrivalLoopInvariant s0 planetId)
                  (processArrival planetId (now / 1000)) (sortByArrivalTime arrs)
                  (processArrival_keeps s0 planetId (now / 1000)) _
                  (arrivalLoopInvariant_start s0 planetId)) as H.
    destruct (fold_left _ _ _) as [awts s].
    unfold arrivalLoopInvariant in *. cbn [fst snd] in *.
    destruct H as (H1 & H2 & H3 & H4 & H5 & H6).
    destruct (scheduling_eq _ _ (updateScore_scheduling planetId s)) as (Ha & Hi & Ht & Hn).
    rewrite Ha, Hi, Ht, Hn. repeat split; try assumption; try apply H3.
    intros q0 Hq0. destruct (H6 q0 Hq0) as (q & Hq & Hp & Hl).
    rewrite updateScore_planets, lookup_alter, decide_True by reflexivity.
    rewrite Hq. cbn. eexists. split; [reflexivity|]. split; assumption.
  - exact (arrivalLoopInvariant_frame _ _ _ _ _ eq_refl eq_refl
             (arrivalLoopInvariant_start s0 planetId)).
Qed.

Lemma installArrival_fold (planetId : LocationId) (awts : list ArrivalWithTimer)
    (s : GameObjects) (ids : list VoyageId) :
  planetArrivalIds s !! planetId = Some ids ->
  let s' := fold_left (installArrival planetId) awts s in
  arrivals s' = fileArrivals awts (arrivals s)
  /\ planetArrivalIds s' !! planetId
     = Some (ids ++ List.map (fun awt => QueuedArrival.eventId (arrivalData awt)) awts)
  /\ timers s' = timers s /\ nextTimer s' = nextTimer s /\ planets s' = planets s.
Proof.
  revert s ids. induction awts as [|awt awts IH]; intros s ids Hids; cbn.
  - rewrite app_nil_r. repeat split. exact Hids.
  - set (s1 := installArrival planetId s awt).
    assert (H1 : arrivals s1
                 = <[QueuedArrival.eventId (arrivalData awt) := awt]> (arrivals s)
                 /\ planetArrivalIds s1 !! planetId
                    = Some (ids ++ [QueuedArrival.eventId (arrivalData awt)])
                 /\ timers s1 = timers s /\ nextTimer s1 = nextTimer s
                 /\ planets s1 = planets s).
    { unfold s1, installArrival. cbn zeta.
      cbn [planetArrivalIds set_arrivals]. rewrite Hids. cbn.
      repeat split. apply lookup_insert_eq. }
    destruct H1 as (A1 & A2 & A3 & A4 & A5).
    destruct (IH s1 _ A2) as (B1 & B2 & B3 & B4 & B5).
    rewrite B1, B2, B3, B4, B5, A1, A3, A4, A5, <- app_assoc. repeat split.
Qed.

(** *** Reconciliation with ledger data *)

Lemma mergeWithLocal_locationId (s : GameObjects) (planet : Planet)
    (updatedArtifactsOnPlanet : option (list ArtifactId))
    (revealedLocation : option RevealedLocation.t) (claimerEthAddress : option EthAddress) :
  locationId
    (mergeWithLocal s planet updatedArtifactsOnPlanet revealedLocation claimerEthAddress)
  = locationId planet.
Proof.
  unfold mergeWithLocal. cbn zeta.
  destruct (planets s !! locationId planet), updatedArtifactsOnPlanet,
    revealedLocation, (truthy claimerEthAddress); cbn;
    destruct (planetLocationMap s !! locationId planet); reflexivity.
Qed.

Lemma mergeWithLocal_fields (s : GameObjects) (planet localPlanet : Planet)
    (updatedArtifactsOnPlanet : option (list ArtifactId))
    (revealedLocation : option RevealedLocation.t) (claimerEthAddress : option EthAddress) :
  planets s !! locationId planet = Some localPlanet ->
  let merged :=
    mergeWithLocal s planet updatedArtifactsOnPlanet revealedLocation claimerEthAddress in
  pendingSlots merged = pendingSlots localPlanet
  /\ localState merged = localState localPlanet
  /\ incomingFields merged = incomingFields planet
  /\ heldArtifactIds merged
     = match updatedArtifactsOnPlanet with
       | Some ids => ids
       | None => heldArtifactIds localPlanet
       end.
Proof.
  intros Hlocal. unfold mergeWithLocal. cbn zeta. rewrite Hlocal.
  destruct updatedArtifactsOnPlanet, revealedLocation, (truthy claimerEthAddress); cbn;
    destruct (planetLocationMap s !! locationId planet); repeat split.
Qed.

Lemma replacePlanetFromContractData_steps (now : Q) (planet : Planet)
    (updatedArrivals : option (list QueuedArrival.t))
    (updatedArtifactsOnPlanet : option (list ArtifactId))
    (revealedLocation : option RevealedLocation.t) (claimerEthAddress : option EthAddress)
    (s s' : GameObjects) :
  replacePlanetFromContractData now planet updatedArrivals updatedArtifactsOnPlanet
    revealedLocation claimerEthAddress s = Ok s' ->
  let merged :=
    mergeWithLocal (set_touchedPlanetIds ({[locationId planet]} ∪ touchedPlanetIds s) s)
      planet updatedArtifactsOnPlanet revealedLocation claimerEthAddress in
  exists s1,
    scheduling s1 = scheduling s
    /\ s' = updateScore (locationId merged)
              (afterArrivals now merged updatedArrivals (setPlanet merged s1)).
Proof.
  unfold replacePlanetFromContractData. cbn zeta.
  set (s0 := set_touchedPlanetIds _ s).
  set (merged := mergeWithLocal s0 planet _ _ _).
  destruct revealedLocation as [r|].
  - destruct (addPlanetLocation now _ _) as [s1|] eqn:E; cbn; [|discriminate].
    apply addPlanetLocation_scheduling in E.
    intros [= <-]. exists s1. split; [exact E|].
    unfold afterArrivals. destruct updatedArrivals; reflexivity.
  - cbn. intros [= <-]. exists s0. split; [reflexivity|].
    unfold afterArrivals. destruct updatedArrivals; reflexivity.
Qed.

Lemma replacePlanetFromContractData_returns (now : Q) (planet : Planet)
    (updatedArrivals : option (list QueuedArrival.t))
    (updatedArtifactsOnPlanet : option (list ArtifactId))
    (claimerEthAddress : option EthAddress) (s : GameObjects) :
  exists s',
    replacePlanetFromContractData now planet updatedArrivals updatedArtifactsOnPlanet
      None claimerEthAddress s = Ok s'.
Proof. unfold replacePlanetFromContractData. cbn. eauto. Qed.

(** The scheduling state and the planet after the arrivals part. *)
Lemma afterArrivals_spec (now : Q) (merged : Planet) (arrs : list QueuedArrival.t)
    (s : GameObjects) :
  let planetId := locationId merged in
  let s' := afterArrivals now merged (Some arrs) s in
  exists installed,
    arrivals s'
    = fileArrivals installed (strikeArrivals (arrivalIdsOf planetId s) (arrivals s))
    /\ planetArrivalIds s' !! planetId
       = Some (List.map (fun awt => QueuedArrival.eventId (arrivalData awt)) installed)
    /\ (forall h, (h < nextTimer s)%nat ->
          timers s' !! h = timers (clearOldArrivals merged s) !! h)
    /\ Forall (fun awt =>
                 (nextTimer s <= timer awt)%nat
                 /\ timers s' !! timer awt = Some (planetId, arrivalData awt)) installed
    /\ (forall q0, planets s !! planetId = Some q0 ->
          exists q, planets s' !! planetId = Some q
                    /\ pendingSlots q = pendingSlots q0 /\ localState q = localState q0).
Proof.
  cbn zeta. unfold afterArrivals.
  pose proof (processArrivalsForPlanet_keeps now (locationId merged) arrs
                (clearOldArrivals merged s)) as Hinv.
  destruct (processArrivalsForPlanet now _ arrs _) as [awts s2].
  destruct (clearOldArrivals_frame merged s) as (C1 & C2 & C3 & C4 & C5 & C6).
  destruct Hinv as (I1 & I2 & I3 & I4 & I5 & I6). cbn [fst snd] in *.
  assert (Hids : planetArrivalIds s2 !! locationId merged = Some []).
  { rewrite I2, C2. apply lookup_insert_eq. }
  destruct (installArrival_fold (locationId merged) awts s2 [] Hids)
    as (F1 & F2 & F3 & F4 & F5).
  exists awts. rewrite F1, F2, F3, F5, I1, C1. rewrite C3 in I4, I5. rewrite C4 in I6.
  repeat split; try assumption.
  eapply Forall_impl; [exact I5|]. cbn. intros awt [[Hlo _] Ht]. split; assumption.
Qed.

(** C8, as the code has it: for a planet the store already holds,
    [replacePlanetFromContractData] keeps the local copy's twelve
    transaction-intent slots and its local loading, refresh, animation
    and message state, whatever else is supplied.  When no fresh arrival
    list is applied on top, every other field is the incoming planet's
    (the flags [unconfirmedAddEmoji] and [unconfirmedClearEmoji] among
    them), except [heldArtifactIds], which is the fresh artifact list or
    else the local copy's, [silverSpent], which is recomputed, and the
    location, reveal and claimer annotations. *)
Theorem replacePlanetFromContractData_keeps_local_slots (now : Q) (planet : Planet)
    (updatedArrivals : option (list QueuedArrival.t))
    (updatedArtifactsOnPlanet : option (list ArtifactId))
    (revealedLocation : option RevealedLocation.t) (claimerEthAddress : option EthAddress)
    (s s' : GameObjects) (localPlanet : Planet) :
  planets s !! locationId planet = Some localPlanet ->
  replacePlanetFromContractData now planet updatedArrivals updatedArtifactsOnPlanet
    revealedLocation claimerEthAddress s = Ok s' ->
  exists stored,
    planets s' !! locationId planet = Some stored
    /\ pendingSlots stored = pendingSlots localPlanet
    /\ localState stored = localState localPlanet
    /\ (updatedArrivals = None ->
        incomingFields stored = incomingFields planet
        /\ heldArtifactIds stored
           = match updatedArtifactsOnPlanet with
             | Some ids => ids
             | None => heldArtifactIds localPlanet
             end).
Proof.
  intros Hlocal E. apply replacePlanetFromContractData_steps in E.
  cbv zeta in E. destruct E as (s1 & _ & ->).
  destruct (mergeWithLocal_fields
              (set_touchedPlanetIds ({[locationId planet]} ∪ touchedPlanetIds s) s)
              planet localPlanet updatedArtifactsOnPlanet revealedLocation
              claimerEthAddress Hlocal) as (M1 & M2 & M3 & M4).
  cbv zeta in M1, M2, M3, M4.
  set (merged := mergeWithLocal _ planet _ _ _) in *.
  assert (Hid : locationId merged = locationId planet)
    by apply mergeWithLocal_locationId.
  assert (Hs2 : planets (setPlanet merged s1) !! locationId merged = Some merged).
  { rewrite setPlanet_planets. apply lookup_insert_eq. }
  set (s2 := setPlanet merged s1) in *.
  rewrite updateScore_planets, Hid, lookup_alter, decide_True by reflexivity.
  destruct updatedArrivals as [arrs|].
  - destruct (afterArrivals_spec now merged arrs s2) as (installed & _ & _ & _ & _ & A5).
    destruct (A5 merged Hs2) as (q & Hq & Hp & Hl).
    rewrite Hid in Hq. rewrite Hq. cbn. eexists. split; [reflexivity|].
    split; [exact (eq_trans Hp M1)|]. split; [exact (eq_trans Hl M2)|]. discriminate.
  - cbn [afterArrivals]. rewrite Hid in Hs2. rewrite Hs2. cbn.
    eexists. split; [reflexivity|].
    split; [exact M1|]. split; [exact M2|]. intros _. split; [exact M3 | exact M4].
Qed.

End StoreProps.

(** ** Prospecting, range and repeated extrapolation *)

Lemma Qleb_true (x y : Q) : (x <=? y) = true <-> x <= y.
Proof. apply Qle_bool_iff. Qed.

Lemma orZero_eq (n : Q) : orZero (Some n) == n.
Proof.
  unfold orZero. destruct (n === 0) eqn:E; [|reflexivity].
  apply Qeq_bool_eq in E. now rewrite E.
Qed.

Lemma prospectExpired_true (cur n : Q) : prospectExpired cur n = true <-> n + 255 <= cur.
Proof.
  unfold prospectExpired, blocksLeftToProspectExpiration.
  rewrite Qleb_true. pose proof (orZero_eq n). split; intros; lra.
Qed.

(** X1: a planet is findable exactly when the current block is
    known, the planet is a ruin that was prospected at some block [n],
    nobody has tried to find its artifact yet, and fewer than 255 blocks
    have passed since [n] (at block [n + 255] the prospect has expired);
    a planet that is prospectable is never findable at the same time. *)
Theorem prospecting_lifecycle (planet : Planet) (currentBlockNumber : option Q) :
  (isFindable planet currentBlockNumber = true
   <-> exists c n : Q,
         currentBlockNumber = Some c /\ planetType planet = RUINS
         /\ prospectedBlockNumber planet = Some n
         /\ hasTriedFindingArtifact planet = false /\ c < n + 255)
  /\ isProspectable planet && isFindable planet currentBlockNumber = false.
Proof.
  split.
  - unfold isFindable. split.
    + destruct currentBlockNumber as [c|]; [|discriminate].
      destruct (Nat.eqb (planetType planet) RUINS) eqn:ET; [|discriminate].
      destruct (prospectedBlockNumber planet) as [n|]; [|discriminate].
      destruct (hasTriedFindingArtifact planet); [discriminate|].
      cbn. rewrite negb_true_iff. intros HE. exists c, n.
      apply Nat.eqb_eq in ET. repeat split; try assumption.
      apply Qnot_le_lt. intros Hle. apply prospectExpired_true in Hle. congruence.
    + intros (c & n & -> & -> & -> & -> & Hlt). cbn.
      rewrite negb_true_iff.
      destruct (prospectExpired c n) eqn:E; [|reflexivity].
      apply prospectExpired_true in E. lra.
  - unfold isProspectable, isFindable.
    destruct currentBlockNumber, (prospectedBlockNumber planet),
      (Nat.eqb (planetType planet) RUINS); reflexivity.
Qed.

Section CurveProps.
Context {ext : Externals} {logs : Logarithms}.


(** X4: the range [getRange] reports is never negative for a planet
    whose [range] is not, and sending 5 percent of the energy or less
    reaches nowhere: the range is 0, [Math.log2] being at most 0 on
    (0, 1]. *)
Theorem getRange_small_sends_reach_nowhere (planet : Planet)
    (percentEnergySending : option Q) :
  (0 <= range planet -> 0 <= getRange planet percentEnergySending)
  /\ (log2_nonpositive_below_one ->
      forall percent : Q, 0 <= percent <= 5 -> getRange planet (Some percent) == 0).
Proof.
  split.
  - intros HR. unfold getRange.
    destruct (default 100 percentEnergySending === 0); [apply Qle_refl|].
    apply Qmult_le_0_compat; [|exact HR]. unfold Math_max. apply Q.le_max_r.
  - intros Hlog percent [H0 H5]. unfold getRange.
    change (default 100 (Some percent)) with percent. cbv zeta.
    destruct (percent === 0) eqn:E; [reflexivity|].
    apply Qeq_bool_neq in E.
    assert (Math_log2 (percent / 5) <= 0) as Hle.
    { apply Hlog. split.
      - apply Qlt_shift_div_l; lra.
      - apply Qle_shift_div_r; lra. }
    unfold Math_max. rewrite (Q.max_r _ _ Hle). ring.
Qed.

Lemma updatePlanetToTime_upgraded (planet : Planet) (arts : list Artifact.t) (t : Q)
    (cc : ContractConstants) :
  is_Some (localPhotoidUpgrade planet) ->
  upgradedStats (updatePlanetToTime planet arts t cc) = upgradedStats planet.
Proof.
  intros [u Hu]. unfold updatePlanetToTime.
  destruct (t <? lastUpdated planet * 1000); [reflexivity|].
  cbv zeta.
  destruct (find _ arts); [|reflexivity].
  cbn [localPhotoidUpgrade set_lastUpdated set_energy set_silver]. rewrite Hu. reflexivity.
Qed.

Lemma arrive_upgraded (planet : Planet) (arts : list Artifact.t) (a : QueuedArrival.t)
    (cc : ContractConstants) (d : PlanetDiff) :
  arrive planet arts a cc = Ok d ->
  upgradedStats (current d)
  = upgradedStats (updatePlanetToTime planet arts (QueuedArrival.arrivalTime a * 1000) cc).
Proof.
  rewrite arrive_steps.
  destruct (negb _); [discriminate|]. cbv zeta.
  destruct (destroyed _); intros [= <-]; [reflexivity|]. cbn [current].
  unfold transferArtifact, applySilver, clampSilverBank, applyEnergy.
  case_steps; reflexivity.
Qed.

(** X5: once a planet carries a [localPhotoidUpgrade], no
    sequence of [updatePlanetToTime] and [arrive] operations changes its
    range, speed, defense or energy growth again, or replaces the
    recorded upgrade: the delayed upgrade of a photoid cannon is applied
    at most once. *)
Theorem delayed_upgrade_applied_at_most_once (cc : ContractConstants) (planet : Planet)
    (ops : list Operation) :
  is_Some (localPhotoidUpgrade planet) ->
  Forall (fun p => upgradedStats p = upgradedStats planet) (trace cc planet ops).
Proof.
  revert planet. induction ops as [|op ops IH]; intros planet HS; [constructor|].
  cbn [trace].
  assert (upgradedStats (step cc planet op) = upgradedStats planet) as Hstep.
  { destruct op as [arts t | arts a]; cbn [step].
    - now apply updatePlanetToTime_upgraded.
    - destruct (arrive planet arts a cc) as [d|] eqn:E; [|reflexivity].
      rewrite (arrive_upgraded _ _ _ _ _ E). now apply updatePlanetToTime_upgraded. }
  constructor; [exact Hstep|].
  assert (is_Some (localPhotoidUpgrade (step cc planet op))) as HS'.
  { apply (f_equal snd) in Hstep. cbn in Hstep. now rewrite Hstep. }
  specialize (IH _ HS'). rewrite <- Hstep.
  exact IH.
Qed.



End CurveProps.

(** ** Procedural generation: levels, biomes, types and default planets *)

Section ProcgenMore.
Context {ext : Externals}.
Variable cc : ContractConstants.

Lemma levelLoop_spec (v : Z) (n : nat) :
  (levelLoop cc v n <= n)%nat
  /\ ((v < planetLevelThresholds cc (levelLoop cc v n))%Z \/ levelLoop cc v n = 0%nat)
  /\ (forall l, (levelLoop cc v n < l <= n)%nat -> (planetLevelThresholds cc l <= v)%Z).
Proof.
  induction n as [|n IH]; cbn [levelLoop].
  - change (MIN_PLANET_LEVEL <=? 0)%nat with true. cbv iota.
    destruct (v <? planetLevelThresholds cc 0%nat)%Z eqn:E.
    + apply Z.ltb_lt in E. split; [lia|]. split; [now left|]. intros l Hl. lia.
    + split; [unfold MIN_PLANET_LEVEL; lia|]. split; [now right|]. intros l Hl.
      unfold MIN_PLANET_LEVEL in Hl. lia.
  - change (MIN_PLANET_LEVEL <=? S n)%nat with true. cbv iota.
    destruct (v <? planetLevelThresholds cc (S n))%Z eqn:E.
    + apply Z.ltb_lt in E. split; [lia|]. split; [now left|]. intros l Hl. lia.
    + apply Z.ltb_ge in E. destruct IH as (I1 & I2 & I3).
      split; [lia|]. split; [exact I2|]. intros l Hl.
      destruct (decide (l = S n)) as [->|Hne]; [exact E|]. apply I3. lia.
Qed.

(** X8: planetLevelFromHexPerlin returns the level its threshold loop finds
    (the highest level whose threshold exceeds bytes 4 to 6 of the hash, the
    minimum level when there is none), capped at level 4 in a nebula, at
    level 5 in space, and at MAX_NATURAL_PLANET_LEVEL everywhere. *)
Theorem planetLevelFromHexPerlin_is_clamped_threshold_level (hex : LocationId) (perlin : Q) :
  let v := getBytesFromHex hex 4 7 in
  let raw := levelLoop cc v MAX_PLANET_LEVEL in
  planetLevelFromHexPerlin cc hex perlin
  = Nat.min (Nat.min raw (regionCeiling (spaceTypeFromPerlin cc perlin)))
      (MAX_NATURAL_PLANET_LEVEL cc)
  /\ (raw <= MAX_PLANET_LEVEL)%nat
  /\ ((v < planetLevelThresholds cc raw)%Z \/ raw = MIN_PLANET_LEVEL)
  /\ (forall l, (raw < l <= MAX_PLANET_LEVEL)%nat -> (planetLevelThresholds cc l <= v)%Z).
Proof.
  intros v raw. split; [|apply levelLoop_spec].
  unfold planetLevelFromHexPerlin, regionCeiling. fold v. fold raw.
  pose proof (proj1 (levelLoop_spec v MAX_PLANET_LEVEL)) as Hraw. fold raw in Hraw.
  unfold MAX_PLANET_LEVEL, PlanetLevel_FOUR, PlanetLevel_FIVE, NEBULA, SPACE in *.
  destruct (spaceTypeFromPerlin cc perlin) as [|[|st]]; cbn [Nat.eqb andb];
    try (destruct (4 <? raw)%nat eqn:E4; [apply Nat.ltb_lt in E4 | apply Nat.ltb_ge in E4]);
    try (destruct (5 <? raw)%nat eqn:E5; [apply Nat.ltb_lt in E5 | apply Nat.ltb_ge in E5]);
    repeat match goal with
           | |- context [(?a <? ?b)%nat] =>
               let E := fresh "E" in
               destruct (a <? b)%nat eqn:E;
               [apply Nat.ltb_lt in E | apply Nat.ltb_ge in E]; cbv iota
           end; unfold PlanetLevel in *; lia.
Qed.

Lemma spaceTypeFromPerlin_range (perlin : Q) : (spaceTypeFromPerlin cc perlin <= DEAD_SPACE)%nat.
Proof.
  unfold spaceTypeFromPerlin, NEBULA, SPACE, DEEP_SPACE, DEAD_SPACE.
  repeat match goal with |- context [if ?b then _ else _] => destruct b end; lia.
Qed.

(** X9: getBiome returns a biome between 1 and CORRUPTED that determines the
    space type of the location: (biome - 1) divided by 3, rounded down, is
    the space type, and the biome is CORRUPTED exactly in dead space. *)
Theorem getBiome_determines_spaceType (loc : WorldLocation.t) :
  let spaceType := spaceTypeFromPerlin cc (WorldLocation.perlin loc) in
  let biome := getBiome cc loc in
  (1 <= biome <= CORRUPTED)%nat
  /\ ((biome - 1) / 3)%nat = spaceType
  /\ (biome = CORRUPTED <-> spaceType = DEAD_SPACE).
Proof.
  intros spaceType biome. subst biome. unfold getBiome. fold spaceType.
  pose proof (spaceTypeFromPerlin_range (WorldLocation.perlin loc)) as Hst. fold spaceType in Hst.
  unfold CORRUPTED, DEAD_SPACE in *.
  destruct spaceType as [|[|[|[|st]]]]; cbn [Nat.eqb]; [| | | |lia].
  1-3: repeat match goal with |- context [if ?b then _ else _] => destruct b end;
       cbn; repeat split; try lia; try discriminate.
  cbn. repeat split; lia.
Qed.

(** [firstBucket] returns the first index whose threshold the byte
    reaches. *)
Lemma firstBucket_Some (b : Q) (l : list Q) (i0 i : nat) :
  firstBucket b l i0 = Some i -> (i0 <= i < i0 + length l)%nat.
Proof.
  revert i0. induction l as [|t l IH]; intros i0; cbn [firstBucket length]; [discriminate|].
  destruct (b >=? t).
  - intros [= <-]. lia.
  - intros H. apply IH in H. lia.
Qed.

Lemma fold_left_Qplus_proper (l : list Q) (x y : Q) :
  x == y -> fold_left Qplus l x == fold_left Qplus l y.
Proof.
  revert x y. induction l as [|w l IH]; intros x y Hxy; cbn [fold_left]; [exact Hxy|].
  apply IH. now rewrite Hxy.
Qed.

Lemma fold_left_Qplus_shift (l : list Q) (a b : Q) :
  fold_left Qplus l (a + b) == a + fold_left Qplus l b.
Proof.
  revert a b. induction l as [|w l IH]; intros a b; cbn [fold_left]; [reflexivity|].
  rewrite <- IH. apply fold_left_Qplus_proper. ring.
Qed.

Lemma fold_left_Qplus_cons (w : Q) (l : list Q) :
  fold_left Qplus (w :: l) 0 == w + fold_left Qplus l 0.
Proof.
  cbn [fold_left]. rewrite <- fold_left_Qplus_shift. apply fold_left_Qplus_proper. ring.
Qed.

Lemma runningThresholds_length (prev : Q) (weights : list Q) :
  length (runningThresholds prev weights) = length weights.
Proof.
  revert prev. induction weights as [|w l IH]; intros prev; cbn; [reflexivity|].
  now rewrite IH.
Qed.

(** The last running threshold is what is left of [prev] once every
    weight is taken off; a byte that reaches it lands in some bucket. *)
Lemma firstBucket_total (F : Q -> Q) (b prev : Q) (weights : list Q) (i0 : nat) :
  (forall x y, x == y -> F x = F y) ->
  weights <> [] ->
  F (prev - fold_left Qplus weights 0) <= b ->
  is_Some (firstBucket b (List.map F (runningThresholds prev weights)) i0).
Proof.
  intros HF. revert prev i0. induction weights as [|w l IH]; intros prev i0 Hne Hb;
    [congruence|].
  cbn [runningThresholds List.map firstBucket].
  destruct (b >=? F (prev - w)) eqn:E; [eauto|].
  destruct l as [|w' l].
  - exfalso. rewrite (HF _ (prev - w)) in Hb by (cbn; ring).
    apply Qgeb_true in Hb. congruence.
  - apply IH; [discriminate|].
    rewrite (HF _ (prev - fold_left Qplus (w :: w' :: l) 0)); [exact Hb|].
    rewrite (fold_left_Qplus_cons w (w' :: l)). ring.
Qed.

(** A weight of zero repeats the threshold before it, so its bucket is
    never the first one the byte reaches. *)
Lemma firstBucket_nonzero_weight (F : Q -> Q) (b prev : Q) (weights : list Q) (i0 i : nat) :
  (forall x y, x == y -> F x = F y) ->
  b < F prev ->
  firstBucket b (List.map F (runningThresholds prev weights)) i0 = Some i ->
  ~ nth (i - i0) weights 0 == 0.
Proof.
  intros HF. revert prev i0. induction weights as [|w l IH]; intros prev i0 Hb;
    cbn [runningThresholds List.map firstBucket]; [discriminate|].
  destruct (b >=? F (prev - w)) eqn:E.
  - intros [= <-]. rewrite Nat.sub_diag. cbn [nth]. intros Hw.
    apply Qgeb_true in E. rewrite (HF (prev - w) prev) in E by (rewrite Hw; ring). lra.
  - intros H. pose proof (firstBucket_Some _ _ _ _ H) as Hi.
    apply IH in H.
    + replace (i - i0)%nat with (S (i - S i0)) by lia. exact H.
    + apply Qnot_le_lt. intros Hle. apply Qgeb_true in Hle. congruence.
Qed.

Lemma Math_floor_proper (x y : Q) : x == y -> Math_floor x = Math_floor y.
Proof. intros H. unfold Math_floor. now rewrite H. Qed.

Lemma Math_floor_Z (z : Z) (x : Q) : x == inject_Z z -> Math_floor x = inject_Z z.
Proof.
  intros H. rewrite (Math_floor_proper _ _ H). unfold Math_floor. now rewrite Qfloor_Z.
Qed.

(** X10: planetTypeFromHexPerlin throws on an empty list of weights. With
    weights whose sum is not zero and a type byte from 0 to 255 it returns a
    type that indexes the list and whose weight is not zero, so the fallback
    after its loop is never reached. *)
Theorem planetTypeFromHexPerlin_respects_weights (hex : LocationId) (perlin : Q) :
  let weights :=
    PLANET_TYPE_WEIGHTS cc (spaceTypeFromPerlin cc perlin)
      (planetLevelFromHexPerlin cc hex perlin) in
  (weights = [] -> exists msg, planetTypeFromHexPerlin cc hex perlin = Throw msg)
  /\ (weights <> [] -> ~ fold_left Qplus weights 0 == 0 ->
      (0 <= getBytesFromHex hex 8 9 < 256)%Z ->
      exists t : PlanetType,
        planetTypeFromHexPerlin cc hex perlin = Ok t
        /\ (t < length weights)%nat
        /\ ~ nth t weights 0 == 0).
Proof.
  intros weights. unfold planetTypeFromHexPerlin. fold weights.
  split.
  { intros ->. eauto. }
  intros Hne Hsum [Hb0 Hb1].
  destruct weights as [|w0 rest] eqn:EW; [congruence|].
  cbv zeta.
  set (ws := fold_left Qplus rest w0).
  assert (ws == fold_left Qplus (w0 :: rest) 0) as Hws.
  { unfold ws. cbn [fold_left]. apply fold_left_Qplus_proper. ring. }
  set (F := fun x : Q => Math_floor (x * 256 / ws)).
  set (b := inject_Z (getBytesFromHex hex 8 9)).
  change ((ws - w0) :: runningThresholds (ws - w0) rest)
    with (runningThresholds ws (w0 :: rest)).
  assert (forall x y, x == y -> F x = F y) as HF.
  { intros x y Hxy. unfold F. apply Math_floor_proper. now rewrite Hxy. }
  assert (0 <= b) as Hb0'.
  { unfold b. change 0 with (inject_Z 0). now rewrite <- Zle_Qle. }
  assert (b < 256) as Hb1'.
  { unfold b. change 256 with (inject_Z 256). now rewrite <- Zlt_Qlt. }
  assert (F ws = 256) as HFws.
  { unfold F. apply (Math_floor_Z 256). change (inject_Z 256) with 256.
    field. now rewrite Hws. }
  assert (F (ws - fold_left Qplus (w0 :: rest) 0) = 0) as HFlast.
  { unfold F. apply (Math_floor_Z 0). change (inject_Z 0) with 0.
    rewrite <- Hws. unfold Qdiv. ring. }
  destruct (firstBucket_total F b ws (w0 :: rest) 0 HF) as [i EB];
    [discriminate | rewrite HFlast; exact Hb0' |].
  change (List.map (fun x : Q => Math_floor (x * 256 / ws))) with (List.map F).
  rewrite EB.
  exists i. split; [reflexivity|].
  pose proof (firstBucket_Some _ _ _ _ EB) as Hi.
  rewrite length_map, runningThresholds_length in Hi.
  split; [lia|].
  pose proof (firstBucket_nonzero_weight F b ws (w0 :: rest) 0 i HF) as Hnz.
  rewrite Nat.sub_0_r in Hnz. apply Hnz; [|exact EB]. rewrite HFws. exact Hb1'.
Qed.

Lemma scaleBySpaceType_silCap (st : SpaceType) (s : BaseStats) :
  0 <= bs_silCap s -> 0 <= bs_silCap (scaleBySpaceType st s).
Proof.
  intros H. unfold scaleBySpaceType.
  repeat match goal with |- context [if ?b then _ else _] => destruct b end; cbn; lra.
Qed.

Lemma scaleBySpaceType_energyCap (st : SpaceType) (s : BaseStats) :
  0 <= bs_energyCap s -> 0 <= bs_energyCap (scaleBySpaceType st s).
Proof.
  intros H. unfold scaleBySpaceType.
  repeat match goal with |- context [if ?b then _ else _] => destruct b end; cbn; lra.
Qed.

Lemma scaleByPlanetType_silCap (pt : PlanetType) (s : BaseStats) :
  0 <= bs_silCap s -> 0 <= bs_silCap (scaleByPlanetType pt s).
Proof.
  intros H. unfold scaleByPlanetType.
  repeat match goal with |- context [if ?b then _ else _] => destruct b end; cbn; lra.
Qed.

Lemma scaleByPlanetType_energyCap (pt : PlanetType) (s : BaseStats) :
  0 <= bs_energyCap s -> 0 <= bs_energyCap (scaleByPlanetType pt s).
Proof.
  intros H. unfold scaleByPlanetType.
  repeat match goal with |- context [if ?b then _ else _] => destruct b end; cbn; lra.
Qed.

Lemma scaleBySpaceType_silGro (st : SpaceType) (s : BaseStats) :
  bs_silGro s == 0 -> bs_silGro (scaleBySpaceType st s) == 0.
Proof.
  intros H. unfold scaleBySpaceType.
  repeat match goal with |- context [if ?b then _ else _] => destruct b end; cbn;
    rewrite H; ring.
Qed.

Lemma scaleByPlanetType_silGro (pt : PlanetType) (s : BaseStats) :
  bs_silGro (scaleByPlanetType pt s) = bs_silGro s.
Proof.
  unfold scaleByPlanetType.
  repeat match goal with |- context [if ?b then _ else _] => destruct b end; reflexivity.
Qed.

Lemma twiceIf_pos (b : bool) : 0 < twiceIf b.
Proof. destruct b; reflexivity. Qed.

(** X11: A planet defaultPlanetFromLocation generates has no owner, is not
    destroyed and carries the hash and the location it was generated from;
    its energy and silver are not negative and its silver is at most the
    cap; a silver mine starts with half its silver cap, any other type with
    no silver and no silver growth, and a silver bank has no energy growth
    (for default energy caps, barbarian percentages and silver caps that are
    not negative). *)
Theorem defaultPlanetFromLocation_starts_unowned_and_in_range
    (touched : gset LocationId) (now : Q) (loc : WorldLocation.t) (p : Planet) :
  defaultPlanetFromLocation cc touched now loc = Ok p ->
  0 <= defaultPopulationCap cc (planetLevel p) ->
  0 <= defaultBarbarianPercentage cc (planetLevel p) ->
  0 <= defaultSilverCap cc (planetLevel p) ->
  (hasOwner p = false /\ destroyed p = false
   /\ locationId p = WorldLocation.hash loc /\ location p = Some loc)
  /\ resourcesInRange p
  /\ (if Nat.eqb (planetType p) SILVER_MINE
      then silver p == silverCap p / 2
      else silver p = 0 /\ silverGrowth p == 0)
  /\ (planetType p = SILVER_BANK -> energyGrowth p == 0).
Proof.
  unfold defaultPlanetFromLocation.
  destruct (planetTypeFromHexPerlin cc _ _) as [pt|]; [|discriminate].
  cbv zeta. intros [= <-]. cbn [planetLevel planetType hasOwner owner destroyed locationId
    location energy silver silverCap silverGrowth energyGrowth resourcesInRange].
  set (lvl := planetLevelFromHexPerlin cc _ _).
  set (st := spaceTypeFromPerlin cc _).
  set (stats0 := {| bs_range := _ |}).
  intros HC HB HS.
  assert (0 <= bs_energyCap stats0) as HE0.
  { cbn. pose proof (twiceIf_pos (nth 0 (bonusFromHex (WorldLocation.hash loc)) false)).
    apply Qmult_le_0_compat; lra. }
  assert (0 <= bs_silCap stats0) as HS0 by exact HS.
  pose proof (scaleByPlanetType_energyCap pt _ (scaleBySpaceType_energyCap st _ HE0)) as HE.
  pose proof (scaleByPlanetType_silCap pt _ (scaleBySpaceType_silCap st _ HS0)) as HSC.
  set (stats := scaleByPlanetType pt (scaleBySpaceType st stats0)) in *.
  split; [repeat split|]. 
  split; [|split].
  - unfold resourcesInRange. 
    cbn [energy silver silverCap].
    assert (0 <= bs_energyCap stats * defaultBarbarianPercentage cc lvl / 100) as HP.
    { apply Qle_shift_div_l; [reflexivity|]. rewrite Qmult_0_l.
      apply Qmult_le_0_compat; assumption. }
    split.
    + repeat match goal with |- context [if ?b then _ else _] => destruct b end; lra.
    + destruct (Nat.eqb pt SILVER_MINE); [|lra].
      assert (bs_silCap stats / 2 == bs_silCap stats * (1#2)) as -> by field. lra.
  - destruct (Nat.eqb pt SILVER_MINE) eqn:EM; [reflexivity|].
    split; [reflexivity|].
    cbn [silverGrowth].
    subst stats. rewrite scaleByPlanetType_silGro.
    rewrite scaleBySpaceType_silGro; [ring|]. reflexivity.
  - intros ->. cbn [energyGrowth]. subst stats. unfold scaleByPlanetType.
    cbn. ring.
Qed.
End ProcgenMore.

(** ** Arrivals: notifications, the processing loop and upgrade costs *)

Lemma insertArrival_Permutation (a : QueuedArrival.t) (l : list QueuedArrival.t) :
  Permutation (insertArrival a l) (a :: l).
Proof.
  induction l as [|b l IH]; cbn [insertArrival]; [reflexivity|].
  destruct (Qle_bool _ _); [reflexivity|].
  rewrite IH. apply perm_swap.
Qed.

Lemma insertArrival_HdRel (a b : QueuedArrival.t) (l : list QueuedArrival.t) :
  arrivesNoLater b a -> HdRel arrivesNoLater b l -> HdRel arrivesNoLater b (insertArrival a l).
Proof.
  intros Hba Hl. destruct l as [|c l]; cbn [insertArrival]; [constructor; exact Hba|].
  destruct (Qle_bool _ _); constructor; [exact Hba|].
  now inversion Hl.
Qed.

Lemma insertArrival_Sorted (a : QueuedArrival.t) (l : list QueuedArrival.t) :
  Sorted arrivesNoLater l -> Sorted arrivesNoLater (insertArrival a l).
Proof.
  induction l as [|b l IH]; intros HS; cbn [insertArrival].
  - constructor; constructor.
  - destruct (Qle_bool _ _) eqn:E.
    + apply Qle_bool_iff in E. constructor; [exact HS|]. constructor. exact E.
    + inversion HS as [|? ? HS' HR]; subst. constructor; [now apply IH|].
      apply insertArrival_HdRel; [|exact HR].
      unfold arrivesNoLater.
      destruct (Qlt_le_dec (QueuedArrival.arrivalTime b) (QueuedArrival.arrivalTime a))
        as [Hlt|Hle]; [lra|].
      apply Qle_bool_iff in Hle. congruence.
Qed.

Lemma sortByArrivalTime_sorts (l : list QueuedArrival.t) :
  Sorted arrivesNoLater (sortByArrivalTime l) /\ Permutation (sortByArrivalTime l) l.
Proof.
  unfold sortByArrivalTime. induction l as [|a l [IH1 IH2]]; cbn [fold_right].
  - split; constructor.
  - split; [now apply insertArrival_Sorted|].
    rewrite insertArrival_Permutation. now constructor.
Qed.

Section ArrivalsMore.
Context {ext : Externals}.

Lemma notifiedAbout_refl (s : GameObjects) (id : LocationId) (concerned : Prop) :
  notifiedAbout s id concerned s.
Proof.
  exists []. split; [|split; [constructor | congruence]].
  rewrite app_nil_r. now destruct s.
Qed.

Lemma notifiedAbout_step (s si : GameObjects) (id : LocationId) (concerned : Prop)
    (cond : bool) (n : Notification) :
  notifiedAbout s id concerned si ->
  (cond = true -> concerned) -> notificationPlanet n = id ->
  notifiedAbout s id concerned (if cond then notify n si else si).
Proof.
  intros (new & -> & HF & HC) Hcond Hn. destruct cond; [|exists new; auto].
  exists (new ++ [n]). split; [|split].
  - unfold notify. cbn. now rewrite app_assoc.
  - apply Forall_app. split; [exact HF|]. constructor; [exact Hn | constructor].
  - intros _. now apply Hcond.
Qed.

(** X13: emitArrivalNotifications only appends notifications, all of them
    about the planet of the diff, and it appends none unless the player owns
    the planet after the arrival or owned it before. *)
Theorem emitArrivalNotifications_only_for_the_player (diff : PlanetDiff) (s s' : GameObjects) :
  emitArrivalNotifications diff s = Ok s' ->
  exists new : list Notification,
    s' = set_notifications (notifications s ++ new) s
    /\ Forall (fun n => notificationPlanet n = locationId (current diff)) new
    /\ (new <> [] ->
        address s = Some (owner (current diff)) \/ address s = Some (owner (previous diff))).
Proof.
  unfold emitArrivalNotifications.
  destruct (planetCanUpgrade (previous diff)) as [previousCan|]; [|discriminate].
  cbn [Result_bind].
  destruct (if previousCan then Ok false else planetCanUpgrade (current diff))
    as [currentCan|]; [|discriminate].
  cbn [Result_bind]. intros [= <-].
  cbv zeta.
  destruct (negb (destroyed (previous diff)) && destroyed (current diff)).
  all: match goal with
       | |- exists new, ?X = _ /\ _ /\ _ =>
           change (notifiedAbout s (locationId (current diff))
                     (address s = Some (owner (current diff))
                      \/ address s = Some (owner (previous diff))) X)
       end.
  all: repeat apply notifiedAbout_step; try reflexivity; try apply notifiedAbout_refl.
  all: intros H; repeat (apply andb_true_iff in H as [H ?]);
    repeat match goal with
           | H : bool_decide _ = true |- _ => apply bool_decide_eq_true in H
           end; auto.
Qed.
Lemma emitArrivalNotifications_frame' (diff : PlanetDiff) (s s' : GameObjects) :
  emitArrivalNotifications diff s = Ok s' ->
  planets s' = planets s /\ artifacts s' = artifacts s
  /\ contractConstants s' = contractConstants s.
Proof.
  unfold emitArrivalNotifications. cbn zeta.
  destruct (planetCanUpgrade (previous diff)) as [previousCan|]; cbn; [|discriminate].
  destruct (if previousCan then Ok false else planetCanUpgrade (current diff))
    as [currentCan|]; cbn; [|discriminate].
  intros [= <-].
  repeat match goal with
         | |- context [if ?b then _ else _] => destruct b
         end; repeat split; reflexivity.
Qed.

Lemma arrive_locationId (planet : Planet) (arts : list Artifact.t) (a : QueuedArrival.t)
    (cc : ContractConstants) (d : PlanetDiff) :
  arrive planet arts a cc = Ok d -> locationId (current d) = locationId planet.
Proof.
  intros E. apply arrive_frame in E.
  destruct (updatePlanetToTime_frame planet arts (QueuedArrival.arrivalTime a * 1000) cc)
    as (_ & _ & _ & _ & _ & _ & HL & _).
  pose proof (f_equal (fun t => snd (fst (fst t))) E) as E1. cbn in E1. congruence.
Qed.

Lemma step_locationId (cc : ContractConstants) (planet : Planet) (op : Operation) :
  locationId (step cc planet op) = locationId planet.
Proof.
  destruct op as [arts t|arts a]; cbn [step].
  - apply updatePlanetToTime_frame.
  - destruct (arrive planet arts a cc) as [d|] eqn:E; [|reflexivity].
    now apply arrive_locationId in E.
Qed.

(** One turn of the loop on a store whose planet [p] is filed under its
    own id: a past arrival is resolved on [p], a future one gets a timer. *)
Lemma processArrival_turn (planetId : LocationId) (nowInSeconds : Q)
    (awts : list ArrivalWithTimer) (s : GameObjects) (p : Planet) (a : QueuedArrival.t) :
  planets s !! planetId = Some p -> locationId p = planetId ->
  let r := processArrival planetId nowInSeconds (awts, s) a in
  artifacts r.2 = artifacts s /\ contractConstants r.2 = contractConstants s
  /\ (if arrivedBy nowInSeconds a then
        r.1 = awts
        /\ planets r.2 !! planetId
           = Some (step (contractConstants s) p (Arrive (heldArtifacts s p) a))
      else
        arrivalData <$> r.1 = (arrivalData <$> awts) ++ [a]
        /\ planets r.2 !! planetId = Some p).
Proof.
  intros Hp HL. unfold processArrival, arrivedBy. rewrite Hp.
  assert (getPlanetArtifacts (locationId p) s = heldArtifacts s p) as ->.
  { unfold getPlanetArtifacts, heldArtifacts. now rewrite HL, Hp. }
  destruct (nowInSeconds - QueuedArrival.arrivalTime a >? 0).
  - cbn [step].
    destruct (arrive p (heldArtifacts s p) a (contractConstants s)) as [diff|e] eqn:E.
    + assert (planets (mutatePlanet planetId (fun _ => current diff) s) !! planetId
              = Some (current diff)) as Hm.
      { cbn [planets mutatePlanet set_planets set_myPlanets].
        rewrite lookup_alter, decide_True by reflexivity. now rewrite Hp. }
      destruct (emitArrivalNotifications diff _) as [s2|e] eqn:E2.
      * destruct (emitArrivalNotifications_frame' _ _ _ E2) as (F1 & F2 & F3).
        cbn [fst snd]. rewrite F1, F2, F3. repeat split. exact Hm.
      * cbn [fst snd]. repeat split. exact Hm.
    + cbn [fst snd]. repeat split. exact Hp.
  - unfold setTimeout. cbn [fst snd]. repeat split.
    + rewrite fmap_app. reflexivity.
    + exact Hp.
Qed.

Lemma processArrival_loop (planetId : LocationId) (nowInSeconds : Q) (s0 : GameObjects)
    (l : list QueuedArrival.t) :
  forall (awts : list ArrivalWithTimer) (s : GameObjects) (p : Planet),
    planets s !! planetId = Some p -> locationId p = planetId ->
    artifacts s = artifacts s0 -> contractConstants s = contractConstants s0 ->
    let r := fold_left (processArrival planetId nowInSeconds) l (awts, s) in
    arrivalData <$> r.1
    = (arrivalData <$> awts) ++ List.filter (fun a => negb (arrivedBy nowInSeconds a)) l
    /\ planets r.2 !! planetId
       = Some (resolveInOrder s0 (List.filter (arrivedBy nowInSeconds) l) p).
Proof.
  induction l as [|a l IH]; intros awts s p Hp HL HA HC.
  - cbn. rewrite app_nil_r. split; [reflexivity | exact Hp].
  - cbn [fold_left List.filter].
    destruct (processArrival_turn planetId nowInSeconds awts s p a Hp HL) as (FA & FC & HT).
    destruct (processArrival planetId nowInSeconds (awts, s) a) as [awts1 s1].
    cbn [fst snd] in *.
    assert (heldArtifacts s p = heldArtifacts s0 p) as HH
      by (unfold heldArtifacts; now rewrite HA).
    destruct (arrivedBy nowInSeconds a); cbn [negb]; destruct HT as [HT1 HT2].
    + subst awts1. rewrite HC, HH in HT2.
      destruct (IH awts s1 _ HT2) as [I1 I2];
        [rewrite step_locationId; exact HL | congruence | congruence |].
      split; [exact I1|]. exact I2.
    + destruct (IH awts1 s1 p HT2 HL) as [I1 I2]; [congruence | congruence |].
      split; [|exact I2]. rewrite I1, HT1. now rewrite <- app_assoc.
Qed.

(** X14: For a planet the store holds under its own id,
    processArrivalsForPlanet returns timers for exactly the arrivals that
    are not yet due, in the order of their arrival times, and leaves the
    planet as the due arrivals resolve it one after the other in that order,
    with its silverSpent recomputed. *)
Theorem processArrivalsForPlanet_applies_past_schedules_future (now : Q)
    (planetId : LocationId) (arrs : list QueuedArrival.t) (s : GameObjects) (q0 : Planet) :
  planets s !! planetId = Some q0 -> locationId q0 = planetId ->
  let sorted := sortByArrivalTime arrs in
  let r := processArrivalsForPlanet now planetId arrs s in
  let q := resolveInOrder s (List.filter (arrivedBy (now / 1000)) sorted) q0 in
  arrivalData <$> r.1 = List.filter (fun a => negb (arrivedBy (now / 1000) a)) sorted
  /\ planets r.2 !! planetId = Some (set_silverSpent (calculateSilverSpent q) q).
Proof.
  intros Hp HL sorted r q. subst r. unfold processArrivalsForPlanet. rewrite Hp. cbv zeta.
  destruct (processArrival_loop planetId (now / 1000) s sorted [] s q0 Hp HL eq_refl eq_refl)
    as [I1 I2].
  fold sorted.
  destruct (fold_left (processArrival planetId (now / 1000)) sorted ([], s)) as [awts s1].
  cbn [fst snd] in *. split; [exact I1|].
  rewrite updateScore_planets, lookup_alter, decide_True by reflexivity.
  fold q in I2. rewrite I2. reflexivity.
Qed.

End ArrivalsMore.

(** ** The store: reconciliation, lookups and what they keep *)

Section StoreMore.
Context {ext : Externals}.


Lemma itemIndex_eq (s s' : GameObjects) :
  itemIndex s' = itemIndex s ->
  address s' = address s /\ artifacts s' = artifacts s /\ myArtifacts s' = myArtifacts s
  /\ wormholes s' = wormholes s /\ contractConstants s' = contractConstants s.
Proof. unfold itemIndex. intros [= -> -> -> -> ->]. repeat split. Qed.

Lemma setPlanet_itemIndex (planet : Planet) (s : GameObjects) :
  itemIndex (setPlanet planet s) = itemIndex s
  /\ touchedPlanetIds (setPlanet planet s) = touchedPlanetIds s.
Proof.
  unfold setPlanet, setObjectSyncState, insertPlanet.
  destruct (location planet); repeat case_bool_decide; split; reflexivity.
Qed.

Lemma updateScore_itemIndex (planetId : LocationId) (s : GameObjects) :
  itemIndex (updateScore planetId s) = itemIndex s
  /\ touchedPlanetIds (updateScore planetId s) = touchedPlanetIds s.
Proof. unfold updateScore. destruct (planets s !! planetId); split; reflexivity. Qed.

Lemma updatePlanetIfStale_itemIndex (now : Q) (key : LocationId) (planet : Planet)
    (s : GameObjects) :
  itemIndex (updatePlanetIfStale now key planet s).2 = itemIndex s
  /\ touchedPlanetIds (updatePlanetIfStale now key planet s).2 = touchedPlanetIds s.
Proof.
  unfold updatePlanetIfStale.
  destruct (_ >? 1); [|split; reflexivity]. cbn zeta.
  destruct (updatePlanetToTime_commits planet now); cbn [snd]; [|split; reflexivity].
  destruct (setPlanet_itemIndex
              (updatePlanetToTime planet (getPlanetArtifacts (locationId planet) s) now
                 (contractConstants s))
              (mutatePlanet key
                 (fun _ => updatePlanetToTime planet
                             (getPlanetArtifacts (locationId planet) s) now
                             (contractConstants s)) s)) as [-> ->].
  split; reflexivity.
Qed.

Lemma getPlanetWithLocation_itemIndex (now : Q) (location : WorldLocation.t)
    (s : GameObjects) (r : Planet * GameObjects) :
  getPlanetWithLocation now location s = Ok r ->
  itemIndex r.2 = itemIndex s /\ touchedPlanetIds r.2 = touchedPlanetIds s.
Proof.
  unfold getPlanetWithLocation.
  destruct (planets s !! WorldLocation.hash location) as [planet|].
  - intros [= <-]. apply updatePlanetIfStale_itemIndex.
  - destruct (defaultPlanetFromLocation _ _ _ _) as [p|]; cbn; [|discriminate].
    intros [= <-]. cbn [snd]. apply setPlanet_itemIndex.
Qed.

Lemma getPlanetWithId_itemIndex (now : Q) (planetId : LocationId) (updateIfStale : bool)
    (s : GameObjects) (r : option Planet * GameObjects) :
  getPlanetWithId now planetId updateIfStale s = Ok r ->
  itemIndex r.2 = itemIndex s /\ touchedPlanetIds r.2 = touchedPlanetIds s.
Proof.
  unfold getPlanetWithId.
  destruct (planets s !! planetId) as [planet|].
  - destruct updateIfStale.
    + pose proof (updatePlanetIfStale_itemIndex now planetId planet s) as H.
      destruct (updatePlanetIfStale now planetId planet s) as [p' s'].
      intros [= <-]. exact H.
    + intros [= <-]. split; reflexivity.
  - destruct (getLocationOfPlanet planetId s) as [loc|]; [|intros [= <-]; split; reflexivity].
    destruct (getPlanetWithLocation now loc s) as [[p' s']|] eqn:E; cbn; [|discriminate].
    intros [= <-]. exact (getPlanetWithLocation_itemIndex _ _ _ _ E).
Qed.

Lemma addPlanetLocation_itemIndex (now : Q) (planetLocation : WorldLocation.t)
    (s s' : GameObjects) :
  addPlanetLocation now planetLocation s = Ok s' ->
  itemIndex s' = itemIndex s /\ touchedPlanetIds s' = touchedPlanetIds s.
Proof.
  unfold addPlanetLocation. cbn zeta.
  destruct (getPlanetWithId now _ false s) as [[known s1]|] eqn:E1; cbn; [|discriminate].
  apply getPlanetWithId_itemIndex in E1. cbn [snd] in E1. destruct E1 as [<- <-].
  match goal with
  | |- context [insertPlanet planetLocation ?l s1] => generalize l; intros level
  end.
  destruct (coordsToLocation _ !! _);
    (destruct (planets _ !! _);
     [cbn; intros [= <-]; split; reflexivity|];
     destruct (defaultPlanetFromLocation _ _ _ _) as [p|]; cbn; [|discriminate];
     intros [= <-];
     change (itemIndex (mutatePlanet ?k ?f ?x)) with (itemIndex x);
     change (touchedPlanetIds (mutatePlanet ?k ?f ?x)) with (touchedPlanetIds x);
     match goal with
     | |- context [setPlanet ?q ?x] => destruct (setPlanet_itemIndex q x) as [-> ->]
     end; split; reflexivity).
Qed.

Lemma clearOldArrivals_itemIndex (planet : Planet) (s : GameObjects) :
  itemIndex (clearOldArrivals planet s) = itemIndex s
  /\ touchedPlanetIds (clearOldArrivals planet s) = touchedPlanetIds s.
Proof.
  unfold clearOldArrivals.
  change (itemIndex (set_planetArrivalIds ?v ?x)) with (itemIndex x).
  change (touchedPlanetIds (set_planetArrivalIds ?v ?x)) with (touchedPlanetIds x).
  destruct (planetArrivalIds s !! locationId planet) as [ids|]; [|split; reflexivity].
  apply (fold_left_invariant
           (fun x => itemIndex x = itemIndex s /\ touchedPlanetIds x = touchedPlanetIds s));
    [|split; reflexivity].
  intros x id [<- <-]. unfold clearOldArrival.
  destruct (arrivals x !! id); split; reflexivity.
Qed.

Lemma processArrival_itemIndex (planetId : LocationId) (nowInSeconds : Q)
    (acc : list ArrivalWithTimer * GameObjects) (a : QueuedArrival.t) :
  itemIndex (processArrival planetId nowInSeconds acc a).2 = itemIndex acc.2
  /\ touchedPlanetIds (processArrival planetId nowInSeconds acc a).2
     = touchedPlanetIds acc.2.
Proof.
  destruct acc as [awts s]. unfold processArrival.
  destruct (planets s !! planetId) as [planet|]; [|split; reflexivity].
  destruct (_ >? 0); [|split; reflexivity].
  destruct (arrive planet _ a _) as [diff|e]; [|split; reflexivity].
  destruct (emitArrivalNotifications diff _) as [s2|e] eqn:E2; [|split; reflexivity].
  cbn [snd]. revert E2. unfold emitArrivalNotifications. cbn zeta.
  destruct (planetCanUpgrade (previous diff)) as [previousCan|]; cbn; [|discriminate].
  destruct (if previousCan then Ok false else planetCanUpgrade (current diff))
    as [currentCan|]; cbn; [|discriminate].
  intros [= <-].
  repeat match goal with
         | |- context [if ?b then _ else _] => destruct b
         end; split; reflexivity.
Qed.

Lemma processArrivalsForPlanet_itemIndex (now : Q) (planetId : LocationId)
    (arrs : list QueuedArrival.t) (s : GameObjects) :
  itemIndex (processArrivalsForPlanet now planetId arrs s).2 = itemIndex s
  /\ touchedPlanetIds (processArrivalsForPlanet now planetId arrs s).2 = touchedPlanetIds s.
Proof.
  unfold processArrivalsForPlanet.
  destruct (planets s !! planetId); [|split; reflexivity]. cbn zeta.
  pose proof (fold_left_invariant
                (fun acc : list ArrivalWithTimer * GameObjects =>
                   itemIndex acc.2 = itemIndex s
                   /\ touchedPlanetIds acc.2 = touchedPlanetIds s)
                (processArrival planetId (now / 1000)) (sortByArrivalTime arrs)) as H.
  destruct (fold_left _ _ _) as [awts s1] eqn:EF.
  cbn [snd].
  destruct (updateScore_itemIndex planetId s1) as [-> ->].
  specialize (H (fun acc a HI =>
                   let '(conj H1 H2) := processArrival_itemIndex planetId (now / 1000) acc a in
                   conj (eq_trans H1 (proj1 HI)) (eq_trans H2 (proj2 HI)))
                ([], s) (conj eq_refl eq_refl)).
  rewrite EF in H. exact H.
Qed.

Lemma installArrival_itemIndex (planetId : LocationId) (s : GameObjects)
    (awt : ArrivalWithTimer) :
  itemIndex (installArrival planetId s awt) = itemIndex s
  /\ touchedPlanetIds (installArrival planetId s awt) = touchedPlanetIds s.
Proof.
  unfold installArrival. cbn.
  destruct (planetArrivalIds s !! planetId); split; reflexivity.
Qed.

(** X16: replacePlanetFromContractData adds the id of the planet to
    touchedPlanetIds, so isPlanetInContract holds for it afterwards and
    still holds for every id it held for before; the player's address, the
    artifacts, the wormholes and the contract constants are left as they
    were. *)
Theorem replacePlanetFromContractData_marks_touched (now : Q) (planet : Planet)
    (updatedArrivals : option (list QueuedArrival.t))
    (updatedArtifactsOnPlanet : option (list ArtifactId))
    (revealedLocation : option RevealedLocation.t) (claimerEthAddress : option EthAddress)
    (s s' : GameObjects) :
  replacePlanetFromContractData now planet updatedArrivals updatedArtifactsOnPlanet
    revealedLocation claimerEthAddress s = Ok s' ->
  touchedPlanetIds s' = {[locationId planet]} ∪ touchedPlanetIds s
  /\ isPlanetInContract (locationId planet) s' = true
  /\ (forall id, isPlanetInContract id s = true -> isPlanetInContract id s' = true)
  /\ itemIndex s' = itemIndex s.
Proof.
  intros H.
  assert (itemIndex s' = itemIndex s
          /\ touchedPlanetIds s' = {[locationId planet]} ∪ touchedPlanetIds s) as [HI HT].
  { revert H. unfold replacePlanetFromContractData. cbn zeta.
    set (s0 := set_touchedPlanetIds _ s).
    set (merged := mergeWithLocal s0 planet _ _ _).
    assert (itemIndex s0 = itemIndex s
            /\ touchedPlanetIds s0 = {[locationId planet]} ∪ touchedPlanetIds s) as [I0 T0]
      by (split; reflexivity).
    rewrite <- I0, <- T0. clearbody s0 merged. clear I0 T0.
    destruct (match revealedLocation with
              | Some r => addPlanetLocation now (RevealedLocation.location r)
                            (markLocationRevealed r s0)
              | None => Ok s0
              end) as [s1|] eqn:E1; cbn [Result_bind]; [|discriminate].
    assert (itemIndex s1 = itemIndex s0 /\ touchedPlanetIds s1 = touchedPlanetIds s0)
      as [I1 T1].
    { destruct revealedLocation as [r|]; [|injection E1 as <-; split; reflexivity].
      apply addPlanetLocation_itemIndex in E1. exact E1. }
    rewrite <- I1, <- T1. clear E1 I1 T1.
    intros [= <-].
    match goal with
    | |- context [updateScore ?k ?x] => destruct (updateScore_itemIndex k x) as [-> ->]
    end.
    destruct updatedArrivals as [ua|]; [|apply setPlanet_itemIndex].
    cbv zeta.
    pose proof (processArrivalsForPlanet_itemIndex now (locationId merged) ua
                  (clearOldArrivals merged (setPlanet merged s1))) as [P1 P2].
    destruct (processArrivalsForPlanet _ _ _ _) as [awts s3]. cbn [snd] in P1, P2.
    destruct (clearOldArrivals_itemIndex merged (setPlanet merged s1)) as [C1 C2].
    destruct (setPlanet_itemIndex merged s1) as [S1 S2].
    rewrite <- S1, <- S2, <- C1, <- C2, <- P1, <- P2.
    apply (fold_left_invariant
             (fun x => itemIndex x = itemIndex s3 /\ touchedPlanetIds x = touchedPlanetIds s3));
      [|split; reflexivity].
    intros x awt [<- <-]. apply installArrival_itemIndex. }
  split; [exact HT|]. unfold isPlanetInContract. rewrite HT.
  split; [|split; [|exact HI]].
  - apply bool_decide_eq_true, elem_of_union. left. now apply elem_of_singleton.
  - intros id Hid. apply bool_decide_eq_true in Hid.
    apply bool_decide_eq_true, elem_of_union. now right.
Qed.
Lemma setArtifact_artifacts (artifact : Artifact.t) (s : GameObjects) :
  artifacts (setArtifact artifact s) = <[Artifact.id artifact := artifact]> (artifacts s)
  /\ planets (setArtifact artifact s) = planets s.
Proof.
  unfold setArtifact, setObjectSyncState.
  destruct (ArtifactType.eqb _ _), (truthy (Artifact.onPlanetId artifact)),
    (truthy (Artifact.wormholeTo artifact)), (isActivated artifact);
    repeat case_bool_decide; split; reflexivity.
Qed.

Lemma replaceArtifactFromContractData_stores (artifact : Artifact.t) (s : GameObjects) :
  exists stored,
    artifacts (replaceArtifactFromContractData artifact s)
    = <[Artifact.id artifact := stored]> (artifacts s)
    /\ artifactLedgerFields stored = artifactLedgerFields artifact
    /\ artifactPendingSlots stored
       = match artifacts s !! Artifact.id artifact with
         | Some localArtifact => artifactPendingSlots localArtifact
         | None => artifactPendingSlots artifact
         end
    /\ planets (replaceArtifactFromContractData artifact s) = planets s.
Proof.
  unfold replaceArtifactFromContractData. cbv zeta.
  destruct (artifacts s !! Artifact.id artifact) as [localArtifact|];
    match goal with
    | |- context [setArtifact ?a s] =>
        exists a; destruct (setArtifact_artifacts a s) as [-> ->]
    end; repeat split.
Qed.

(** X17: replaceArtifactFromContractData stores the fields the ledger
    reports for an artifact and keeps the five pending slots of the local
    copy; a whole batch keeps the pending slots of every artifact the store
    already held and does not touch the planets. *)
Theorem replaceArtifactsFromContractData_keeps_pending_slots (s : GameObjects)
    (id : ArtifactId) (localArtifact : Artifact.t) :
  artifacts s !! id = Some localArtifact ->
  (forall artifact : Artifact.t,
     Artifact.id artifact = id ->
     exists stored,
       artifacts (replaceArtifactFromContractData artifact s) !! id = Some stored
       /\ artifactLedgerFields stored = artifactLedgerFields artifact
       /\ artifactPendingSlots stored = artifactPendingSlots localArtifact)
  /\ (forall batch : list Artifact.t,
        exists stored,
          artifacts (replaceArtifactsFromContractData batch s) !! id = Some stored
          /\ artifactPendingSlots stored = artifactPendingSlots localArtifact)
  /\ (forall batch : list Artifact.t,
        planets (replaceArtifactsFromContractData batch s) = planets s).
Proof.
  intros Hl. split; [|split].
  - intros artifact <-.
    destruct (replaceArtifactFromContractData_stores artifact s) as (stored & HA & HF & HS & _).
    exists stored. rewrite HA, lookup_insert_eq. rewrite Hl in HS. auto.
  - intros batch. unfold replaceArtifactsFromContractData.
    revert s localArtifact Hl. induction batch as [|artifact batch IH]; intros s l Hl.
    + exists l. split; [exact Hl | reflexivity].
    + cbn [fold_left].
      destruct (replaceArtifactFromContractData_stores artifact s) as (stored & HA & _ & HS & _).
      destruct (decide (Artifact.id artifact = id)) as [E|E].
      * rewrite E, Hl in HS.
        destruct (IH (replaceArtifactFromContractData artifact s) stored) as (st & H1 & H2).
        { rewrite HA, E. apply lookup_insert_eq. }
        exists st. split; [exact H1|]. congruence.
      * apply IH. rewrite HA, lookup_insert_ne by exact E. exact Hl.
  - intros batch. unfold replaceArtifactsFromContractData. clear Hl.
    revert s. induction batch as [|artifact batch IH]; intros s; [reflexivity|].
    cbn [fold_left].
    destruct (replaceArtifactFromContractData_stores artifact s) as (stored & _ & _ & _ & HP).
    rewrite <- HP. apply IH.
Qed.

Lemma updatePlanetIfStale_owner (now : Q) (key : LocationId) (planet : Planet)
    (s : GameObjects) :
  owner (updatePlanetIfStale now key planet s).1 = owner planet.
Proof.
  unfold updatePlanetIfStale. destruct (_ >? 1); [|reflexivity]. cbn [fst].
  apply updatePlanetToTime_frame.
Qed.

(** X18: For an artifact that is on a planet the store holds,
    getArtifactController returns the owner of that planet, or undefined
    when the planet has no owner, whatever the artifact's own owner or
    voyage is. *)
Theorem getArtifactController_prefers_the_planet (now : Q) (artifactId : ArtifactId)
    (s : GameObjects) (artifact : Artifact.t) (onPlanetId : LocationId) (planet : Planet) :
  artifacts s !! artifactId = Some artifact ->
  truthy (Artifact.onPlanetId artifact) = Some onPlanetId ->
  planets s !! onPlanetId = Some planet ->
  exists s',
    getArtifactController now artifactId s
    = Ok (if String.eqb (owner planet) EMPTY_ADDRESS then None else Some (owner planet), s').
Proof.
  intros HA HP HPl. unfold getArtifactController, getArtifactById. rewrite HA, HP.
  unfold getPlanetWithId. rewrite HPl.
  pose proof (updatePlanetIfStale_owner now onPlanetId planet s) as HO.
  destruct (updatePlanetIfStale now onPlanetId planet s) as [p' s']. cbn [fst] in HO.
  cbn [Result_bind]. rewrite HO. eauto.
Qed.

Lemma placeAt_idem (cc : ContractConstants) (loc : WorldLocation.t) (p : Planet) :
  placeAt cc loc (placeAt cc loc p) = placeAt cc loc p.
Proof. reflexivity. Qed.

Lemma store_eta_eq (s : GameObjects) :
  set_myPlanets (myPlanets s) (set_planets (planets s) s) = s.
Proof. now destruct s. Qed.

(** The planet [getPlanetWithId] returns without updating is the one the
    store has under the id afterwards, if it has one. *)
Lemma getPlanetWithId_known (now : Q) (id : LocationId) (s sA : GameObjects)
    (known : option Planet) :
  getPlanetWithId now id false s = Ok (known, sA) ->
  contractConstants sA = contractConstants s
  /\ planetLocationMap sA = planetLocationMap s
  /\ coordsToLocation sA = coordsToLocation s
  /\ forall pA, planets sA !! id = Some pA -> known = Some pA.
Proof.
  unfold getPlanetWithId.
  destruct (planets s !! id) as [p|] eqn:Hp.
  { intros [= <- <-]. repeat split. intros pA. rewrite Hp. now intros [= <-]. }
  destruct (getLocationOfPlanet id s) as [loc'|].
  2: { intros [= <- <-]. repeat split. intros pA. rewrite Hp. discriminate. }
  unfold getPlanetWithLocation.
  destruct (planets s !! WorldLocation.hash loc') as [q|] eqn:Hq.
  - cbn [Result_bind]. unfold updatePlanetIfStale.
    destruct (_ >? 1).
    2: { intros [= <- <-]. repeat split. intros pA. rewrite Hp. discriminate. }
    cbv zeta.
    assert (WorldLocation.hash loc' <> id) as Hne by (intros E; congruence).
    set (q' := updatePlanetToTime q _ now _).
    destruct (updatePlanetToTime_commits q now).
    + intros [= <- <-].
      destruct (setPlanet_frame q' (mutatePlanet (WorldLocation.hash loc') (fun _ => q') s))
        as (_ & -> & ->).
      split; [reflexivity|]. split; [reflexivity|].
      split. { unfold setPlanet, setObjectSyncState, insertPlanet.
               destruct (location q'); repeat case_bool_decide; reflexivity. }
      intros pA. rewrite setPlanet_planets.
      cbn [planets mutatePlanet set_planets set_myPlanets].
      destruct (decide (locationId q' = id)) as [E|E].
      * rewrite E, lookup_insert_eq. now intros [= <-].
      * rewrite lookup_insert_ne by exact E.
        rewrite lookup_alter_ne by exact Hne. rewrite Hp. discriminate.
    + intros [= <- <-]. repeat split. intros pA.
      cbn [planets mutatePlanet set_planets set_myPlanets].
      rewrite lookup_alter_ne by exact Hne. rewrite Hp. discriminate.
  - destruct (defaultPlanetFromLocation _ _ _ _) as [d|] eqn:ED; cbn [Result_bind];
      [|discriminate].
    intros [= <- <-].
    destruct (setPlanet_frame d s) as (_ & -> & ->).
    split; [reflexivity|]. split; [reflexivity|].
    split. { unfold setPlanet, setObjectSyncState, insertPlanet.
             destruct (location d); repeat case_bool_decide; reflexivity. }
    intros pA. rewrite setPlanet_planets.
    destruct (decide (locationId d = id)) as [E|E].
    + rewrite E, lookup_insert_eq. now intros [= <-].
    + rewrite lookup_insert_ne by exact E. rewrite Hp. discriminate.
Qed.

Lemma defaultPlanetFromLocation_placed (cc : ContractConstants) (touched : gset LocationId)
    (now : Q) (loc : WorldLocation.t) (d : Planet) :
  defaultPlanetFromLocation cc touched now loc = Ok d ->
  locationId d = WorldLocation.hash loc
  /\ location d = Some loc
  /\ placeAt cc loc d = d
  /\ planetLevel d
     = planetLevelFromHexPerlin cc (WorldLocation.hash loc) (WorldLocation.perlin loc).
Proof.
  unfold defaultPlanetFromLocation.
  destruct (planetTypeFromHexPerlin cc _ _) as [pt|]; [|discriminate].
  cbv zeta. intros [= <-]. repeat split.
Qed.



(** The postcondition of [addPlanetLocation], with the planet that was
    there before, if any, kept but for its location and biome. *)
Lemma addPlanetLocation_located (now : Q) (loc : WorldLocation.t) (s s1 : GameObjects) :
  addPlanetLocation now loc s = Ok s1 ->
  located loc s1
  /\ contractConstants s1 = contractConstants s
  /\ coordsToLocation s1 !! getCoordsString (WorldLocation.coords loc)
     = match coordsToLocation s !! getCoordsString (WorldLocation.coords loc) with
       | Some first => Some first
       | None => Some loc
       end
  /\ (forall p0, planets s !! WorldLocation.hash loc = Some p0 ->
        planets s1 !! WorldLocation.hash loc = Some (placeAt (contractConstants s) loc p0)).
Proof.
  unfold addPlanetLocation. cbv zeta.
  destruct (getPlanetWithId now (WorldLocation.hash loc) false s) as [[known sA]|] eqn:EK;
    cbn [Result_bind]; [|discriminate].
  pose proof (getPlanetWithId_known _ _ _ _ _ EK) as (HC & HL & HCo & HK).
  assert (forall p0, planets s !! WorldLocation.hash loc = Some p0 ->
            planets sA !! WorldLocation.hash loc = Some p0) as Hkeep.
  { intros p0 Hp0. revert EK. unfold getPlanetWithId. rewrite Hp0. now intros [= _ <-]. }
  clear EK.
  set (hash := WorldLocation.hash loc) in *.
  set (str := getCoordsString (WorldLocation.coords loc)) in *.
  match goal with
  | |- context [insertPlanet loc ?l sA] => set (level := l)
  end.
  set (sC := set_planetLocationMap _ (insertPlanet loc level sA)).
  set (sD := match coordsToLocation sC !! str with
             | Some _ => sC
             | None => set_coordsToLocation (<[str := loc]> (coordsToLocation sC)) sC
             end).
  assert (planets sD = planets sA /\ myPlanets sD = myPlanets sA
          /\ contractConstants sD = contractConstants s
          /\ touchedPlanetIds sD = touchedPlanetIds sA
          /\ planetLocationMap sD = <[hash := loc]> (planetLocationMap sA)
          /\ layeredMap sD = <[hash := (loc, level)]> (layeredMap sA)
          /\ address sD = address sA
          /\ coordsToLocation sD !! str
             = match coordsToLocation s !! str with
               | Some first => Some first
               | None => Some loc
               end) as (DP & DM & DC & DT & DL & DLa & DA & DCo).
  { subst sD sC. cbn [coordsToLocation set_planetLocationMap insertPlanet set_layeredMap].
    rewrite HCo.
    destruct (coordsToLocation s !! str) eqn:ES; cbn; rewrite ?HCo, ?ES, ?lookup_insert_eq;
      repeat split; assumption. }
  clearbody sD. clear sC.
  rewrite DP.
  destruct (planets sA !! hash) as [pA|] eqn:HpA; cbn [Result_bind].
  - intros [= <-]. specialize (HK pA eq_refl). subst known.
    cbn [contractConstants mutatePlanet set_myPlanets set_planets].
    rewrite DC.
    split; [|split; [reflexivity|split]].
    + unfold located. fold hash. fold str.
      cbn [planetLocationMap coordsToLocation planets myPlanets layeredMap contractConstants
           mutatePlanet set_myPlanets set_planets].
      rewrite DL, DLa, DCo, DP, DM, DC, !lookup_insert_eq.
      split; [reflexivity|]. split; [destruct (coordsToLocation s !! str); eauto|].
      split.
      * exists (placeAt (contractConstants s) loc pA).
        rewrite lookup_alter, decide_True, HpA by reflexivity. cbn [fmap option_fmap option_map].
        split; [reflexivity|]. split; [reflexivity|].
        subst level. unfold levelOrGenerated. cbn [planetLevel placeAt set_biome set_location].
        rewrite HC. reflexivity.
      * intros q. rewrite lookup_alter, decide_True by reflexivity.
        destruct (myPlanets sA !! hash) as [q0|]; cbn; [|discriminate].
        intros [= <-]. reflexivity.
    + cbn [coordsToLocation mutatePlanet set_myPlanets set_planets]. exact DCo.
    + intros p0 Hp0. apply Hkeep in Hp0. injection Hp0 as <-.
      cbn [planets mutatePlanet set_myPlanets set_planets].
      rewrite DP, lookup_alter, decide_True, HpA by reflexivity. reflexivity.
  - rewrite DC, DT.
    destruct (defaultPlanetFromLocation (contractConstants s) (touchedPlanetIds sA) now loc)
      as [d|] eqn:ED; cbn [Result_bind]; [|discriminate].
    intros [= <-].
    destruct (defaultPlanetFromLocation_placed _ _ _ _ _ ED) as (Did & Dloc & Dpl & Dlvl).
    assert (contractConstants (setPlanet d sD) = contractConstants s) as SC
      by (rewrite (proj1 (proj2 (setPlanet_frame d sD))); exact DC).
    cbn [contractConstants mutatePlanet set_myPlanets set_planets]. rewrite SC.
    split; [|split; [reflexivity|split]].
    + unfold located. fold hash. fold str.
      cbn [planetLocationMap coordsToLocation planets myPlanets layeredMap contractConstants
           mutatePlanet set_myPlanets set_planets].
      rewrite SC.
      rewrite (proj2 (proj2 (setPlanet_frame d sD))), DL, lookup_insert_eq.
      split; [reflexivity|].
      assert (coordsToLocation (setPlanet d sD) = coordsToLocation sD) as ->.
      { unfold setPlanet, setObjectSyncState, insertPlanet.
        destruct (location d); repeat case_bool_decide; reflexivity. }
      rewrite DCo. split; [destruct (coordsToLocation s !! str); eauto|].
      split.
      * exists d. rewrite setPlanet_planets, Did. fold hash.
        rewrite lookup_alter, decide_True, lookup_insert_eq by reflexivity.
        cbn [fmap option_fmap option_map]. fold (placeAt (contractConstants s) loc d).
        rewrite Dpl. split; [reflexivity|]. split; [reflexivity|].
        unfold levelOrGenerated. rewrite Dlvl. fold hash.
        assert (layeredMap (setPlanet d sD)
                = <[hash := (loc, planetLevel d)]> (layeredMap sD)) as ->.
        { unfold setPlanet, setObjectSyncState, insertPlanet. rewrite Dloc.
          repeat case_bool_decide; reflexivity. }
        rewrite lookup_insert_eq, Dlvl. fold hash.
        destruct (Nat.eqb _ 0) eqn:E0; [|reflexivity].
        apply Nat.eqb_eq in E0. now rewrite E0.
      * intros q. rewrite lookup_alter, decide_True by reflexivity.
        destruct (myPlanets (setPlanet d sD) !! hash) as [q0|]; cbn; [|discriminate].
        intros [= <-]. reflexivity.
    + cbn [coordsToLocation mutatePlanet set_myPlanets set_planets].
      assert (coordsToLocation (setPlanet d sD) = coordsToLocation sD) as ->.
      { unfold setPlanet, setObjectSyncState, insertPlanet.
        destruct (location d); repeat case_bool_decide; reflexivity. }
      exact DCo.
    + intros p0 Hp0. apply Hkeep in Hp0. congruence.
Qed.

Lemma located_addPlanetLocation (now : Q) (loc : WorldLocation.t) (s : GameObjects) :
  located loc s -> addPlanetLocation now loc s = Ok s.
Proof.
  intros (HL & [first HCo] & (p & Hp & Hpl & Hla) & HM).
  unfold addPlanetLocation. cbv zeta.
  unfold getPlanetWithId at 1. rewrite Hp. cbn [Result_bind].
  fold (levelOrGenerated (contractConstants s) loc p).
  assert (insertPlanet loc (levelOrGenerated (contractConstants s) loc p) s = s) as ->.
  { unfold insertPlanet. rewrite insert_id by exact Hla. now destruct s. }
  assert (set_planetLocationMap (<[WorldLocation.hash loc := loc]> (planetLocationMap s)) s
          = s) as ->.
  { rewrite insert_id by exact HL. now destruct s. }
  rewrite HCo, Hp. cbn [Result_bind]. f_equal.
  unfold mutatePlanet.
  fold (placeAt (contractConstants s) loc).
  rewrite (alter_id _ (planets s)) by (intros q Hq; rewrite Hp in Hq; now injection Hq as <-).
  rewrite (alter_id _ (myPlanets s)) by exact HM.
  apply store_eta_eq.
Qed.

Lemma wellFiled_frame (s s' : GameObjects) :
  planets s' = planets s -> planetLocationMap s' = planetLocationMap s ->
  wellFiled s -> wellFiled s'.
Proof. unfold wellFiled. intros -> ->. auto. Qed.

Lemma wellFiled_setPlanet (planet : Planet) (s : GameObjects) :
  wellFiled s -> wellFiled (setPlanet planet s).
Proof.
  intros [H1 H2]. split.
  - intros id p. rewrite setPlanet_planets.
    destruct (decide (locationId planet = id)) as [E|E].
    + rewrite E, lookup_insert_eq. intros [= <-]. exact E.
    + rewrite lookup_insert_ne by exact E. apply H1.
  - rewrite (proj2 (proj2 (setPlanet_frame planet s))). exact H2.
Qed.

Lemma wellFiled_mutatePlanet (key : LocationId) (f : Planet -> Planet) (s : GameObjects) :
  (forall p, planets s !! key = Some p -> locationId (f p) = key) ->
  wellFiled s -> wellFiled (mutatePlanet key f s).
Proof.
  intros Hf [H1 H2]. split; [|exact H2].
  intros id p. cbn [planets mutatePlanet set_planets set_myPlanets].
  rewrite lookup_alter. case_decide as E.
  - subst id. destruct (planets s !! key) as [q|] eqn:Hq; cbn; [|discriminate].
    intros [= <-]. now apply Hf.
  - apply H1.
Qed.

Lemma wellFiled_updateScore (planetId : LocationId) (s : GameObjects) :
  wellFiled s -> wellFiled (updateScore planetId s).
Proof.
  intros H. unfold updateScore. destruct (planets s !! planetId) as [planet|] eqn:E; [|exact H].
  apply wellFiled_mutatePlanet; [|exact H].
  intros p Hp. cbn. now apply (proj1 H).
Qed.

Lemma wellFiled_updatePlanetIfStale (now : Q) (key : LocationId) (planet : Planet)
    (s : GameObjects) :
  planets s !! key = Some planet ->
  wellFiled s -> wellFiled (updatePlanetIfStale now key planet s).2.
Proof.
  intros Hp H. unfold updatePlanetIfStale.
  destruct (_ >? 1); [|exact H]. cbv zeta.
  set (q' := updatePlanetToTime planet _ now _).
  assert (locationId q' = key) as Hq.
  { subst q'. rewrite (proj1 (proj2 (proj2 (proj2 (proj2 (proj2 (proj2
      (updatePlanetToTime_frame planet (getPlanetArtifacts (locationId planet) s) now
         (contractConstants s))))))))). now apply (proj1 H). }
  assert (wellFiled (mutatePlanet key (fun _ => q') s)) as HM
    by (apply wellFiled_mutatePlanet; [intros; exact Hq | exact H]).
  destruct (updatePlanetToTime_commits planet now); cbn [snd]; [|exact HM].
  now apply wellFiled_setPlanet.
Qed.

Lemma wellFiled_getPlanetWithLocation (now : Q) (loc : WorldLocation.t) (s : GameObjects)
    (r : Planet * GameObjects) :
  getPlanetWithLocation now loc s = Ok r -> wellFiled s -> wellFiled r.2.
Proof.
  unfold getPlanetWithLocation.
  destruct (planets s !! WorldLocation.hash loc) as [planet|] eqn:Hp.
  - intros [= <-]. now apply wellFiled_updatePlanetIfStale.
  - destruct (defaultPlanetFromLocation _ _ _ _) as [d|]; cbn; [|discriminate].
    intros [= <-]. cbn [snd]. apply wellFiled_setPlanet.
Qed.

Lemma wellFiled_getPlanetWithId (now : Q) (planetId : LocationId) (updateIfStale : bool)
    (s : GameObjects) (r : option Planet * GameObjects) :
  getPlanetWithId now planetId updateIfStale s = Ok r -> wellFiled s -> wellFiled r.2.
Proof.
  unfold getPlanetWithId.
  destruct (planets s !! planetId) as [planet|] eqn:Hp.
  - destruct updateIfStale.
    + pose proof (wellFiled_updatePlanetIfStale now planetId planet s Hp) as H.
      destruct (updatePlanetIfStale now planetId planet s) as [p' s'].
      intros [= <-]. exact H.
    + intros [= <-]. auto.
  - destruct (getLocationOfPlanet planetId s) as [loc|]; [|intros [= <-]; auto].
    destruct (getPlanetWithLocation now loc s) as [[p' s']|] eqn:E; cbn; [|discriminate].
    intros [= <-]. exact (wellFiled_getPlanetWithLocation _ _ _ _ E).
Qed.

Lemma wellFiled_addPlanetLocation (now : Q) (loc : WorldLocation.t) (s s' : GameObjects) :
  addPlanetLocation now loc s = Ok s' -> wellFiled s -> wellFiled s'.
Proof.
  unfold addPlanetLocation. cbv zeta.
  destruct (getPlanetWithId now _ false s) as [[known sA]|] eqn:E1; cbn [Result_bind];
    [|discriminate].
  intros H HW. apply (wellFiled_getPlanetWithId _ _ _ _ _ E1) in HW. cbn [snd] in HW.
  clear E1. revert H.
  match goal with
  | |- context [insertPlanet loc ?l sA] => generalize l; intros level
  end.
  set (sC := set_planetLocationMap _ (insertPlanet loc level sA)).
  assert (wellFiled sC) as HC.
  { destruct HW as [H1 H2]. split; [exact H1|].
    intros id l. subst sC. cbn [planetLocationMap set_planetLocationMap].
    destruct (decide (WorldLocation.hash loc = id)) as [E|E].
    - rewrite E, lookup_insert_eq. intros [= <-]. exact E.
    - rewrite lookup_insert_ne by exact E. apply H2. }
  clearbody sC.
  set (sD := match coordsToLocation sC !! _ with Some _ => sC | None => _ end).
  assert (wellFiled sD) as HD by (subst sD; destruct (coordsToLocation sC !! _); exact HC).
  clearbody sD.
  destruct (planets sD !! WorldLocation.hash loc) as [p|] eqn:Hp; cbn [Result_bind].
  - intros [= <-]. apply wellFiled_mutatePlanet; [|exact HD].
    intros q Hq. cbn. now apply (proj1 HD).
  - destruct (defaultPlanetFromLocation _ _ _ _) as [d|] eqn:ED; cbn [Result_bind];
      [|discriminate].
    intros [= <-].
    apply wellFiled_mutatePlanet; [|now apply wellFiled_setPlanet].
    intros q Hq. cbn. apply (proj1 (wellFiled_setPlanet d sD HD)). exact Hq.
Qed.

Lemma wellFiled_processArrival (planetId : LocationId) (nowInSeconds : Q)
    (acc : list ArrivalWithTimer * GameObjects) (a : QueuedArrival.t) :
  wellFiled acc.2 -> wellFiled (processArrival planetId nowInSeconds acc a).2.
Proof.
  destruct acc as [awts s]. cbn [snd]. intros H. unfold processArrival.
  destruct (planets s !! planetId) as [planet|] eqn:Hp; [|exact H].
  destruct (_ >? 0); [|exact H].
  destruct (arrive planet _ a _) as [diff|e] eqn:E; [|exact H].
  assert (wellFiled (mutatePlanet planetId (fun _ => current diff) s)) as HM.
  { apply wellFiled_mutatePlanet; [|exact H]. intros q Hq.
    apply arrive_frame in E.
    pose proof (f_equal (fun t => snd (fst (fst t))) E) as E1. cbn in E1. rewrite E1.
    rewrite (proj1 (proj2 (proj2 (proj2 (proj2 (proj2 (proj2
      (updatePlanetToTime_frame planet (getPlanetArtifacts (locationId planet) s)
         (QueuedArrival.arrivalTime a * 1000) (contractConstants s))))))))).
    now apply (proj1 H). }
  destruct (emitArrivalNotifications diff _) as [s2|e] eqn:E2; [|exact HM].
  cbn [snd]. destruct (emitArrivalNotifications_frame _ _ _ E2) as [F1 F2].
  revert HM. apply wellFiled_frame; [exact F1|].
  revert E2. unfold emitArrivalNotifications. cbn zeta.
  destruct (planetCanUpgrade (previous diff)) as [previousCan|]; cbn; [|discriminate].
  destruct (if previousCan then Ok false else planetCanUpgrade (current diff))
    as [currentCan|]; cbn; [|discriminate].
  intros [= <-].
  repeat match goal with
         | |- context [if ?b then _ else _] => destruct b
         end; reflexivity.
Qed.

Lemma wellFiled_processArrivalsForPlanet (now : Q) (planetId : LocationId)
    (arrs : list QueuedArrival.t) (s : GameObjects) :
  wellFiled s -> wellFiled (processArrivalsForPlanet now planetId arrs s).2.
Proof.
  intros H. unfold processArrivalsForPlanet.
  destruct (planets s !! planetId); [|exact H]. cbn zeta.
  pose proof (fold_left_invariant
                (fun acc : list ArrivalWithTimer * GameObjects => wellFiled acc.2)
                (processArrival planetId (now / 1000)) (sortByArrivalTime arrs)
                (wellFiled_processArrival planetId (now / 1000)) ([], s) H) as HF.
  destruct (fold_left _ _ _) as [awts s1]. cbn [snd] in *.
  now apply wellFiled_updateScore.
Qed.

Lemma updatePlanetIfStale_stored (now : Q) (key : LocationId) (planet : Planet)
    (s : GameObjects) :
  planets s !! key = Some planet -> locationId planet = key ->
  planets (updatePlanetIfStale now key planet s).2 !! key
  = Some (updatePlanetIfStale now key planet s).1.
Proof.
  intros Hp HL. unfold updatePlanetIfStale.
  destruct (_ >? 1); [|exact Hp]. cbv zeta.
  set (q' := updatePlanetToTime planet _ now _).
  assert (locationId q' = key) as Hq.
  { subst q'. rewrite (proj1 (proj2 (proj2 (proj2 (proj2 (proj2 (proj2
      (updatePlanetToTime_frame planet (getPlanetArtifacts (locationId planet) s) now
         (contractConstants s))))))))). exact HL. }
  destruct (updatePlanetToTime_commits planet now); cbn [fst snd].
  - rewrite setPlanet_planets, Hq. apply lookup_insert_eq.
  - cbn [planets mutatePlanet set_planets set_myPlanets].
    rewrite lookup_alter, decide_True, Hp by reflexivity. reflexivity.
Qed.

Lemma getPlanetWithId_stored (now : Q) (planetId : LocationId) (updateIfStale : bool)
    (s : GameObjects) (r : option Planet * GameObjects) (p : Planet) :
  wellFiled s ->
  getPlanetWithId now planetId updateIfStale s = Ok r -> r.1 = Some p ->
  planets r.2 !! planetId = Some p.
Proof.
  intros [H1 H2]. unfold getPlanetWithId.
  destruct (planets s !! planetId) as [planet|] eqn:Hp.
  - destruct updateIfStale.
    + pose proof (updatePlanetIfStale_stored now planetId planet s Hp (H1 _ _ Hp)) as H.
      destruct (updatePlanetIfStale now planetId planet s) as [p' s'].
      intros [= <-]. cbn [fst snd] in *. now intros [= <-].
    + intros [= <-]. cbn [fst snd]. now intros [= <-].
  - unfold getLocationOfPlanet.
    destruct (planetLocationMap s !! planetId) as [loc|] eqn:HL;
      [|intros [= <-]; discriminate].
    apply H2 in HL. unfold getPlanetWithLocation. rewrite HL, Hp.
    destruct (defaultPlanetFromLocation _ _ _ _) as [d|] eqn:ED; cbn [Result_bind];
      [|discriminate].
    intros [= <-]. cbn [fst snd]. intros [= <-].
    rewrite setPlanet_planets.
    assert (locationId d = planetId) as ->; [|apply lookup_insert_eq].
    revert ED. unfold defaultPlanetFromLocation.
    destruct (planetTypeFromHexPerlin _ _ _); [|discriminate].
    cbv zeta. intros [= <-]. exact HL.
Qed.

(** X19: A store in which every planet is filed under its own id and every
    location under its hash stays so through replacePlanetFromContractData,
    addPlanetLocation and getPlanetWithId, and a planet that getPlanetWithId
    returns has the id that was asked for and is stored under it. *)
Theorem wellFiled_is_kept (now : Q) (s : GameObjects) :
  wellFiled s ->
  (forall planet updatedArrivals updatedArtifactsOnPlanet revealedLocation claimerEthAddress
          s',
     replacePlanetFromContractData now planet updatedArrivals updatedArtifactsOnPlanet
       revealedLocation claimerEthAddress s = Ok s' -> wellFiled s')
  /\ (forall loc s', addPlanetLocation now loc s = Ok s' -> wellFiled s')
  /\ (forall planetId updateIfStale r,
        getPlanetWithId now planetId updateIfStale s = Ok r ->
        wellFiled r.2
        /\ forall p, r.1 = Some p -> locationId p = planetId /\ planets r.2 !! planetId = Some p).
Proof.
  intros HW. split; [|split].
  - intros planet ua uart rl cl s'.
    unfold replacePlanetFromContractData. cbv zeta.
    set (s0 := set_touchedPlanetIds _ s).
    assert (wellFiled s0) as H0 by exact HW.
    set (merged := mergeWithLocal s0 planet _ _ _). clearbody merged s0.
    destruct (match rl with
              | Some r => addPlanetLocation now (RevealedLocation.location r)
                            (markLocationRevealed r s0)
              | None => Ok s0
              end) as [s1|] eqn:E1; cbn [Result_bind]; [|discriminate].
    assert (wellFiled s1) as H1.
    { destruct rl as [r|]; [|injection E1 as <-; exact H0].
      apply (wellFiled_addPlanetLocation _ _ _ _ E1). exact H0. }
    intros [= <-]. apply wellFiled_updateScore.
    pose proof (wellFiled_setPlanet merged s1 H1) as H2.
    destruct ua as [ua|]; [|exact H2]. cbv zeta.
    assert (wellFiled (clearOldArrivals merged (setPlanet merged s1))) as H3.
    { revert H2. apply wellFiled_frame.
      - apply clearOldArrivals_frame.
      - unfold clearOldArrivals.
        change (planetLocationMap (set_planetArrivalIds ?v ?x)) with (planetLocationMap x).
        destruct (planetArrivalIds _ !! _) as [ids|]; [|reflexivity].
        apply (fold_left_invariant
                 (fun x => planetLocationMap x = planetLocationMap (setPlanet merged s1)));
          [|reflexivity].
        intros x id <-. unfold clearOldArrival. destruct (arrivals x !! id); reflexivity. }
    pose proof (wellFiled_processArrivalsForPlanet now (locationId merged) ua _ H3) as H4.
    destruct (processArrivalsForPlanet _ _ _ _) as [awts s3]. cbn [snd] in H4.
    apply (fold_left_invariant wellFiled); [|exact H4].
    intros x awt. apply wellFiled_frame; unfold installArrival; cbn;
      destruct (planetArrivalIds x !! _); reflexivity.
  - intros loc s' H. exact (wellFiled_addPlanetLocation _ _ _ _ H HW).
  - intros planetId upd r H.
    pose proof (wellFiled_getPlanetWithId _ _ _ _ _ H HW) as HW'.
    split; [exact HW'|]. intros p Hp.
    pose proof (getPlanetWithId_stored _ _ _ _ _ _ HW H Hp) as HS.
    split; [exact (proj1 HW' _ _ HS) | exact HS].
Qed.

Lemma updatePlanetIfStale_domain (now : Q) (key : LocationId) (planet : Planet)
    (s : GameObjects) :
  wellFiled s -> planets s !! key = Some planet ->
  planetLocationMap (updatePlanetIfStale now key planet s).2 = planetLocationMap s
  /\ forall id, is_Some (planets (updatePlanetIfStale now key planet s).2 !! id)
                <-> is_Some (planets s !! id).
Proof.
  intros HW Hp. unfold updatePlanetIfStale.
  destruct (_ >? 1); [|split; [reflexivity | tauto]]. cbv zeta.
  set (q' := updatePlanetToTime planet _ now _).
  assert (locationId q' = key) as Hq.
  { subst q'. rewrite (proj1 (proj2 (proj2 (proj2 (proj2 (proj2 (proj2
      (updatePlanetToTime_frame planet (getPlanetArtifacts (locationId planet) s) now
         (contractConstants s))))))))). now apply (proj1 HW). }
  assert (forall id, is_Some (alter (fun _ => q') key (planets s) !! id)
                     <-> is_Some (planets s !! id)) as HA.
  { intros id. rewrite lookup_alter. case_decide as E; [|tauto]. subst.
    rewrite Hp. cbn. split; eauto. }
  destruct (updatePlanetToTime_commits planet now); cbn [snd].
  - rewrite (proj2 (proj2 (setPlanet_frame _ _))). split; [reflexivity|].
    intros id. rewrite setPlanet_planets, Hq.
    cbn [planets mutatePlanet set_planets set_myPlanets].
    destruct (decide (key = id)) as [<-|E].
    + rewrite lookup_insert_eq, Hp. split; eauto.
    + rewrite lookup_insert_ne by exact E. apply HA.
  - split; [reflexivity|]. exact HA.
Qed.

Lemma getPlanetWithId_resolves (now : Q) (planetId : LocationId) (updateIfStale : bool)
    (s : GameObjects) (r : option Planet * GameObjects) :
  wellFiled s ->
  getPlanetWithId now planetId updateIfStale s = Ok r ->
  (is_Some r.1 <-> resolvable s planetId = true)
  /\ forall id, resolvable r.2 id = resolvable s id.
Proof.
  intros HW. unfold getPlanetWithId, resolvable.
  destruct (planets s !! planetId) as [planet|] eqn:Hp.
  - assert (bool_decide (is_Some (Some planet) \/ is_Some (planetLocationMap s !! planetId))
            = true) as HT by (apply bool_decide_eq_true; eauto).
    destruct updateIfStale.
    + pose proof (updatePlanetIfStale_domain now planetId planet s HW Hp) as [HL HD].
      destruct (updatePlanetIfStale now planetId planet s) as [p' s'].
      intros [= <-]. cbn [fst snd] in *. split; [split; eauto|].
      intros id. rewrite HL. apply bool_decide_ext. now rewrite HD.
    + intros [= <-]. cbn [fst snd]. split; [split; eauto|]. reflexivity.
  - unfold getLocationOfPlanet.
    destruct (planetLocationMap s !! planetId) as [loc|] eqn:HL.
    2: { intros [= <-]. cbn [fst snd]. split; [|reflexivity].
         split; [intros [? H]; discriminate|].
         intros H. apply bool_decide_eq_true in H as [[? H]|[? H]]; discriminate. }
    pose proof (proj2 HW _ _ HL) as Hh.
    unfold getPlanetWithLocation. rewrite Hh, Hp.
    destruct (defaultPlanetFromLocation _ _ _ _) as [d|] eqn:ED; cbn [Result_bind];
      [|discriminate].
    intros [= <-]. cbn [fst snd]. split.
    + split; [intros _; apply bool_decide_eq_true; eauto | eauto].
    + intros id. rewrite (proj2 (proj2 (setPlanet_frame _ _))), setPlanet_planets.
      assert (locationId d = planetId) as ->.
      { revert ED. unfold defaultPlanetFromLocation.
        destruct (planetTypeFromHexPerlin _ _ _); [|discriminate].
        cbv zeta. intros [= <-]. exact Hh. }
      apply bool_decide_ext.
      destruct (decide (planetId = id)) as [<-|E].
      * rewrite lookup_insert_eq, HL. split; eauto.
      * rewrite lookup_insert_ne by exact E. reflexivity.
Qed.

(** X20: getPlanetsWithIds returns, in the order asked, one planet for each
    id for which the store holds a planet or a location, and skips the other
    ids. *)
Theorem getPlanetsWithIds_filters_unknown_ids (now : Q) (locationIds : list LocationId)
    (updateIfStale : bool) (s : GameObjects) (r : list Planet * GameObjects) :
  wellFiled s ->
  getPlanetsWithIds now locationIds updateIfStale s = Ok r ->
  locationId <$> r.1 = List.filter (resolvable s) locationIds
  /\ wellFiled r.2.
Proof.
  revert s r. induction locationIds as [|id ids IH]; intros s r HW; cbn [getPlanetsWithIds].
  - intros [= <-]. cbn. split; [reflexivity | exact HW].
  - destruct (getPlanetWithId now id updateIfStale s) as [[p s1]|] eqn:E1; cbn [Result_bind];
      [|discriminate].
    pose proof (wellFiled_getPlanetWithId _ _ _ _ _ E1 HW) as HW1. cbn [snd] in HW1.
    destruct (getPlanetWithId_resolves _ _ _ _ _ HW E1) as [HR HD]. cbn [fst snd] in *.
    destruct (getPlanetsWithIds now ids updateIfStale s1) as [[ps s2]|] eqn:E2;
      cbn [Result_bind]; [|discriminate].
    destruct (IH _ _ HW1 E2) as (I1 & I3). cbn [fst snd] in *.
    intros [= <-]. cbn [fst snd List.filter].
    assert (List.filter (resolvable s1) ids = List.filter (resolvable s) ids) as HF.
    { apply List.filter_ext. exact HD. }
    rewrite HF in I1.
    destruct p as [p|].
    + rewrite (proj1 HR) by eauto. cbn [fmap list_fmap].
      pose proof (getPlanetWithId_stored _ _ _ _ _ p HW E1 eq_refl) as HS. cbn [snd] in HS.
      pose proof (proj1 HW1 _ _ HS) as HL.
      split; [rewrite HL; f_equal; exact I1 | exact I3].
    + destruct (resolvable s id) eqn:ER.
      * destruct (proj2 HR eq_refl); discriminate.
      * auto.
Qed.

(** X21: Adding the same location a second time changes nothing: the second
    addPlanetLocation returns the store exactly as the first call left it,
    at whatever time it is called. *)
Theorem addPlanetLocation_idempotent (now now' : Q) (loc : WorldLocation.t)
    (s s1 : GameObjects) :
  addPlanetLocation now loc s = Ok s1 -> addPlanetLocation now' loc s1 = Ok s1.
Proof.
  intros H. apply located_addPlanetLocation. exact (proj1 (addPlanetLocation_located _ _ _ _ H)).
Qed.

Lemma updatePlanetToTime_location (planet : Planet) (arts : list Artifact.t) (t : Q)
    (cc : ContractConstants) :
  location (updatePlanetToTime planet arts t cc) = location planet
  /\ biome (updatePlanetToTime planet arts t cc) = biome planet.
Proof.
  unfold updatePlanetToTime.
  destruct (t <? lastUpdated planet * 1000); [split; reflexivity|].
  cbn zeta.
  destruct (find (isActivePhotoid cc t) arts) as [a|];
    [destruct (localPhotoidUpgrade planet) as [u|] eqn:E; cbn; rewrite ?E|];
    split; reflexivity.
Qed.

(** X22: After addPlanetLocation the location is found by its hash and a
    planet is stored under the hash with that location and its biome (a
    planet already stored is kept, with only location and biome assigned);
    the coordinates keep the first location registered for them, and when
    they were free getPlanetWithCoords finds a planet at the new location. *)
Theorem addPlanetLocation_makes_the_planet_locatable (now now' : Q) (loc : WorldLocation.t)
    (s s1 : GameObjects) :
  addPlanetLocation now loc s = Ok s1 ->
  let hash := WorldLocation.hash loc in
  let str := getCoordsString (WorldLocation.coords loc) in
  getLocationOfPlanet hash s1 = Some loc
  /\ (exists p, planets s1 !! hash = Some p
                /\ location p = Some loc
                /\ biome p = Some (getBiome (contractConstants s) loc))
  /\ (forall p0, planets s !! hash = Some p0 ->
        planets s1 !! hash = Some (placeAt (contractConstants s) loc p0))
  /\ coordsToLocation s1 !! str
     = match coordsToLocation s !! str with
       | Some first => Some first
       | None => Some loc
       end
  /\ (coordsToLocation s !! str = None ->
      exists p s2,
        getPlanetWithCoords now' (WorldLocation.coords loc) s1 = Ok (Some p, s2)
        /\ location p = Some loc).
Proof.
  intros H hash str.
  destruct (addPlanetLocation_located _ _ _ _ H) as (HL & HC & HCo & HK).
  destruct HL as (L1 & L2 & (p & Hp & Hpl & Hla) & L4).
  fold hash in L1, Hp, Hla, HK. fold str in L2, HCo.
  assert (location p = Some loc /\ biome p = Some (getBiome (contractConstants s) loc))
    as [Hloc Hbio].
  { rewrite <- Hpl, HC. split; reflexivity. }
  split; [exact L1|]. split; [eauto|]. split; [exact HK|]. split; [exact HCo|].
  intros Hnone. rewrite Hnone in HCo.
  unfold getPlanetWithCoords. fold str. rewrite HCo.
  unfold getPlanetWithLocation. fold hash. rewrite Hp. cbn [Result_bind].
  destruct (updatePlanetIfStale now' hash p s1) as [p' s2] eqn:EU.
  exists p', s2. split; [reflexivity|].
  assert (p' = (updatePlanetIfStale now' hash p s1).1) as -> by now rewrite EU.
  unfold updatePlanetIfStale. destruct (_ >? 1); [|exact Hloc]. cbn [fst].
  rewrite (proj1 (updatePlanetToTime_location _ _ _ _)). exact Hloc.
Qed.

Lemma Map_values_In {V : Type} (m : gmap string V) (v : V) :
  In v (Map_values m) <-> exists k, m !! k = Some v.
Proof.
  unfold Map_values. rewrite <- list_elem_of_In, list_elem_of_fmap. split.
  - intros ([k v'] & -> & H). apply elem_of_map_to_list in H. eauto.
  - intros [k H]. exists (k, v). split; [reflexivity|]. now apply elem_of_map_to_list.
Qed.

(** X23: After replaceArtifactFromContractData, getArtifactsOwnedBy lists
    the artifact for exactly its currentOwner and lists every other artifact
    for the same addresses as before (in a store that files every artifact
    under its own id). *)
Theorem replaced_artifact_is_listed_for_its_owner (artifact : Artifact.t) (s : GameObjects)
    (addr : EthAddress) :
  artifactsWellFiled s ->
  let s' := replaceArtifactFromContractData artifact s in
  artifactsWellFiled s'
  /\ ((exists a, In a (getArtifactsOwnedBy addr s') /\ Artifact.id a = Artifact.id artifact)
      <-> addr = Artifact.currentOwner artifact)
  /\ (forall a, Artifact.id a <> Artifact.id artifact ->
        In a (getArtifactsOwnedBy addr s') <-> In a (getArtifactsOwnedBy addr s)).
Proof.
  intros HW s'.
  destruct (replaceArtifactFromContractData_stores artifact s) as (stored & HA & HF & _ & _).
  fold s' in HA.
  assert (Artifact.id stored = Artifact.id artifact
          /\ Artifact.currentOwner stored = Artifact.currentOwner artifact) as [Sid Sow].
  { unfold artifactLedgerFields in HF. injection HF as -> _ -> _. split; reflexivity. }
  assert (artifactsWellFiled s') as HW'.
  { intros id a. rewrite HA.
    destruct (decide (Artifact.id artifact = id)) as [E|E].
    - rewrite E, lookup_insert_eq. intros [= <-]. congruence.
    - rewrite lookup_insert_ne by exact E. apply HW. }
  split; [exact HW'|].
  assert (forall (x : GameObjects) a,
            In a (getArtifactsOwnedBy addr x)
            <-> (exists k, artifacts x !! k = Some a) /\ Artifact.currentOwner a = addr) as HIn.
  { intros x a. unfold getArtifactsOwnedBy. rewrite filter_In, Map_values_In.
    now rewrite String.eqb_eq. }
  split.
  - split.
    + intros (a & Ha & Hid). apply HIn in Ha as [[k Hk] Ho].
      pose proof (HW' _ _ Hk) as Hk'. rewrite Hid in Hk'. subst k.
      rewrite HA, lookup_insert_eq in Hk. injection Hk as <-. congruence.
    + intros ->. exists stored. split; [|exact Sid].
      apply HIn. split; [|exact Sow]. exists (Artifact.id artifact).
      rewrite HA. apply lookup_insert_eq.
  - intros a Hne. rewrite !HIn. split; intros [[k Hk] Ho]; (split; [|exact Ho]); exists k.
    + rewrite HA in Hk.
      destruct (decide (Artifact.id artifact = k)) as [E|E].
      * subst k. rewrite lookup_insert_eq in Hk. injection Hk as <-. congruence.
      * now rewrite lookup_insert_ne in Hk by exact E.
    + rewrite HA. rewrite lookup_insert_ne; [exact Hk|].
      intros E. subst k. apply HW in Hk. congruence.
Qed.

(** X24: The pass the constructor schedules every 120 seconds publishes
    nothing, notifies nothing, schedules nothing and leaves the artifacts
    alone; it keeps the set of stored planets, and each planet keeps its id,
    owner and pending slots, never moves lastUpdated back, and is left
    exactly as it was when it has no owner. *)
Theorem refreshOwnedPlanets_is_silent (now : Q) (s : GameObjects) :
  let s' := refreshOwnedPlanets now s in
  published s' = published s /\ notifications s' = notifications s
  /\ scheduling s' = scheduling s /\ itemIndex s' = itemIndex s
  /\ (forall id, is_Some (planets s' !! id) <-> is_Some (planets s !! id))
  /\ (forall id p, planets s !! id = Some p ->
        exists p', planets s' !! id = Some p'
                   /\ locationId p' = locationId p /\ owner p' = owner p
                   /\ pendingSlots p' = pendingSlots p
                   /\ lastUpdated p <= lastUpdated p'
                   /\ (hasOwner p = false -> p' = p)).
Proof.
  cbv zeta. unfold refreshOwnedPlanets.
  cbn [published notifications scheduling itemIndex set_myPlanets set_planets planets
       arrivals planetArrivalIds timers nextTimer address artifacts myArtifacts wormholes
       contractConstants].
  repeat (split; [reflexivity|]).
  split.
  - intros id. rewrite lookup_fmap. destruct (planets s !! id); cbn; split; eauto.
  - intros id p Hp. rewrite lookup_fmap, Hp. cbn. eexists. split; [reflexivity|].
    unfold refreshOwnedPlanet. destruct (hasOwner p) eqn:HO.
    + destruct (updatePlanetToTime_frame p (getPlanetArtifacts (locationId p) s) now
                  (contractConstants s)) as (O & _ & _ & _ & _ & _ & L & _ & P & _).
      repeat split; try assumption; [apply updatePlanetToTime_lastUpdated | discriminate].
    + repeat split. apply Qle_refl.
Qed.

End StoreMore.

(** ** The optimistic overlay *)

Section OverlayProps.
Context {ext : Externals}.

Lemma findActionIdx_app {A : Type} (f : A -> string) (a : string) (l : list A) (e : A)
    (i : nat) :
  findActionIdx f a l i = None -> f e = a ->
  findActionIdx f a (l ++ [e]) i = Some (i + length l)%nat.
Proof.
  revert i. induction l as [|x l IH]; intros i Hn He; cbn [app findActionIdx length].
  - rewrite He, String.eqb_refl. f_equal. lia.
  - cbn [findActionIdx] in Hn. destruct (String.eqb (f x) a); [discriminate|].
    rewrite (IH _ Hn He). f_equal. lia.
Qed.

(** Pushing an entry and splicing by its action id gives the list back,
    when no earlier entry carries that id. *)
Lemma spliceByActionId_push {A : Type} (f : A -> string) (a : string) (l : list A) (e : A) :
  noEntry f a l -> f e = a -> spliceByActionId f a (l ++ [e]) = l.
Proof.
  intros Hn He. unfold spliceByActionId. rewrite (findActionIdx_app f a l e 0 Hn He).
  cbn [Nat.add]. rewrite take_app_length.
  rewrite drop_ge by (rewrite length_app; cbn; lia). apply app_nil_r.
Qed.

Lemma keyOfPlanet_known (id : LocationId) (s : GameObjects) (p : Planet) :
  planets s !! id = Some p -> keyOfPlanet id s = id.
Proof. unfold keyOfPlanet. now intros ->. Qed.

Lemma updatePlanetIfStale_slots (now : Q) (key : LocationId) (planet : Planet)
    (s : GameObjects) :
  pendingSlots (updatePlanetIfStale now key planet s).1 = pendingSlots planet
  /\ localState (updatePlanetIfStale now key planet s).1 = localState planet.
Proof.
  unfold updatePlanetIfStale. destruct (_ >? 1); [|split; reflexivity]. cbn [fst].
  split; apply updatePlanetToTime_frame.
Qed.

(** [onPlanet] on a planet the store has: the assignment is made on the
    planet brought current, which carries the same pending slots. *)
Lemma onPlanet_known (now : Q) (id : LocationId) (assign : Planet -> Planet)
    (s : GameObjects) (p : Planet) :
  wellFiled s -> planets s !! id = Some p ->
  (forall q, locationId (assign q) = locationId q) ->
  exists s' p',
    onPlanet now id assign s = Ok s'
    /\ pendingSlots p' = pendingSlots p
    /\ planets s' !! id = Some (assign p')
    /\ wellFiled s' /\ itemIndex s' = itemIndex s.
Proof.
  intros HW Hp HA. unfold onPlanet. rewrite (keyOfPlanet_known _ _ _ Hp).
  unfold getPlanetWithId. rewrite Hp.
  pose proof (updatePlanetIfStale_stored now id p s Hp (proj1 HW _ _ Hp)) as HS.
  pose proof (wellFiled_updatePlanetIfStale now id p s Hp HW) as HW1.
  pose proof (proj1 (updatePlanetIfStale_slots now id p s)) as HSl.
  pose proof (proj1 (updatePlanetIfStale_itemIndex now id p s)) as HI.
  destruct (updatePlanetIfStale now id p s) as [p' s1]. cbn [fst snd] in *.
  cbn [Result_bind]. exists (assignPlanet id (Some p') assign s1), p'.
  split; [reflexivity|]. split; [exact HSl|].
  unfold assignPlanet. cbv zeta.
  assert (locationId (assign p') = id) as HL by (rewrite HA; exact (proj1 HW1 _ _ HS)).
  split; [rewrite setPlanet_planets, HL; apply lookup_insert_eq|].
  split.
  - apply wellFiled_setPlanet. apply wellFiled_mutatePlanet; [intros; exact HL | exact HW1].
  - rewrite (proj1 (setPlanet_itemIndex _ _)). exact HI.
Qed.

(** X25: On an id for which the store holds neither a planet nor a location,
    updatePlanet changes nothing. On a stored planet it files under the id
    the result of the update function applied to the planet brought current:
    to the stored planet itself when it was updated within the last second,
    and otherwise to updatePlanetToTime of it at the present time with the
    artifacts the store lists on it (the update function keeping the
    locationId).  The store stays well filed and what it knows of artifacts
    and constants is unchanged. *)
Theorem updatePlanet_files_the_update (now : Q) (id : LocationId)
    (updateFn : Planet -> Planet) (s : GameObjects) :
  wellFiled s ->
  (forall q, locationId (updateFn q) = locationId q) ->
  (resolvable s id = false -> updatePlanet now id updateFn s = Ok s)
  /\ (forall p, planets s !! id = Some p ->
        let current :=
          if now / 1000 - lastUpdated p >? 1
          then updatePlanetToTime p (getPlanetArtifacts id s) now (contractConstants s)
          else p in
        exists s',
          updatePlanet now id updateFn s = Ok s'
          /\ planets s' !! id = Some (updateFn current)
          /\ wellFiled s' /\ itemIndex s' = itemIndex s).
Proof.
  intros HW HF. split.
  - unfold resolvable. intros HR. apply bool_decide_eq_false in HR.
    unfold updatePlanet, getPlanetWithId, getLocationOfPlanet. cbv zeta.
    destruct (planets s !! id) eqn:Hp; [exfalso; apply HR; eauto|].
    destruct (planetLocationMap s !! id) eqn:HL; [exfalso; apply HR; eauto|].
    reflexivity.
  - intros p Hp current.
    assert (locationId p = id) as HLp by exact (proj1 HW _ _ Hp).
    assert ((updatePlanetIfStale now id p s).1 = current) as Hcur.
    { unfold updatePlanetIfStale, current. rewrite HLp.
      destruct (_ >? 1); reflexivity. }
    unfold updatePlanet. rewrite (keyOfPlanet_known _ _ _ Hp).
    unfold getPlanetWithId. rewrite Hp.
    pose proof (updatePlanetIfStale_stored now id p s Hp HLp) as HS.
    pose proof (wellFiled_updatePlanetIfStale now id p s Hp HW) as HW1.
    pose proof (proj1 (updatePlanetIfStale_itemIndex now id p s)) as HI.
    rewrite Hcur in HS.
    destruct (updatePlanetIfStale now id p s) as [p' s1]. cbn [fst snd] in *. subst p'.
    cbn [Result_bind]. eexists. split; [reflexivity|].
    assert (locationId (updateFn current) = id) as HL
      by (rewrite HF; exact (proj1 HW1 _ _ HS)).
    split; [rewrite setPlanet_planets, HL; apply lookup_insert_eq|].
    split.
    + apply wellFiled_setPlanet. apply wellFiled_mutatePlanet; [intros; exact HL | exact HW1].
    + rewrite (proj1 (setPlanet_itemIndex _ _)). exact HI.
Qed.

Lemma setArtifact_frame (artifact : Artifact.t) (s : GameObjects) :
  planets (setArtifact artifact s) = planets s
  /\ planetLocationMap (setArtifact artifact s) = planetLocationMap s
  /\ contractConstants (setArtifact artifact s) = contractConstants s.
Proof.
  unfold setArtifact, setObjectSyncState.
  destruct (ArtifactType.eqb _ _), (truthy (Artifact.onPlanetId artifact)),
    (truthy (Artifact.wormholeTo artifact)), (isActivated artifact);
    repeat case_bool_decide; repeat split.
Qed.

(** [assignArtifact] on what the store has under the id. *)
Lemma assignArtifact_spec (aid : ArtifactId) (assignA : Artifact.t -> Artifact.t)
    (s : GameObjects) :
  artifactsWellFiled s ->
  (forall a, Artifact.id (assignA a) = Artifact.id a) ->
  let s' := assignArtifact aid (artifacts s !! aid) assignA s in
  artifacts s' !! aid = assignA <$> artifacts s !! aid
  /\ (forall other, other <> aid -> artifacts s' !! other = artifacts s !! other)
  /\ artifactsWellFiled s'
  /\ planets s' = planets s /\ planetLocationMap s' = planetLocationMap s.
Proof.
  intros HW HA. cbv zeta. unfold assignArtifact.
  destruct (artifacts s !! aid) as [a|] eqn:Ha; cbn [fmap option_fmap option_map].
  2: { rewrite Ha. repeat split; auto. }
  cbv zeta.
  destruct (setArtifact_artifacts (assignA a) (mutateArtifact aid (fun _ => assignA a) s))
    as [EA _].
  destruct (setArtifact_frame (assignA a) (mutateArtifact aid (fun _ => assignA a) s))
    as (EP & EL & _).
  rewrite EA, EP, EL. cbn [artifacts planets planetLocationMap mutateArtifact
                           set_myArtifacts set_artifacts].
  assert (Artifact.id (assignA a) = aid) as Hid by (rewrite HA; exact (HW _ _ Ha)).
  rewrite Hid.
  split; [apply lookup_insert_eq|]. split; [|split; [|split; reflexivity]].
  - intros other Hne. rewrite lookup_insert_ne by congruence.
    now rewrite lookup_alter_ne by congruence.
  - intros id x. rewrite EA.
    cbn [artifacts mutateArtifact set_myArtifacts set_artifacts]. rewrite Hid.
    destruct (decide (aid = id)) as [<-|E].
    + rewrite lookup_insert_eq. intros [= <-]. exact Hid.
    + rewrite lookup_insert_ne by exact E. rewrite lookup_alter_ne by exact E. apply HW.
Qed.

Lemma assignArtifact_frame (aid : ArtifactId) (artifact : option Artifact.t)
    (assignA : Artifact.t -> Artifact.t) (s : GameObjects) :
  planets (assignArtifact aid artifact assignA s) = planets s
  /\ planetLocationMap (assignArtifact aid artifact assignA s) = planetLocationMap s.
Proof.
  unfold assignArtifact. destruct artifact as [a|]; [|split; reflexivity]. cbv zeta.
  destruct (setArtifact_frame (assignA a) (mutateArtifact aid (fun _ => assignA a) s))
    as (-> & -> & _).
  split; reflexivity.
Qed.

Lemma artifactsWellFiled_frame (s s' : GameObjects) :
  artifacts s' = artifacts s -> artifactsWellFiled s -> artifactsWellFiled s'.
Proof. unfold artifactsWellFiled. now intros ->. Qed.

(** The planet part of an intent's branch, whatever the store knows of
    the planet. *)
Lemma onPlanet_frame (now : Q) (id : LocationId) (assign : Planet -> Planet)
    (s s' : GameObjects) :
  onPlanet now id assign s = Ok s' -> itemIndex s' = itemIndex s.
Proof.
  unfold onPlanet. cbv zeta.
  destruct (getPlanetWithId now id true s) as [[p s1]|] eqn:E; cbn [Result_bind];
    [|discriminate].
  apply getPlanetWithId_itemIndex in E. cbn [snd] in E. destruct E as [E _].
  intros [= <-]. rewrite <- E. unfold assignPlanet.
  destruct p as [p|]; [|reflexivity]. cbv zeta.
  rewrite (proj1 (setPlanet_itemIndex _ _)). reflexivity.
Qed.

Lemma onPlanetAndArtifact_split (now : Q) (id : LocationId) (aid : ArtifactId)
    (assign : Planet -> Planet) (assignA : Artifact.t -> Artifact.t) (s s' : GameObjects) :
  onPlanetAndArtifact now id aid assign assignA s = Ok s' ->
  exists s1,
    onPlanet now id assign s = Ok s1
    /\ s' = assignArtifact aid (artifacts s1 !! aid) assignA s1.
Proof.
  unfold onPlanetAndArtifact, onPlanet. cbv zeta.
  destruct (getPlanetWithId now id true s) as [[p s1]|] eqn:E; cbn [Result_bind];
    [|discriminate].
  apply getPlanetWithId_itemIndex in E. cbn [snd] in E. destruct E as [E _].
  intros [= <-]. eexists. split; [reflexivity|].
  unfold getArtifactById. f_equal.
  assert (itemIndex (assignPlanet (keyOfPlanet id s) p assign s1) = itemIndex s1) as HI.
  { unfold assignPlanet. destruct p as [p|]; [|reflexivity]. cbv zeta.
    rewrite (proj1 (setPlanet_itemIndex _ _)). reflexivity. }
  apply itemIndex_eq in HI. destruct HI as (_ & -> & _). reflexivity.
Qed.



Lemma onPlanetAndArtifact_assignBoth (now : Q) (id : LocationId) (aid : ArtifactId)
    (assign : Planet -> Planet) (assignA : Artifact.t -> Artifact.t) (s : GameObjects) :
  onPlanetAndArtifact now id aid assign assignA s
  = assignBoth now id (Some aid) assign assignA s.
Proof.
  unfold assignBoth, onPlanetAndArtifact, onPlanet. cbv zeta.
  destruct (getPlanetWithId now id true s) as [[p s1]|] eqn:E; cbn [Result_bind];
    [|reflexivity].
  do 2 f_equal. unfold getArtifactById.
  assert (itemIndex (assignPlanet (keyOfPlanet id s) p assign s1) = itemIndex s1) as HI.
  { unfold assignPlanet. destruct p as [p|]; [|reflexivity]. cbv zeta.
    rewrite (proj1 (setPlanet_itemIndex _ _)). reflexivity. }
  apply itemIndex_eq in HI. destruct HI as (_ & -> & _). reflexivity.
Qed.

Lemma onTxIntent_objects (now : Q) (tx : Intent.t) (o : Overlay.t) (id : LocationId) :
  intentPlanet tx = Some id ->
  Result_map Overlay.objects (onTxIntent now tx o)
  = assignBoth now id (intentArtifact tx) (attachTo tx)
      (writeArtifactSlot tx (Some (toTxIntent tx))) (Overlay.objects o).
Proof.
  destruct tx; intros [= <-]; unfold onTxIntent; cbv zeta;
    rewrite ?onPlanetAndArtifact_assignBoth;
    unfold assignBoth, onCarriedArtifact, attachTo, writeArtifactSlot; cbv beta iota zeta;
    cbn [intentArtifact Overlay.objects Overlay.set_txInits
         Overlay.set_unconfirmedMoves Overlay.set_unconfirmedUpgrades
         Overlay.set_unconfirmedBuyHats Overlay.set_unconfirmedPlanetTransfers];
    match goal with
    | |- context [onPlanet ?n ?i ?f ?s] => destruct (onPlanet n i f s)
    end; cbn [Result_bind Result_map]; try reflexivity.
  all: match goal with |- context [truthy ?x] => destruct (truthy x) end; reflexivity.
Qed.

Lemma clearUnconfirmedTxIntent_objects (now : Q) (tx : Intent.t) (o : Overlay.t)
    (id : LocationId) :
  intentPlanet tx = Some id ->
  match clearUnconfirmedTxIntent now tx o,
        assignBoth now id (intentArtifact tx) (detachFrom tx) (writeArtifactSlot tx None)
          (Overlay.objects o) with
  | Ok o2, Ok s2 =>
      planets (Overlay.objects o2) = planets s2
      /\ artifacts (Overlay.objects o2) = artifacts s2
  | Throw _, Throw _ => True
  | _, _ => False
  end.
Proof.
  destruct tx; intros [= <-]; unfold clearUnconfirmedTxIntent; cbv zeta;
    rewrite ?onPlanetAndArtifact_assignBoth;
    unfold assignBoth, onCarriedArtifact, detachFrom, writeArtifactSlot; cbv beta iota zeta;
    cbn [intentArtifact Overlay.objects];
    match goal with
    | |- context [onPlanet ?n ?i ?f ?s] => destruct (onPlanet n i f s)
    end; cbn [Result_bind Result_map]; try exact I; try (split; reflexivity).
  all: cbn [Overlay.unconfirmedReveal Overlay.set_objects];
    try match goal with
        | |- context [match Overlay.unconfirmedReveal ?o with _ => _ end] =>
            destruct (Overlay.unconfirmedReveal o)
        end;
    try match goal with |- context [String.eqb ?a ?b] => destruct (String.eqb a b) end;
    try match goal with |- context [truthy ?x] => destruct (truthy x) end;
    split; reflexivity.
Qed.



(** The artifact part of a branch, whatever the store knows of the
    planet. *)
Lemma assignBoth_artifact (now : Q) (id : LocationId) (aid : option ArtifactId)
    (assign : Planet -> Planet) (assignA : Artifact.t -> Artifact.t) (s s' : GameObjects) :
  assignBoth now id aid assign assignA s = Ok s' ->
  artifactsWellFiled s ->
  (forall a, Artifact.id (assignA a) = Artifact.id a) ->
  artifactsWellFiled s'
  /\ match aid with
     | Some a => artifacts s' !! a = assignA <$> artifacts s !! a
     | None => artifacts s' = artifacts s
     end.
Proof.
  unfold assignBoth. intros E HW HA.
  destruct (onPlanet now id assign s) as [s1|] eqn:E1; cbn [Result_bind] in E; [|discriminate].
  injection E as <-.
  apply onPlanet_frame in E1. apply itemIndex_eq in E1. destruct E1 as (_ & EA & _).
  assert (artifactsWellFiled s1) as HW1 by (eapply artifactsWellFiled_frame; eauto).
  destruct aid as [a|].
  - unfold getArtifactById.
    destruct (assignArtifact_spec a assignA s1 HW1 HA) as (H1 & _ & H2 & _).
    split; [exact H2|]. rewrite H1, EA. reflexivity.
  - split; [exact HW1 | exact EA].
Qed.

(** A branch on a planet the store holds. *)
Lemma assignBoth_known (now : Q) (id : LocationId) (aid : option ArtifactId)
    (assign : Planet -> Planet) (assignA : Artifact.t -> Artifact.t) (s : GameObjects)
    (p : Planet) :
  wellFiled s -> planets s !! id = Some p ->
  (forall q, locationId (assign q) = locationId q) ->
  exists s' p',
    assignBoth now id aid assign assignA s = Ok s'
    /\ pendingSlots p' = pendingSlots p
    /\ planets s' !! id = Some (assign p')
    /\ wellFiled s'.
Proof.
  intros HW Hp Hassign.
  destruct (onPlanet_known now id assign s p HW Hp Hassign)
    as (s1 & p' & E1 & Hs & Hp1 & HW1 & HI).
  unfold assignBoth. rewrite E1. cbn [Result_bind].
  eexists _, p'. split; [reflexivity|]. split; [exact Hs|].
  destruct aid as [a|]; [|split; assumption].
  destruct (assignArtifact_frame a (getArtifactById a s1) assignA s1) as [EP EL].
  rewrite EP. split; [exact Hp1|]. eapply wellFiled_frame; eauto.
Qed.

Lemma attachTo_locationId (tx : Intent.t) (q : Planet) :
  locationId (attachTo tx q) = locationId q.
Proof. destruct tx; reflexivity. Qed.

Lemma detachFrom_locationId (tx : Intent.t) (q : Planet) :
  locationId (detachFrom tx q) = locationId q.
Proof. destruct tx; reflexivity. Qed.

Lemma writeArtifactSlot_id (tx : Intent.t) (v : option TxIntent) (a : Artifact.t) :
  Artifact.id (writeArtifactSlot tx v a) = Artifact.id a.
Proof. destruct tx; reflexivity. Qed.

Lemma attachTo_pending (tx : Intent.t) (p : Planet) : pendingOnPlanet tx (attachTo tx p).
Proof.
  destruct tx; cbn; try reflexivity; try exact I;
    apply elem_of_app; right; apply list_elem_of_singleton; reflexivity.
Qed.

(** Taking the intent off again restores the pending slots of a planet
    on which its slot was free. *)
Lemma detach_attach_slots (tx : Intent.t) (p p1 p2 : Planet) :
  freeOnPlanet tx p ->
  pendingSlots p1 = pendingSlots p ->
  pendingSlots p2 = pendingSlots (attachTo tx p1) ->
  pendingSlots (detachFrom tx p2) = pendingSlots p.
Proof.
  intros Hfree H1 H2. rewrite <- H1.
  unfold pendingSlots in *.
  destruct tx; cbn in *;
    injection H1 as ? ? ? ? ? ? ? ? ? ? ? ?; injection H2 as ? ? ? ? ? ? ? ? ? ? ? ?;
    repeat match goal with H : _ = _ |- _ => rewrite H end;
    rewrite ?spliceByActionId_push; try reflexivity;
    try congruence.
Qed.



Lemma writeArtifactSlot_pending (tx : Intent.t) (a : Artifact.t) :
  pendingOnArtifact tx (writeArtifactSlot tx (Some (toTxIntent tx)) a).
Proof. destruct tx; cbn; try reflexivity; exact I. Qed.

Lemma writeArtifactSlot_undo (tx : Intent.t) (v : option TxIntent) (a : Artifact.t) :
  freeOnArtifact tx a -> writeArtifactSlot tx None (writeArtifactSlot tx v a) = a.
Proof. destruct a, tx; cbn; intros H; try rewrite H; reflexivity. Qed.

Lemma Result_map_Ok {A B : Type} (f : A -> B) (r : Result A) (b : B) :
  Result_map f r = Ok b -> exists a, r = Ok a /\ f a = b.
Proof. destruct r as [a|]; cbn; [|discriminate]. intros [= <-]. eauto. Qed.

(** X26: For a planet the store holds on which the slot of the intent's kind
    is free, onTxIntent puts the intent in that slot and a following
    clearUnconfirmedTxIntent for the same intent restores every pending slot
    of the planet; both calls return. *)
Theorem intent_round_trip_restores_planet_slots (now1 now2 : Q) (tx : Intent.t)
    (o : Overlay.t) (id : LocationId) (p : Planet) :
  wellFiled (Overlay.objects o) ->
  intentPlanet tx = Some id ->
  planets (Overlay.objects o) !! id = Some p ->
  freeOnPlanet tx p ->
  exists o1 o2 p1 p2,
    onTxIntent now1 tx o = Ok o1
    /\ planets (Overlay.objects o1) !! id = Some p1 /\ pendingOnPlanet tx p1
    /\ clearUnconfirmedTxIntent now2 tx o1 = Ok o2
    /\ planets (Overlay.objects o2) !! id = Some p2 /\ pendingSlots p2 = pendingSlots p.
Proof.
  intros HW Hid Hp Hfree.
  destruct (assignBoth_known now1 id (intentArtifact tx) (attachTo tx)
              (writeArtifactSlot tx (Some (toTxIntent tx))) _ p HW Hp
              (attachTo_locationId tx))
    as (s1 & p1 & E1 & Hs1 & Hp1 & HW1).
  rewrite <- (onTxIntent_objects now1 tx o id Hid) in E1.
  apply Result_map_Ok in E1. destruct E1 as (o1 & E1 & <-).
  destruct (assignBoth_known now2 id (intentArtifact tx) (detachFrom tx)
              (writeArtifactSlot tx None) _ _ HW1 Hp1 (detachFrom_locationId tx))
    as (s2 & p2 & E2 & Hs2 & Hp2 & _).
  pose proof (clearUnconfirmedTxIntent_objects now2 tx o1 id Hid) as HC.
  rewrite E2 in HC.
  destruct (clearUnconfirmedTxIntent now2 tx o1) as [o2|] eqn:EC; [|contradiction].
  destruct HC as [HCp _].
  exists o1, o2, (attachTo tx p1), (detachFrom tx p2).
  split; [exact E1|]. split; [exact Hp1|]. split; [apply attachTo_pending|].
  split; [exact EC|]. split; [rewrite HCp; exact Hp2|].
  eapply detach_attach_slots; eauto.
Qed.

(** X27: For an artifact the store holds on which the slot of the intent's
    kind is empty, onTxIntent puts the intent in that slot and a following
    clearUnconfirmedTxIntent for the same intent leaves the artifact exactly
    as it was before. *)
Theorem intent_round_trip_restores_artifact (now1 now2 : Q) (tx : Intent.t)
    (o o1 o2 : Overlay.t) (aid : ArtifactId) (a : Artifact.t) :
  artifactsWellFiled (Overlay.objects o) ->
  intentArtifact tx = Some aid ->
  artifacts (Overlay.objects o) !! aid = Some a ->
  freeOnArtifact tx a ->
  onTxIntent now1 tx o = Ok o1 ->
  clearUnconfirmedTxIntent now2 tx o1 = Ok o2 ->
  (exists a1, artifacts (Overlay.objects o1) !! aid = Some a1 /\ pendingOnArtifact tx a1)
  /\ artifacts (Overlay.objects o2) !! aid = Some a.
Proof.
  intros HWA Haid Ha Hfree E1 E2.
  assert (exists id, intentPlanet tx = Some id) as [id Hid].
  { destruct tx; cbn in Haid |- *; try discriminate; eauto. }
  pose proof (onTxIntent_objects now1 tx o id Hid) as H1. rewrite E1 in H1.
  cbn [Result_map] in H1. symmetry in H1.
  apply assignBoth_artifact in H1; [|exact HWA|apply writeArtifactSlot_id].
  rewrite Haid in H1. destruct H1 as [HWA1 H1]. rewrite Ha in H1. cbn in H1.
  pose proof (clearUnconfirmedTxIntent_objects now2 tx o1 id Hid) as H2. rewrite E2 in H2.
  destruct (assignBoth now2 id (intentArtifact tx) (detachFrom tx)
              (writeArtifactSlot tx None) (Overlay.objects o1)) as [s2|] eqn:EB;
    [|contradiction].
  destruct H2 as [_ H2].
  apply assignBoth_artifact in EB; [|exact HWA1|apply writeArtifactSlot_id].
  rewrite Haid in EB. destruct EB as [_ EB]. rewrite H1 in EB. cbn in EB.
  split.
  - eexists. split; [exact H1|]. apply writeArtifactSlot_pending.
  - rewrite H2, EB. f_equal. apply writeArtifactSlot_undo. exact Hfree.
Qed.



(** X28: When the store's registry for the intent's kind has no entry for
    its action id, onTxIntent followed by clearUnconfirmedTxIntent leaves
    the store's own registries (pending reveal, moves, upgrades, hat
    purchases, transfers, wormhole activations) as they were, and the
    notification manager was told of the intent exactly once. *)
Theorem intent_round_trip_restores_registries (now1 now2 : Q) (tx : Intent.t)
    (o o1 o2 : Overlay.t) :
  freeInRegistry tx o ->
  onTxIntent now1 tx o = Ok o1 ->
  clearUnconfirmedTxIntent now2 tx o1 = Ok o2 ->
  registries o2 = registries o /\ Overlay.txInits o2 = Overlay.txInits o ++ [tx].
Proof.
  unfold registries, freeInRegistry, onTxIntent, clearUnconfirmedTxIntent. cbv zeta.
  destruct tx; intros Hfree E1 E2;
    rewrite ?onPlanetAndArtifact_assignBoth in E1, E2;
    repeat match type of E1 with
      | context [onPlanet ?n ?i ?f ?s] => destruct (onPlanet n i f s)
      | context [assignBoth ?n ?i ?a ?f ?g ?s] => destruct (assignBoth n i a f g s)
      end; cbn [Result_bind] in E1; try discriminate;
    try match type of E1 with
        | context [truthy ?x] => destruct (truthy x)
        end;
    injection E1 as <-;
    cbn [Overlay.objects Overlay.set_objects Overlay.set_txInits Overlay.unconfirmedReveal
         Overlay.set_unconfirmedReveal Overlay.set_unconfirmedMoves
         Overlay.set_unconfirmedUpgrades Overlay.set_unconfirmedBuyHats
         Overlay.set_unconfirmedPlanetTransfers Overlay.set_unconfirmedWormholeActivations
         Overlay.unconfirmedMoves Overlay.unconfirmedUpgrades Overlay.unconfirmedBuyHats
         Overlay.unconfirmedPlanetTransfers Overlay.unconfirmedWormholeActivations
         Intent.actionId] in E2;
    repeat match type of E2 with
      | context [onPlanet ?n ?i ?f ?s] => destruct (onPlanet n i f s)
      | context [assignBoth ?n ?i ?a ?f ?g ?s] => destruct (assignBoth n i a f g s)
      end; cbn [Result_bind] in E2; try discriminate;
    rewrite ?String.eqb_refl in E2;
    injection E2 as <-; cbn;
    rewrite ?delete_insert_id by assumption;
    rewrite ?spliceByActionId_push by (assumption || reflexivity);
    try rewrite Hfree; try (split; reflexivity).
  unfold spliceByActionId. unfold noEntry in Hfree. rewrite Hfree. split; reflexivity.
Qed.

(** X29: Clearing a reveal whose action id is not that of the store's
    pending reveal writes the error line to the console and leaves the
    store's pending reveal in place, yet the unconfirmedReveal slot of the
    planet itself has already been cleared. *)
Theorem clearing_an_unexpected_reveal_is_reported (now : Q) (a : string) (id : LocationId)
    (o : Overlay.t) (p : Planet) :
  wellFiled (Overlay.objects o) ->
  planets (Overlay.objects o) !! id = Some p ->
  (forall pending, Overlay.unconfirmedReveal o = Some pending ->
                   Intent.actionId pending <> a) ->
  exists o2 p2 logged,
    clearUnconfirmedTxIntent now (Intent.UnconfirmedReveal a id) o = Ok o2
    /\ Overlay.unconfirmedReveal o2 = Overlay.unconfirmedReveal o
    /\ planets (Overlay.objects o2) !! id = Some p2 /\ unconfirmedReveal p2 = None
    /\ console (Overlay.objects o2)
       = logged
         ++ ["unexpected error occurred: tried to clear an unconfirmed reveal that doesn't exist"].
Proof.
  intros HW Hp Hne.
  destruct (onPlanet_known now id (set_unconfirmedReveal None) _ p HW Hp (fun _ => eq_refl))
    as (s1 & p1 & E1 & _ & Hp1 & _).
  unfold clearUnconfirmedTxIntent. cbv zeta. rewrite E1. cbn [Result_bind].
  assert (match Overlay.unconfirmedReveal (Overlay.set_objects s1 o) with
          | Some pending => String.eqb a (Intent.actionId pending)
          | None => false
          end = false) as ->.
  { cbn [Overlay.unconfirmedReveal Overlay.set_objects].
    destruct (Overlay.unconfirmedReveal o) as [pending|]; [|reflexivity].
    apply String.eqb_neq. intros ->. now apply (Hne pending). }
  eexists _, _, (console s1). split; [reflexivity|]. split; [reflexivity|].
  split; [exact Hp1|]. split; reflexivity.
Qed.




End OverlayProps.

(** ** Reconciliation of arrivals: what is cancelled and what is pending *)

Section Reconcile.
Context {ext : Externals}.

(** [clearOldArrivals] only removes timers. *)
Lemma clearOldArrivals_only_clears (planet : Planet) (s : GameObjects) (h : nat)
    (v : LocationId * QueuedArrival.t) :
  timers (clearOldArrivals planet s) !! h = Some v -> timers s !! h = Some v.
Proof.
  intros H. destruct (timers s !! h) as [w|] eqn:E.
  - assert (forall ids s0, timers s0 !! h = Some w ->
              timers (fold_left clearOldArrival ids s0) !! h = Some v -> w = v) as Hfold.
    { induction ids as [|i ids IH]; intros s0 H0; cbn [fold_left].
      - intros H1. congruence.
      - intros H1.
        destruct (timers (clearOldArrival s0 i) !! h) as [w'|] eqn:E1.
        + assert (w' = w) as ->.
          { rewrite (proj1 (proj2 (clearOldArrival_frame s0 i))) in E1.
            destruct (arrivals s0 !! i); [|congruence].
            rewrite lookup_delete in E1. case_decide; [discriminate | congruence]. }
          exact (IH _ E1 H1).
        + rewrite (proj2 (proj2 (proj2 (proj2 (clearOldArrivals_fold ids _)))) h E1) in H1.
          discriminate. }
    unfold clearOldArrivals in H. cbn zeta in H.
    destruct (planetArrivalIds s !! locationId planet) as [ids|];
      cbn [timers set_planetArrivalIds] in H.
    + f_equal. exact (Hfold ids s E H).
    + congruence.
  - rewrite (proj1 (proj2 (proj2 (proj2 (proj2 (clearOldArrivals_frame planet s))))) h E) in H.
    discriminate.
Qed.

(** The loop only appends to the arrivals it returns. *)
Lemma processArrival_appends (planetId : LocationId) (nowInSeconds : Q)
    (acc : list ArrivalWithTimer * GameObjects) (a : QueuedArrival.t)
    (awt : ArrivalWithTimer) :
  awt ∈ acc.1 -> awt ∈ (processArrival planetId nowInSeconds acc a).1.
Proof.
  destruct acc as [awts s]. unfold processArrival. cbn [fst].
  destruct (planets s !! planetId) as [planet|]; [|auto].
  destruct (_ >? 0).
  - destruct (arrive planet _ a _) as [diff|e]; [|auto].
    destruct (emitArrivalNotifications diff _); auto.
  - unfold setTimeout. cbn [fst]. intros H. apply elem_of_app. now left.
Qed.

Lemma processArrival_loop_appends (planetId : LocationId) (nowInSeconds : Q)
    (l : list QueuedArrival.t) (acc : list ArrivalWithTimer * GameObjects)
    (awt : ArrivalWithTimer) :
  awt ∈ acc.1 -> awt ∈ (fold_left (processArrival planetId nowInSeconds) l acc).1.
Proof.
  revert acc. induction l as [|a l IH]; intros acc H; cbn [fold_left]; [exact H|].
  apply IH. now apply processArrival_appends.
Qed.

(** Every timer that is pending after one turn of the loop was pending
    before it or belongs to one of the arrivals the loop returns. *)
Lemma processArrival_timers (planetId : LocationId) (nowInSeconds : Q)
    (acc : list ArrivalWithTimer * GameObjects) (a : QueuedArrival.t) (h : nat)
    (v : LocationId * QueuedArrival.t) :
  let r := processArrival planetId nowInSeconds acc a in
  timers r.2 !! h = Some v ->
  timers acc.2 !! h = Some v
  \/ (exists awt, awt ∈ r.1 /\ timer awt = h /\ v = (planetId, arrivalData awt)).
Proof.
  destruct acc as [awts s]. cbn zeta. unfold processArrival.
  destruct (planets s !! planetId) as [planet|]; [|now left].
  destruct (_ >? 0).
  - destruct (arrive planet _ a _) as [diff|e]; [|now left].
    destruct (emitArrivalNotifications diff _) as [s2|e] eqn:E2.
    + destruct (emitArrivalNotifications_frame _ _ _ E2) as [_ F2].
      apply scheduling_eq in F2 as (_ & _ & F2 & _). cbn [fst snd]. rewrite F2.
      now left.
    + now left.
  - unfold setTimeout. cbn [fst snd timers set_nextTimer set_timers].
    destruct (decide (h = nextTimer s)) as [->|Hne].
    + rewrite lookup_insert_eq. intros [= <-]. right.
      eexists. split; [apply elem_of_app; right; apply list_elem_of_singleton; reflexivity|].
      split; reflexivity.
    + rewrite lookup_insert_ne by congruence. intros H. now left.
Qed.

Lemma processArrival_loop_timers (planetId : LocationId) (nowInSeconds : Q)
    (l : list QueuedArrival.t) (acc : list ArrivalWithTimer * GameObjects) (h : nat)
    (v : LocationId * QueuedArrival.t) :
  let r := fold_left (processArrival planetId nowInSeconds) l acc in
  timers r.2 !! h = Some v ->
  timers acc.2 !! h = Some v
  \/ (exists awt, awt ∈ r.1 /\ timer awt = h /\ v = (planetId, arrivalData awt)).
Proof.
  revert acc. induction l as [|a l IH]; intros acc; cbn [fold_left]; [now left|].
  intros H. destruct (IH _ H) as [H1|H1]; [|now right].
  destruct (processArrival_timers planetId nowInSeconds acc a h v H1)
    as [H2|(awt & Hin & Ht & Hv)]; [now left|].
  right. exists awt. split; [|split; assumption].
  now apply processArrival_loop_appends.
Qed.

(** The timers [processArrivalsForPlanet] leaves pending are those that
    were pending and those of the arrivals it returns. *)
Lemma processArrivalsForPlanet_timers (now : Q) (planetId : LocationId)
    (arrs : list QueuedArrival.t) (s : GameObjects) (h : nat)
    (v : LocationId * QueuedArrival.t) :
  let r := processArrivalsForPlanet now planetId arrs s in
  timers r.2 !! h = Some v ->
  timers s !! h = Some v
  \/ (exists awt, awt ∈ r.1 /\ timer awt = h /\ v = (planetId, arrivalData awt)).
Proof.
  cbn zeta. unfold processArrivalsForPlanet.
  destruct (planets s !! planetId); [|now left].
  cbn zeta.
  pose proof (processArrival_loop_timers planetId (now / 1000) (sortByArrivalTime arrs)
                ([], s) h v) as H.
  destruct (fold_left _ _ _) as [awts s1]. cbn [fst snd] in *.
  destruct (scheduling_eq _ _ (updateScore_scheduling planetId s1)) as (_ & _ & -> & _).
  exact H.
Qed.

(** The entries of the arrivals map once new arrivals are filed. *)
Lemma fileArrivals_lookup (awts : list ArrivalWithTimer)
    (m : gmap VoyageId ArrivalWithTimer) (id : VoyageId) (awt : ArrivalWithTimer) :
  fileArrivals awts m !! id = Some awt ->
  (awt ∈ awts /\ QueuedArrival.eventId (arrivalData awt) = id) \/ m !! id = Some awt.
Proof.
  unfold fileArrivals. revert m. induction awts as [|x awts IH]; intros m; cbn [fold_left];
    [now right|].
  intros H. destruct (IH _ H) as [[Hin He]|Hm].
  - left. split; [apply elem_of_cons; now right | exact He].
  - destruct (decide (QueuedArrival.eventId (arrivalData x) = id)) as [E|E].
    + rewrite E, lookup_insert_eq in Hm. injection Hm as <-.
      left. split; [apply elem_of_cons; now left | exact E].
    + rewrite lookup_insert_ne in Hm by exact E. now right.
Qed.

Lemma fileArrivals_filed (awts : list ArrivalWithTimer)
    (m : gmap VoyageId ArrivalWithTimer) (awt : ArrivalWithTimer) :
  NoDup ((fun x => QueuedArrival.eventId (arrivalData x)) <$> awts) ->
  awt ∈ awts ->
  fileArrivals awts m !! QueuedArrival.eventId (arrivalData awt) = Some awt.
Proof.
  unfold fileArrivals. revert m. induction awts as [|x awts IH]; intros m ND Hin;
    [now apply elem_of_nil in Hin|].
  cbn [fold_left]. cbn [fmap list_fmap] in ND. apply NoDup_cons in ND as [Hx ND].
  apply elem_of_cons in Hin as [->|Hin]; [|now apply IH].
  assert (forall l (m0 : gmap VoyageId ArrivalWithTimer),
            QueuedArrival.eventId (arrivalData x)
            ∉ (fun y => QueuedArrival.eventId (arrivalData y)) <$> l ->
            m0 !! QueuedArrival.eventId (arrivalData x) = Some x ->
            fold_left (fun (m1 : gmap VoyageId ArrivalWithTimer) y =>
                         <[QueuedArrival.eventId (arrivalData y) := y]> m1) l m0
            !! QueuedArrival.eventId (arrivalData x) = Some x) as Hkeep.
  { induction l as [|y l IHl]; intros m0 Hn H0; cbn [fold_left]; [exact H0|].
    cbn [fmap list_fmap] in Hn. apply not_elem_of_cons in Hn as [Hne Hn].
    apply IHl; [exact Hn|]. rewrite lookup_insert_ne by congruence. exact H0. }
  apply Hkeep; [exact Hx | apply lookup_insert_eq].
Qed.

(** Filtering and sorting keep the event ids distinct. *)
Lemma eventIds_NoDup_filter (f : QueuedArrival.t -> bool) (l : list QueuedArrival.t) :
  NoDup (QueuedArrival.eventId <$> l) -> NoDup (QueuedArrival.eventId <$> List.filter f l).
Proof.
  induction l as [|a l IH]; cbn [fmap list_fmap List.filter]; [auto|].
  intros ND. apply NoDup_cons in ND as [Ha ND].
  destruct (f a); [|now apply IH].
  cbn [fmap list_fmap]. apply NoDup_cons. split; [|now apply IH].
  intros Hin. apply Ha. apply list_elem_of_fmap in Hin as (b & Hb & Hin).
  apply list_elem_of_fmap. exists b. split; [exact Hb|].
  apply list_elem_of_In. apply list_elem_of_In in Hin. apply List.filter_In in Hin. tauto.
Qed.

Lemma eventIds_NoDup_sort (l : list QueuedArrival.t) :
  NoDup (QueuedArrival.eventId <$> l) ->
  NoDup (QueuedArrival.eventId <$> sortByArrivalTime l).
Proof.
  intros ND. rewrite (proj2 (sortByArrivalTime_sorts l)). exact ND.
Qed.

(** The arrivals part on a store that holds the planet under its id:
    what is filed, which timers are pending, and for which arrivals. *)
Lemma afterArrivals_files (now : Q) (merged : Planet) (arrs : list QueuedArrival.t)
    (s : GameObjects) :
  planets s !! locationId merged = Some merged ->
  let planetId := locationId merged in
  let s' := afterArrivals now merged (Some arrs) s in
  exists installed,
    arrivals s'
    = fileArrivals installed (strikeArrivals (arrivalIdsOf planetId s) (arrivals s))
    /\ planetArrivalIds s' !! planetId
       = Some (List.map (fun awt => QueuedArrival.eventId (arrivalData awt)) installed)
    /\ (forall h, (h < nextTimer s)%nat ->
          timers s' !! h = timers (clearOldArrivals merged s) !! h)
    /\ Forall (fun awt =>
                 (nextTimer s <= timer awt < nextTimer s')%nat
                 /\ timers s' !! timer awt = Some (planetId, arrivalData awt)) installed
    /\ arrivalData <$> installed
       = List.filter (fun a => negb (arrivedBy (now / 1000) a)) (sortByArrivalTime arrs)
    /\ (nextTimer s <= nextTimer s')%nat
    /\ (forall h v, timers s' !! h = Some v ->
          timers (clearOldArrivals merged s) !! h = Some v
          \/ (exists awt, awt ∈ installed /\ timer awt = h
                           /\ v = (planetId, arrivalData awt))).
Proof.
  intros Hp. cbn zeta. unfold afterArrivals.
  pose proof (processArrivalsForPlanet_keeps now (locationId merged) arrs
                (clearOldArrivals merged s)) as Hinv.
  pose proof (processArrivalsForPlanet_timers now (locationId merged) arrs
                (clearOldArrivals merged s)) as Htim.
  destruct (clearOldArrivals_frame merged s) as (C1 & C2 & C3 & C4 & C5 & C6).
  assert (arrivalData <$> (processArrivalsForPlanet now (locationId merged) arrs
                             (clearOldArrivals merged s)).1
          = List.filter (fun a => negb (arrivedBy (now / 1000) a)) (sortByArrivalTime arrs))
    as Hdata.
  { unfold processArrivalsForPlanet. rewrite C4, Hp. cbv zeta.
    destruct (processArrival_loop (locationId merged) (now / 1000)
                (clearOldArrivals merged s) (sortByArrivalTime arrs) []
                (clearOldArrivals merged s) merged) as [I1 _];
      [rewrite C4; exact Hp | reflexivity | reflexivity | reflexivity |].
    destruct (fold_left _ _ _) as [awts s1]. exact I1. }
  destruct (processArrivalsForPlanet now _ arrs _) as [awts s2].
  destruct Hinv as (I1 & I2 & I3 & I4 & I5 & I6). cbn [fst snd] in *.
  assert (Hids : planetArrivalIds s2 !! locationId merged = Some []).
  { rewrite I2, C2. apply lookup_insert_eq. }
  destruct (installArrival_fold (locationId merged) awts s2 [] Hids)
    as (F1 & F2 & F3 & F4 & F5).
  exists awts. rewrite F1, F2, F3, F4, I1, C1. rewrite C3 in I3, I4, I5.
  repeat split; try assumption.
Qed.

(** C9: when [replacePlanetFromContractData] is given a fresh arrival
    list, every arrival filed for the planet ([planetArrivalIds], with
    its entry in [arrivals]) has its timer cleared, and is struck from
    [arrivals] and from the planet's list, before the new arrivals are
    filed: the timer of such an arrival is not pending in the resulting
    store, the arrivals map is the old one with the planet's ids struck
    and then the new entries added, and the planet's list holds the new
    ids only.  The new arrivals are the reported ones that are not yet
    due, in the order of their arrival times; each gets a fresh handle,
    which is pending for it, and the handles of the resulting store are
    allocated again.  In a store where every pending timer of the planet
    belongs to an arrival filed for it, no timer of the planet that was
    pending before the call is pending after it, the timers of the
    planet that are pending after it are those of the new arrivals, and
    (the reported event ids being distinct) every pending timer of the
    planet again belongs to an arrival filed for it, so that the next
    reconciliation cancels it in turn. *)
Theorem replacePlanetFromContractData_cancels_old_arrivals (now : Q) (planet : Planet)
    (updatedArrivals : list QueuedArrival.t)
    (updatedArtifactsOnPlanet : option (list ArtifactId))
    (revealedLocation : option RevealedLocation.t) (claimerEthAddress : option EthAddress)
    (s s' : GameObjects) :
  handlesAllocated s ->
  replacePlanetFromContractData now planet (Some updatedArrivals) updatedArtifactsOnPlanet
    revealedLocation claimerEthAddress s = Ok s' ->
  let planetId := locationId planet in
  exists installed : list ArrivalWithTimer,
    (forall id awt,
       id ∈ arrivalIdsOf planetId s -> arrivals s !! id = Some awt ->
       timers s' !! timer awt = None)
    /\ arrivals s'
       = fileArrivals installed (strikeArrivals (arrivalIdsOf planetId s) (arrivals s))
    /\ planetArrivalIds s' !! planetId
       = Some (List.map (fun awt => QueuedArrival.eventId (arrivalData awt)) installed)
    /\ Forall (fun awt =>
                 (nextTimer s <= timer awt)%nat
                 /\ timers s' !! timer awt = Some (planetId, arrivalData awt)) installed
    /\ arrivalData <$> installed
       = List.filter (fun a => negb (arrivedBy (now / 1000) a))
           (sortByArrivalTime updatedArrivals)
    /\ handlesAllocated s'
    /\ (timersFiled planetId s ->
        (forall h a, timers s !! h = Some (planetId, a) -> timers s' !! h = None)
        /\ (forall h a, timers s' !! h = Some (planetId, a) ->
              exists awt, awt ∈ installed /\ timer awt = h /\ arrivalData awt = a)
        /\ (NoDup (QueuedArrival.eventId <$> updatedArrivals) -> timersFiled planetId s')).
Proof.
  intros Halloc E. apply replacePlanetFromContractData_steps in E.
  cbv zeta in E. destruct E as (s1 & Hs1 & ->).
  set (merged := mergeWithLocal _ planet _ _ _) in *.
  assert (Hid : locationId merged = locationId planet)
    by apply mergeWithLocal_locationId.
  destruct (setPlanet_frame merged s1) as (Hs2 & _ & _).
  rewrite Hs1 in Hs2. set (s2 := setPlanet merged s1) in *.
  apply scheduling_eq in Hs2 as (Ha & Hi & Ht & Hn).
  assert (Hstored : planets s2 !! locationId merged = Some merged).
  { unfold s2. rewrite setPlanet_planets. apply lookup_insert_eq. }
  destruct (afterArrivals_files now merged updatedArrivals s2 Hstored)
    as (installed & A1 & A2 & A3 & A4 & A5 & A6 & A7).
  destruct (clearOldArrivals_frame merged s2) as (_ & _ & _ & _ & _ & C6).
  destruct (scheduling_eq _ _ (updateScore_scheduling (locationId merged)
                (afterArrivals now merged (Some updatedArrivals) s2)))
    as (Ua & Ui & Ut & Un).
  cbv zeta. unfold handlesAllocated, timersFiled, arrivalIdsOf in *.
  rewrite ?Ua, ?Ui, ?Ut, ?Un.
  rewrite ?Hid, ?Hi, ?Ha, ?Hn in *.
  set (oldIds := match planetArrivalIds s !! locationId planet with
                 | Some ids => ids
                 | None => []
                 end) in *.
  set (s3 := afterArrivals now merged (Some updatedArrivals) s2) in *.
  assert (Hold : forall id awt,
             id ∈ oldIds -> arrivals s !! id = Some awt -> timers s3 !! timer awt = None).
  { intros id awt Hin Hawt. rewrite A3 by (eapply Halloc; exact Hawt).
    exact (C6 id awt Hin Hawt). }
  assert (Hnew : timersFiled (locationId planet) s ->
                 forall h a, timers s3 !! h = Some (locationId planet, a) ->
                   exists awt, awt ∈ installed /\ timer awt = h /\ arrivalData awt = a).
  { intros Hfiled h a Hh.
    destruct (A7 h _ Hh) as [Hc|(awt & Hin & Hawt & Hv)].
    - exfalso. pose proof (clearOldArrivals_only_clears _ _ _ _ Hc) as Hs.
      rewrite Ht in Hs.
      destruct (Hfiled h a Hs) as (id & awt & Hin & Hawt & <-).
      unfold arrivalIdsOf in Hin. fold oldIds in Hin.
      rewrite (C6 id awt Hin Hawt) in Hc. discriminate.
    - exists awt. injection Hv as ->. auto. }
  exists installed. split; [exact Hold|]. split; [exact A1|]. split; [exact A2|].
  split.
  { eapply Forall_impl; [exact A4|]. cbn. intros awt [[Hlo _] Hpend]. split; assumption. }
  split; [exact A5|]. split.
  { intros id awt Hawt. rewrite A1 in Hawt.
    apply fileArrivals_lookup in Hawt as [[Hin _]|Hm].
    - rewrite List.Forall_forall in A4. apply list_elem_of_In in Hin.
      destruct (A4 awt Hin) as [[_ Hhi] _]. exact Hhi.
    - rewrite fold_delete_lookup in Hm. case_bool_decide; [discriminate|].
      apply Halloc in Hm. lia. }
  intros Hfiled. split; [|split].
  - intros h a Hh. destruct (Hfiled h a Hh) as (id & awt & Hin & Hawt & <-).
    exact (Hold id awt Hin Hawt).
  - exact (Hnew Hfiled).
  - intros ND h a Hh. destruct (Hnew Hfiled h a Hh) as (awt & Hin & <- & <-).
    exists (QueuedArrival.eventId (arrivalData awt)), awt.
    split; [|split; [|reflexivity]].
    + rewrite A2. apply list_elem_of_In.
      apply (List.in_map (fun x => QueuedArrival.eventId (arrivalData x))).
      apply list_elem_of_In. exact Hin.
    + rewrite A1. apply fileArrivals_filed; [|exact Hin].
      change (NoDup ((QueuedArrival.eventId ∘ arrivalData) <$> installed)).
      rewrite list_fmap_compose, A5.
      apply eventIds_NoDup_filter, eventIds_NoDup_sort. exact ND.
Qed.

End Reconcile.

(** ** The statements at concrete inputs *)

Lemma exp_stand_in_bounded : @exp_bounded sample_externals.
Proof.
  intros x Hx. cbn. unfold exp_stand_in.
  destruct (0 <? x) eqn:E; [apply Qltb_true in E; lra|].
  split.
  - apply Qle_shift_div_l; lra.
  - apply Qle_shift_div_r; lra.
Qed.

Lemma scenarioPlanet_statsOk : statsOk scenarioPlanet.
Proof. unfold statsOk. cbn. lra. Qed.

(** The worked scenarios of the specification. *)
Example non_conquering_hit_scenario :
  exists d,
    arrive (ext := sample_externals) scenarioPlanet [] (arrivalFrom playerB 40 0 1000)
      sampleConstants = Ok d
    /\ owner (current d) = playerA /\ energy (current d) == 10.
Proof. eexists. split; [vm_compute; reflexivity|]. split; reflexivity. Qed.

Example conquest_scenario :
  exists d,
    arrive (ext := sample_externals) (set_energy 10 scenarioPlanet) []
      (arrivalFrom playerB 200 0 1000) sampleConstants = Ok d
    /\ owner (current d) = playerB /\ energy (current d) == 190.
Proof. eexists. split; [vm_compute; reflexivity|]. split; reflexivity. Qed.

Example unowned_silver_scenario :
  silver
    (updatePlanetToTime (ext := sample_externals) unownedPlanet [] 1100000 sampleConstants)
  = silver unownedPlanet.
Proof. reflexivity. Qed.



(** C2 at a sequence on the scenario territory. *)
Lemma cap_invariant_witness :
  Forall resourcesInRange
    (trace (ext := sample_externals) sampleConstants scenarioPlanet
       [BringCurrent [] 1100000; Arrive [] (arrivalFrom playerB 40 0 1200);
        Arrive [] (arrivalFrom playerA 500 30 1300)])
  /\ Forall withinCaps
       (trace (ext := sample_externals) sampleConstants scenarioPlanet
          [BringCurrent [] 1100000; BringCurrent [] 1200000]).
Proof.
  split.
  - apply (cap_invariant_as_implemented (ext := sample_externals));
      [exact exp_stand_in_bounded | exact scenarioPlanet_statsOk | |].
    + repeat constructor; cbn; lra.
    + unfold resourcesInRange. cbn. lra.
  - apply (cap_invariant_as_implemented (ext := sample_externals));
      [exact exp_stand_in_bounded | exact scenarioPlanet_statsOk | | |].
    + repeat constructor.
    + right. repeat constructor.
    + unfold withinCaps. cbn. lra.
Defined.

(** C2 fails as stated: 150 energy sent by its owner to a territory with
    energy 0 of 100 leaves it at 150. *)
Lemma reinforcement_exceeds_energyCap :
  let planet := set_energy 0 scenarioPlanet in
  let a := arrivalFrom playerA 150 0 1000 in
  withinCaps planet /\ statsOk planet /\ operationOk (Arrive [] a)
  /\ QueuedArrival.player a = owner planet
  /\ exists d,
       arrive (ext := sample_externals) planet [] a sampleConstants = Ok d
       /\ energy (current d) == 150
       /\ energyCap (current d) == 100
       /\ ~ energy (current d) <= energyCap (current d).
Proof.
  cbv zeta. split; [unfold withinCaps; cbn; lra|].
  split; [unfold statsOk; cbn; lra|].
  split; [cbn; repeat split; try constructor; lra|].
  split; [reflexivity|].
  eexists. split; [vm_compute; reflexivity|].
  split; [reflexivity|]. split; [reflexivity|]. vm_compute. intros H. now apply H.
Qed.

(** C3 at a destroyed territory. *)
Lemma destroyed_planet_witness :
  let a := arrivalFrom playerB 200 0 1100 in
  let p :=
    updatePlanetToTime (ext := sample_externals) destroyedPlanet [] 1100000 sampleConstants in
  arrive (ext := sample_externals) destroyedPlanet [] a sampleConstants
  = Ok {| previous := p; current := p; arrival := a |}.
Proof.
  cbv zeta.
  destruct (destroyed_planet_absorbs_no_arrival (ext := sample_externals) destroyedPlanet []
              (arrivalFrom playerB 200 0 1100) 0 sampleConstants eq_refl) as [H _].
  exact (H eq_refl).
Defined.

(** C3 fails as stated: a destroyed territory with an owner gains
    silver when brought current (100 seconds at 5 per second). *)
Lemma destroyed_planet_regenerates :
  destroyed destroyedPlanet = true
  /\ silver destroyedPlanet == 0
  /\ silver
       (updatePlanetToTime (ext := sample_externals) destroyedPlanet [] 1100000
          sampleConstants) == 500.
Proof. repeat split. Qed.

(** C6 at a target time before [lastUpdated]. *)
Lemma lastUpdated_witness :
  999000 < lastUpdated scenarioPlanet * 1000
  /\ updatePlanetToTime (ext := sample_externals) scenarioPlanet [] 999000 sampleConstants
     = scenarioPlanet.
Proof.
  assert (H : 999000 < lastUpdated scenarioPlanet * 1000) by reflexivity.
  split; [exact H|].
  exact (proj1 (proj1 (proj2 (lastUpdated_never_decreases (ext := sample_externals)
                                sampleConstants scenarioPlanet [] 999000 [])) H)).
Defined.

(** C7 at the scenario of the specification: silver growth 5, 100
    seconds forward. *)
Lemma unowned_territory_witness :
  owner unownedPlanet = EMPTY_ADDRESS
  /\ silverGrowth unownedPlanet == 5
  /\ getSilverOverTime unownedPlanet 1000000 1100000 = 40
  /\ getEnergyAtTime (ext := sample_externals) unownedPlanet 1100000 == 50.
Proof.
  split; [reflexivity|]. split; [reflexivity|].
  exact (unowned_territory_keeps_its_resources (ext := sample_externals) unownedPlanet
           1000000 1100000 1100000 eq_refl).
Defined.

(** C10 at a planet that holds an activated photoid cannon. *)
Lemma applyUpgrade_witness :
  updatePlanetToTime (ext := sample_externals) scenarioPlanet [photoid] 15400000
    sampleConstants
  = applyUpgrade
      (set_localPhotoidUpgrade (Some (Artifact.timeDelayedUpgrade photoid))
         (extrapolated (ext := sample_externals) scenarioPlanet 15400000))
      (Artifact.timeDelayedUpgrade photoid) false.
Proof.
  destruct (applyUpgrade_scales_speed_not_energyCap (ext := sample_externals) scenarioPlanet
              (Artifact.timeDelayedUpgrade photoid) [photoid] 15400000 sampleConstants
              photoid) as (_ & _ & _ & _ & _ & H).
  apply H; [cbn; lra | reflexivity | reflexivity].
Defined.

(** C4 at an activated wormhole placed on a planet. *)
Lemma setArtifact_witness :
  wormholes (setArtifact (ext := sample_externals) activeWormhole emptyStore) !! "w1"%string
  = Some {| from := "00001234"; to := "0000abcd" |}.
Proof.
  exact (proj1 (setArtifact_recomputes_wormhole (ext := sample_externals) activeWormhole
                  emptyStore eq_refl)).
Defined.

(** C4 fails as stated: a wormhole that is on no planet any more and is
    not activated keeps the entry it had. *)
Lemma withdrawn_wormhole_keeps_its_link :
  Artifact.artifactType withdrawnWormhole = ArtifactType.Wormhole
  /\ Artifact.onPlanetId withdrawnWormhole = None
  /\ isActivated (Externals := sample_externals) withdrawnWormhole = false
  /\ wormholes (setArtifact (ext := sample_externals) withdrawnWormhole storeWithLink)
       !! "w1"%string = Some staleLink.
Proof.
  repeat split.
Qed.

(** C5 fails as stated: the same location and ruleset, generated at two
    clock readings, give planets that differ (in [lastUpdated]). *)
Lemma generated_planet_depends_on_clock :
  exists p1 p2,
    defaultPlanetFromLocation (ext := sample_externals) sampleConstants ∅ 5000
      sampleLocation = Ok p1
    /\ defaultPlanetFromLocation (ext := sample_externals) sampleConstants ∅ 7000
         sampleLocation = Ok p2
    /\ lastUpdated p1 == 5 /\ lastUpdated p2 == 7 /\ p1 <> p2.
Proof.
  eexists. eexists. split; [vm_compute; reflexivity|]. split; [vm_compute; reflexivity|].
  split; [reflexivity|]. split; [reflexivity|]. intros H. discriminate H.
Qed.

(** C8 at a store that holds the planet. *)
Lemma replacePlanetFromContractData_witness :
  exists s' stored,
    replacePlanetFromContractData (ext := sample_externals) 1000000 incomingPlanet None None
      None None storeWithPlanet = Ok s'
    /\ planets s' !! "00001234"%string = Some stored
    /\ pendingSlots stored = pendingSlots localCopy
    /\ incomingFields stored = incomingFields incomingPlanet.
Proof.
  destruct (replacePlanetFromContractData_returns (ext := sample_externals) 1000000
              incomingPlanet None None None storeWithPlanet) as [s' E].
  destruct (replacePlanetFromContractData_keeps_local_slots (ext := sample_externals)
              1000000 incomingPlanet None None None None storeWithPlanet s' localCopy
              eq_refl E) as (stored & H1 & H2 & _ & H4).
  exists s', stored. split; [exact E|]. split; [exact H1|]. split; [exact H2|].
  exact (proj1 (H4 eq_refl)).
Defined.

(** C8 fails as stated: the ledger reports the planet without artifacts
    and without a pending emoji; the stored planet keeps the local
    artifact list (a confirmed field that is not replaced) and loses the
    local pending-emoji flag (a pending slot that is not kept). *)
Lemma held_artifacts_kept_and_emoji_flag_lost :
  exists s' stored,
    replacePlanetFromContractData (ext := sample_externals) 1000000 incomingPlanet None None
      None None storeWithPlanet = Ok s'
    /\ planets s' !! "00001234"%string = Some stored
    /\ heldArtifactIds incomingPlanet = []
    /\ heldArtifactIds stored = ["a1"%string]
    /\ unconfirmedAddEmoji localCopy = true
    /\ unconfirmedAddEmoji stored = false.
Proof.
  eexists. eexists. split; [vm_compute; reflexivity|].
  split; [vm_compute; reflexivity|]. repeat split.
Qed.

Lemma storeWithPlanet_allocated : handlesAllocated storeWithPlanet.
Proof. intros id awt H. cbn in H. rewrite lookup_empty in H. discriminate. Qed.

Lemma storeWithPlanet_timersFiled : timersFiled "00001234" storeWithPlanet.
Proof. intros h a H. cbn in H. rewrite lookup_empty in H. discriminate. Qed.

(** C9 at two reconciliations in a row: the timer the first one sets
    for the arrival the ledger reports is pending after it and is not
    pending after the second. *)
Lemma cancels_old_arrivals_witness :
  exists s1 s2 h,
    replacePlanetFromContractData (ext := sample_externals) 1000000 incomingPlanet
      (Some [laterArrival]) None None None storeWithPlanet = Ok s1
    /\ timers s1 !! h = Some ("00001234"%string, laterArrival)
    /\ replacePlanetFromContractData (ext := sample_externals) 2000000 incomingPlanet
         (Some [arrivalFrom playerB 40 0 7000]) None None None s1 = Ok s2
    /\ timers s2 !! h = None.
Proof.
  destruct (replacePlanetFromContractData_returns (ext := sample_externals) 1000000
              incomingPlanet (Some [laterArrival]) None None storeWithPlanet) as [s1 E1].
  destruct (replacePlanetFromContractData_returns (ext := sample_externals) 2000000
              incomingPlanet (Some [arrivalFrom playerB 40 0 7000]) None None s1)
    as [s2 E2].
  destruct (replacePlanetFromContractData_cancels_old_arrivals (ext := sample_externals)
              1000000 incomingPlanet [laterArrival] None None None storeWithPlanet s1
              storeWithPlanet_allocated E1)
    as (installed & _ & _ & _ & Hpending & Hdata & Halloc & Hfiled).
  destruct (Hfiled storeWithPlanet_timersFiled) as (_ & _ & Hfiled1).
  assert (NoDup (QueuedArrival.eventId <$> [laterArrival])) as ND
    by (apply NoDup_singleton).
  specialize (Hfiled1 ND).
  change (List.filter _ _) with [laterArrival] in Hdata.
  destruct installed as [|awt [|]]; try discriminate Hdata.
  injection Hdata as Hdata.
  apply Forall_inv in Hpending as [_ Hpending]. rewrite Hdata in Hpending.
  destruct (replacePlanetFromContractData_cancels_old_arrivals (ext := sample_externals)
              2000000 incomingPlanet [arrivalFrom playerB 40 0 7000] None None None s1 s2
              Halloc E2)
    as (installed2 & _ & _ & _ & _ & _ & _ & Hcancel).
  destruct (Hcancel Hfiled1) as (Hcleared & _).
  exists s1, s2, (timer awt).
  split; [exact E1|]. split; [exact Hpending|]. split; [exact E2|].
  exact (Hcleared _ _ Hpending).
Defined.

(** The store that results: the old arrival is gone, the new one is
    filed under a fresh timer. *)
Example reconciliation_reschedules :
  exists s',
    replacePlanetFromContractData (ext := sample_externals) 1000000 incomingPlanet
      (Some [laterArrival]) None None None storeWithArrival = Ok s'
    /\ timers s' = {[ 1%nat := ("00001234"%string, laterArrival) ]}
    /\ arrivals s' = {[ "2"%string := {| arrivalData := laterArrival; timer := 1 |} ]}
    /\ planetArrivalIds s' = {[ "00001234"%string := ["2"%string] ]}.
Proof.
  eexists. split; [vm_compute; reflexivity|]. repeat split; vm_compute; reflexivity.
Qed.

(** C5 at a location in deep space. *)
Lemma defaultPlanetFromLocation_witness :
  exists p,
    defaultPlanetFromLocation (ext := sample_externals) sampleConstants ∅ 5000
      sampleLocation = Ok p
    /\ lastUpdated p = Math_floor (5000 / 1000)
    /\ planetLevel p = 4%nat
    /\ spaceType p = DEEP_SPACE.
Proof.
  destruct (defaultPlanetFromLocation (ext := sample_externals) sampleConstants ∅ 5000
              sampleLocation) as [p|msg] eqn:E; [|vm_compute in E; discriminate].
  exists p. split; [reflexivity|].
  destruct (proj2 (defaultPlanetFromLocation_deterministic_up_to_clock
                     (ext := sample_externals) sampleConstants sampleLocation ∅ ∅ 5000 5000)
              p E) as (H1 & _ & H3 & _ & H5 & _).
  split; [exact H1|]. split; [rewrite H3 | rewrite H5]; reflexivity.
Defined.

(** ** The further statements at concrete inputs *)


Lemma log_stand_in_nonpositive : @log2_nonpositive_below_one sample_logarithms.
Proof.
  intros x [H0 H1]. cbn. unfold log_stand_in.
  destruct (1 <? x) eqn:E; [apply Qltb_true in E; lra|].
  assert (1 <= 1 / x) by (apply Qle_shift_div_l; lra). lra.
Qed.

(** X4 for a send of 5 percent from the scenario planet. *)
Lemma getRange_small_sends_reach_nowhere_witness :
  getRange (logs := sample_logarithms) scenarioPlanet (Some 5) == 0.
Proof.
  apply (proj2 (getRange_small_sends_reach_nowhere (logs := sample_logarithms)
                  scenarioPlanet None) log_stand_in_nonpositive 5).
  lra.
Defined.

(** X5 on the scenario planet with the upgrade of its photoid cannon applied. *)
Lemma delayed_upgrade_applied_at_most_once_witness :
  let upgraded :=
    set_localPhotoidUpgrade (Some (Artifact.timeDelayedUpgrade photoid)) scenarioPlanet in
  Forall (fun p => upgradedStats p = upgradedStats upgraded)
    (trace (ext := sample_externals) sampleConstants upgraded
       [BringCurrent [photoid] 20000000; Arrive [photoid] (arrivalFrom playerB 40 0 30000)]).
Proof.
  apply (delayed_upgrade_applied_at_most_once (ext := sample_externals)).
  eexists. reflexivity.
Defined.


(** X10 at the sample location. *)
Lemma planetTypeFromHexPerlin_respects_weights_witness :
  exists t : PlanetType,
    planetTypeFromHexPerlin (ext := sample_externals) sampleConstants
      (WorldLocation.hash sampleLocation) 16 = Ok t
    /\ (t < 5)%nat.
Proof.
  destruct (proj2 (planetTypeFromHexPerlin_respects_weights (ext := sample_externals)
                     sampleConstants (WorldLocation.hash sampleLocation) 16))
    as (t & E & Ht & _).
  - discriminate.
  - vm_compute. discriminate.
  - vm_compute. split; [intros H; discriminate H | reflexivity].
  - exists t. split; [exact E | exact Ht].
Defined.

(** X11 at the sample location. *)
Lemma defaultPlanetFromLocation_starts_unowned_and_in_range_witness :
  exists p,
    defaultPlanetFromLocation (ext := sample_externals) sampleConstants ∅ 5000
      sampleLocation = Ok p
    /\ hasOwner p = false /\ resourcesInRange p.
Proof.
  destruct (defaultPlanetFromLocation (ext := sample_externals) sampleConstants ∅ 5000
              sampleLocation) as [p|msg] eqn:E; [|vm_compute in E; discriminate].
  exists p. split; [reflexivity|].
  destruct (defaultPlanetFromLocation_starts_unowned_and_in_range (ext := sample_externals)
              sampleConstants ∅ 5000 sampleLocation p E) as ((H1 & _) & H2 & _).
  - cbn. apply Qmult_le_0_compat; [lra|]. change 0 with (inject_Z 0). rewrite <- Zle_Qle. lia.
  - cbn. change 0 with (inject_Z 0). rewrite <- Zle_Qle. lia.
  - cbn. apply Qmult_le_0_compat; [lra|]. change 0 with (inject_Z 0). rewrite <- Zle_Qle. lia.
  - split; [exact H1 | exact H2].
Defined.

(** X13 for the player's planet lost to another player. *)
Lemma emitArrivalNotifications_only_for_the_player_witness :
  exists s' new,
    emitArrivalNotifications lostPlanetDiff storeWithPlanet = Ok s'
    /\ s' = set_notifications (notifications storeWithPlanet ++ new) storeWithPlanet
    /\ Forall (fun n => notificationPlanet n = "00001234"%string) new.
Proof.
  destruct (emitArrivalNotifications lostPlanetDiff storeWithPlanet) as [s'|msg] eqn:E;
    [|vm_compute in E; discriminate].
  destruct (emitArrivalNotifications_only_for_the_player lostPlanetDiff storeWithPlanet s' E)
    as (new & H1 & H2 & _).
  exists s', new. split; [reflexivity|]. split; [exact H1 | exact H2].
Defined.

(** X14 for one arrival that is due and one that is not. *)
Lemma processArrivalsForPlanet_applies_past_schedules_future_witness :
  let arrs := [laterArrival; arrivalFrom playerB 40 0 5000] in
  let r :=
    processArrivalsForPlanet (ext := sample_externals) 5500000 "00001234" arrs
      storeWithPlanet in
  arrivalData <$> r.1
  = List.filter (fun a => negb (arrivedBy (5500000 / 1000) a)) (sortByArrivalTime arrs)
  /\ planets r.2 !! "00001234"%string
     = Some (let q :=
               resolveInOrder (ext := sample_externals) storeWithPlanet
                 (List.filter (arrivedBy (5500000 / 1000)) (sortByArrivalTime arrs))
                 localCopy in
             set_silverSpent (calculateSilverSpent q) q).
Proof.
  apply (processArrivalsForPlanet_applies_past_schedules_future (ext := sample_externals)
           5500000 "00001234" [laterArrival; arrivalFrom playerB 40 0 5000] storeWithPlanet
           localCopy).
  - reflexivity.
  - reflexivity.
Defined.


(** X16 at a store that holds the planet. *)
Lemma replacePlanetFromContractData_marks_touched_witness :
  exists s',
    replacePlanetFromContractData (ext := sample_externals) 1000000 incomingPlanet None None
      None None storeWithPlanet = Ok s'
    /\ isPlanetInContract "00001234" s' = true
    /\ itemIndex s' = itemIndex storeWithPlanet.
Proof.
  destruct (replacePlanetFromContractData (ext := sample_externals) 1000000 incomingPlanet
              None None None None storeWithPlanet) as [s'|msg] eqn:E;
    [|vm_compute in E; discriminate].
  exists s'. split; [reflexivity|].
  destruct (replacePlanetFromContractData_marks_touched (ext := sample_externals) _ _ _ _ _ _
              _ s' E) as (_ & H2 & _ & H4).
  split; [exact H2 | exact H4].
Defined.

(** X17 for an artifact with a move pending. *)
Lemma replaceArtifactsFromContractData_keeps_pending_slots_witness :
  exists stored,
    artifacts (replaceArtifactFromContractData (ext := sample_externals) photoid
                 storeWithArtifact) !! "a1"%string = Some stored
    /\ artifactLedgerFields stored = artifactLedgerFields photoid
    /\ artifactPendingSlots stored = artifactPendingSlots movingPhotoid.
Proof.
  apply (proj1 (replaceArtifactsFromContractData_keeps_pending_slots (ext := sample_externals)
                  storeWithArtifact "a1" movingPhotoid eq_refl)).
  reflexivity.
Defined.

(** X18 for an artifact on the player's planet. *)
Lemma getArtifactController_prefers_the_planet_witness :
  exists s',
    getArtifactController (ext := sample_externals) 1000000 "a1" storeWithArtifact
    = Ok (Some playerA, s').
Proof.
  apply (getArtifactController_prefers_the_planet (ext := sample_externals) 1000000 "a1"
           storeWithArtifact movingPhotoid "00001234" localCopy).
  - reflexivity.
  - reflexivity.
  - reflexivity.
Defined.

Lemma storeWithPlanet_wellFiled : wellFiled storeWithPlanet.
Proof.
  split.
  - intros id p H. cbn in H. apply lookup_singleton_Some in H as [<- <-]. reflexivity.
  - intros id loc H. cbn in H. rewrite lookup_empty in H. discriminate.
Qed.

(** X19 for a location added to a store that holds a planet. *)
Lemma wellFiled_is_kept_witness :
  exists s',
    addPlanetLocation (ext := sample_externals) 5000 sampleLocation storeWithPlanet = Ok s'
    /\ wellFiled s'.
Proof.
  destruct (addPlanetLocation (ext := sample_externals) 5000 sampleLocation storeWithPlanet)
    as [s'|msg] eqn:E; [|vm_compute in E; discriminate].
  exists s'. split; [reflexivity|].
  exact (proj1 (proj2 (wellFiled_is_kept (ext := sample_externals) 5000 storeWithPlanet
                         storeWithPlanet_wellFiled)) sampleLocation s' E).
Defined.

(** X20 for one id the store knows and one it does not. *)
Lemma getPlanetsWithIds_filters_unknown_ids_witness :
  exists r,
    getPlanetsWithIds (ext := sample_externals) 1000000 ["00001234"; "0000ffff"]%string true
      storeWithPlanet = Ok r
    /\ locationId <$> r.1
       = List.filter (resolvable storeWithPlanet) ["00001234"; "0000ffff"]%string.
Proof.
  destruct (getPlanetsWithIds (ext := sample_externals) 1000000
              ["00001234"; "0000ffff"]%string true storeWithPlanet) as [r|msg] eqn:E;
    [|vm_compute in E; discriminate].
  exists r. split; [reflexivity|].
  exact (proj1 (getPlanetsWithIds_filters_unknown_ids (ext := sample_externals) _ _ _ _ r
                  storeWithPlanet_wellFiled E)).
Defined.

(** X21 at the sample location, added twice. *)
Lemma addPlanetLocation_idempotent_witness :
  exists s1,
    addPlanetLocation (ext := sample_externals) 5000 sampleLocation emptyStore = Ok s1
    /\ addPlanetLocation (ext := sample_externals) 9000 sampleLocation s1 = Ok s1.
Proof.
  destruct (addPlanetLocation (ext := sample_externals) 5000 sampleLocation emptyStore)
    as [s1|msg] eqn:E; [|vm_compute in E; discriminate].
  exists s1. split; [reflexivity|].
  exact (addPlanetLocation_idempotent (ext := sample_externals) 5000 9000 sampleLocation
           emptyStore s1 E).
Defined.

(** X22 at the sample location. *)
Lemma addPlanetLocation_makes_the_planet_locatable_witness :
  exists s1,
    addPlanetLocation (ext := sample_externals) 5000 sampleLocation emptyStore = Ok s1
    /\ getLocationOfPlanet (WorldLocation.hash sampleLocation) s1 = Some sampleLocation.
Proof.
  destruct (addPlanetLocation (ext := sample_externals) 5000 sampleLocation emptyStore)
    as [s1|msg] eqn:E; [|vm_compute in E; discriminate].
  exists s1. split; [reflexivity|].
  exact (proj1 (addPlanetLocation_makes_the_planet_locatable (ext := sample_externals) 5000
                  9000 sampleLocation emptyStore s1 E)).
Defined.

Lemma emptyStore_artifactsWellFiled : artifactsWellFiled emptyStore.
Proof. intros id a H. cbn in H. rewrite lookup_empty in H. discriminate. Qed.

(** X23 for the photoid cannon in an empty store. *)
Lemma replaced_artifact_is_listed_for_its_owner_witness :
  (exists a,
     In a (getArtifactsOwnedBy playerA
             (replaceArtifactFromContractData (ext := sample_externals) photoid emptyStore))
     /\ Artifact.id a = "a1"%string)
  <-> playerA = Artifact.currentOwner photoid.
Proof.
  exact (proj1 (proj2 (replaced_artifact_is_listed_for_its_owner (ext := sample_externals)
                         photoid emptyStore playerA emptyStore_artifactsWellFiled))).
Defined.

Lemma storeWithArtifact_artifactsWellFiled : artifactsWellFiled storeWithArtifact.
Proof.
  intros id a H. cbn in H. apply lookup_singleton_Some in H as [<- <-]. reflexivity.
Qed.

Lemma storeWithArtifact_wellFiled : wellFiled storeWithArtifact.
Proof. exact storeWithPlanet_wellFiled. Qed.

(** X26 for a move that leaves the stored planet. *)
Lemma intent_round_trip_restores_planet_slots_witness :
  exists o1 o2 p1 p2,
    onTxIntent (ext := sample_externals) 1000000 pendingMove (overlayOf storeWithPlanet)
    = Ok o1
    /\ planets (Overlay.objects o1) !! "00001234"%string = Some p1
    /\ pendingOnPlanet pendingMove p1
    /\ clearUnconfirmedTxIntent (ext := sample_externals) 1000500 pendingMove o1 = Ok o2
    /\ planets (Overlay.objects o2) !! "00001234"%string = Some p2
    /\ pendingSlots p2 = pendingSlots localCopy.
Proof.
  apply (intent_round_trip_restores_planet_slots (ext := sample_externals) 1000000 1000500
           pendingMove (overlayOf storeWithPlanet) "00001234" localCopy).
  - exact storeWithPlanet_wellFiled.
  - reflexivity.
  - reflexivity.
  - reflexivity.
Defined.

(** X27 for a deposit of the stored artifact. *)
Lemma intent_round_trip_restores_artifact_witness :
  exists o1 o2,
    onTxIntent (ext := sample_externals) 1000000 pendingDeposit (overlayOf storeWithArtifact)
    = Ok o1
    /\ clearUnconfirmedTxIntent (ext := sample_externals) 1000500 pendingDeposit o1 = Ok o2
    /\ (exists a1, artifacts (Overlay.objects o1) !! "a1"%string = Some a1
                   /\ pendingOnArtifact pendingDeposit a1)
    /\ artifacts (Overlay.objects o2) !! "a1"%string = Some movingPhotoid.
Proof.
  assert (exists o1,
            onTxIntent (ext := sample_externals) 1000000 pendingDeposit
              (overlayOf storeWithArtifact) = Ok o1
            /\ exists o2,
                 clearUnconfirmedTxIntent (ext := sample_externals) 1000500 pendingDeposit o1
                 = Ok o2) as (o1 & E1 & o2 & E2).
  { eexists. split; [vm_compute; reflexivity|]. eexists. vm_compute. reflexivity. }
  exists o1, o2. split; [exact E1|]. split; [exact E2|].
  apply (intent_round_trip_restores_artifact (ext := sample_externals) 1000000 1000500
           pendingDeposit (overlayOf storeWithArtifact) o1 o2 "a1" movingPhotoid).
  - exact storeWithArtifact_artifactsWellFiled.
  - reflexivity.
  - reflexivity.
  - reflexivity.
  - exact E1.
  - exact E2.
Defined.

(** X28 for a move, in an overlay with nothing pending. *)
Lemma intent_round_trip_restores_registries_witness :
  exists o1 o2,
    onTxIntent (ext := sample_externals) 1000000 pendingMove (overlayOf storeWithPlanet)
    = Ok o1
    /\ clearUnconfirmedTxIntent (ext := sample_externals) 1000500 pendingMove o1 = Ok o2
    /\ registries o2 = registries (overlayOf storeWithPlanet)
    /\ Overlay.txInits o2 = [pendingMove].
Proof.
  assert (exists o1,
            onTxIntent (ext := sample_externals) 1000000 pendingMove
              (overlayOf storeWithPlanet) = Ok o1
            /\ exists o2,
                 clearUnconfirmedTxIntent (ext := sample_externals) 1000500 pendingMove o1
                 = Ok o2) as (o1 & E1 & o2 & E2).
  { eexists. split; [vm_compute; reflexivity|]. eexists. vm_compute. reflexivity. }
  exists o1, o2. split; [exact E1|]. split; [exact E2|].
  apply (intent_round_trip_restores_registries (ext := sample_externals) 1000000 1000500
           pendingMove (overlayOf storeWithPlanet) o1 o2).
  - reflexivity.
  - exact E1.
  - exact E2.
Defined.

(** X29 in an overlay with no reveal pending. *)
Lemma clearing_an_unexpected_reveal_is_reported_witness :
  exists o2 p2 logged,
    clearUnconfirmedTxIntent (ext := sample_externals) 1000000
      (Intent.UnconfirmedReveal "tx3" "00001234") (overlayOf storeWithPlanet) = Ok o2
    /\ Overlay.unconfirmedReveal o2 = None
    /\ planets (Overlay.objects o2) !! "00001234"%string = Some p2
    /\ unconfirmedReveal p2 = None
    /\ console (Overlay.objects o2)
       = logged
         ++ ["unexpected error occurred: tried to clear an unconfirmed reveal that doesn't exist"%string].
Proof.
  apply (clearing_an_unexpected_reveal_is_reported (ext := sample_externals) 1000000 "tx3"
           "00001234" (overlayOf storeWithPlanet) localCopy).
  - exact storeWithPlanet_wellFiled.
  - reflexivity.
  - intros pending H. discriminate H.
Defined.

(** X25 for an update that sets the energy of the stored planet, a thousand
    seconds after it was last brought current. *)
Lemma updatePlanet_files_the_update_witness :
  exists s',
    updatePlanet (ext := sample_externals) 2000000 "00001234" (set_energy 5) storeWithPlanet
    = Ok s'
    /\ planets s' !! "00001234"%string
       = Some (set_energy 5
                 (updatePlanetToTime (ext := sample_externals) localCopy
                    (getPlanetArtifacts "00001234" storeWithPlanet) 2000000
                    (contractConstants storeWithPlanet)))
    /\ wellFiled s' /\ itemIndex s' = itemIndex storeWithPlanet.
Proof.
  apply (proj2 (updatePlanet_files_the_update (ext := sample_externals) 2000000 "00001234"
                  (set_energy 5) storeWithPlanet storeWithPlanet_wellFiled
                  (fun q => eq_refl)) localCopy).
  reflexivity.
Defined.

